(** * File Organizer: the classification-and-move engine and its undo

    A shallow embedding of [FileOrganizerApp.organize_directory] and
    [FileOrganizerApp.undo_last_organization] (src/file_organizer_gui.py),
    together with the part of the operating system they talk to.

    - The directory being organised is a tree of [node]s; a path is the list
      of names below the target directory, so [os.path.join(target_path,
      item_name)] is [[item_name]].
    - [os.listdir] returns the names in an order the operating system picks,
      or fails. Its answer is an argument ([listing]) of
      [organize_directory]: [Some] names, or [None] for the error; the
      theorems say what they need of it (usually that no name is repeated).
    - [os.rename] follows POSIX rename(2): a regular file found at the
      destination is replaced. [shutil.move] is built on it as in the
      standard library: it raises [shutil.Error] only when the destination
      is a directory that already holds the name.
    - Log lines are values of [message] tagged with their [level]; the text
      of an exception ([{e}] in the f-strings) is left out.
    - File names are strings of 8-bit characters; [str.lower] is modelled on
      the ASCII letters.
    - Of the window, the two buttons with their handlers
      ([start_organization_thread], [start_undo_thread],
      [finalize_organization]), the log area and the data drawn by
      [update_analytics_dashboard] are modelled; a click is served to its
      end, callbacks included, before the next one. Colours, fonts and
      [format_size] are left out.
    - Symbolic links to paths inside the directory are in [Symlinks], with
      the organizer on such directories; everything outside that module is
      about directories without them. *)

From Stdlib Require Import ZArith Lia Ascii String.
From stdpp Require Import gmap strings list fin_maps.

Set Warnings "-register-all".
Open Scope Z_scope.
Open Scope string_scope.
Open Scope list_scope.

(** ** Strings: [str.lower], [str.rfind], [os.path.splitext] *)

Definition lower_ascii (c : ascii) : ascii :=
  let n := nat_of_ascii c in
  if ((65 <=? n) && (n <=? 90))%nat then ascii_of_nat (n + 32) else c.

Fixpoint lower (s : string) : string :=
  match s with
  | EmptyString => EmptyString
  | String c s' => String (lower_ascii c) (lower s')
  end.

(** [rfind_from c s i]: the index, counted from [i], of the last [c] in [s];
    [-1] when there is none. *)
Fixpoint rfind_from (c : ascii) (s : string) (i : Z) : Z :=
  match s with
  | EmptyString => -1
  | String a s' =>
      let r := rfind_from c s' (i + 1) in
      if (0 <=? r)%Z then r else if Ascii.eqb a c then i else -1
  end.

Definition rfind (c : ascii) (s : string) : Z := rfind_from c s 0.

(** The [while filenameIndex < dotIndex] loop of [genericpath._splitext]:
    [true] as soon as a character other than the dot is met. *)
Fixpoint splitext_scan (p : string) (filenameIndex : nat) (steps : nat) : bool :=
  match steps with
  | O => false
  | S steps' =>
      match String.get filenameIndex p with
      | Some "."%char => splitext_scan p (S filenameIndex) steps'
      | _ => true
      end
  end.

Definition splitext (p : string) : string * string :=
  let sepIndex := rfind "/"%char p in
  let dotIndex := rfind "."%char p in
  if (sepIndex <? dotIndex)%Z &&
     splitext_scan p (Z.to_nat (sepIndex + 1)) (Z.to_nat (dotIndex - (sepIndex + 1)))
  then (String.substring 0 (Z.to_nat dotIndex) p,
        String.substring (Z.to_nat dotIndex) (String.length p - Z.to_nat dotIndex) p)
  else (p, "").

(** ** The classification table *)

Definition FILE_TYPE_MAP : list (string * list string) :=
  [ ("Images", [".jpg"; ".jpeg"; ".png"; ".gif"; ".bmp"; ".svg"; ".tiff"]);
    ("Documents", [".pdf"; ".docx"; ".doc"; ".txt"; ".pptx"; ".xlsx"; ".odt"; ".rtf"]);
    ("Videos", [".mp4"; ".mov"; ".avi"; ".mkv"; ".flv"; ".wmv"]);
    ("Audio", [".mp3"; ".wav"; ".aac"; ".flac"; ".ogg"]);
    ("Archives", [".zip"; ".rar"; ".7z"; ".tar"; ".gz"]);
    ("Scripts", [".py"; ".js"; ".html"; ".css"; ".sh"; ".bat"]);
    ("Others", []) ].

(** [category = "Others"; for cat, exts in rules.items(): if file_ext in
    exts: category = cat; break] *)
Fixpoint classify (rules : list (string * list string)) (file_ext : string)
    (category : string) : string :=
  match rules with
  | [] => category
  | (cat, exts) :: rest =>
      if bool_decide (file_ext ∈ exts) then cat else classify rest file_ext category
  end.

(** The category the loop body computes for a directory entry. *)
Definition category_of (item_name : string) : string :=
  classify FILE_TYPE_MAP (lower (splitext item_name).2) "Others".

Definition reserved_names : list string :=
  ["file_organizer_app.py"; "file_organizer.log"].

(** ** The file system below the target directory *)

(** [Broken] is an entry that is listed but cannot be examined (a dangling
    symbolic link): [os.path.isdir] and [os.path.exists] answer [False] and
    [os.path.getsize] raises [OSError]. *)
Inductive node : Type :=
  | File (data : list Byte.byte)
  | Dir (children : gmap string node)
  | Broken.

Definition path := list string.

Definition dirname (p : path) : path := removelast p.
Definition basename (p : path) : string := List.last p "".

Fixpoint lookup_path (p : path) (w : node) : option node :=
  match p with
  | [] => Some w
  | k :: p' =>
      match w with
      | Dir ch => match ch !! k with Some c => lookup_path p' c | None => None end
      | _ => None
      end
  end.

Definition os_path_isdir (p : path) (w : node) : bool :=
  match lookup_path p w with Some (Dir _) => true | _ => false end.

Definition os_path_exists (p : path) (w : node) : bool :=
  match lookup_path p w with Some (Dir _) | Some (File _) => true | _ => false end.

(** [None] stands for [OSError]. The size of a directory depends on the
    file system; the organizer asks for sizes of non-directories only. *)
Definition os_path_getsize (p : path) (w : node) : option Z :=
  match lookup_path p w with
  | Some (File data) => Some (Z.of_nat (length data))
  | Some (Dir _) => Some 0
  | _ => None
  end.

(** [os.listdir]; [None] stands for [OSError]. It is raised when the target
    is not a directory, and it can be raised on a directory as well (one that
    may not be read: [PermissionError]). What the operating system answers
    on a directory, the names in an order of its choice or the error, is the
    caller-supplied [listing]. *)
Definition os_listdir (w : node) (listing : option (list string))
    : option (list string) :=
  match w with Dir _ => listing | _ => None end.

(** [os.makedirs(p, exist_ok=True)]; [None] stands for the [OSError] raised
    when a component exists and is not a directory. *)
Fixpoint os_makedirs (p : path) (w : node) : option node :=
  match w with
  | Dir ch =>
      match p with
      | [] => Some w
      | k :: p' =>
          match os_makedirs p' (default (Dir ∅) (ch !! k)) with
          | Some c => Some (Dir (<[k := c]> ch))
          | None => None
          end
      end
  | _ => None
  end.

Fixpoint remove_path (p : path) (w : node) : node :=
  match w with
  | Dir ch =>
      match p with
      | [] => w
      | [k] => Dir (delete k ch)
      | k :: p' =>
          match ch !! k with
          | Some c => Dir (<[k := remove_path p' c]> ch)
          | None => w
          end
      end
  | _ => w
  end.

Fixpoint insert_path (p : path) (v : node) (w : node) : node :=
  match w with
  | Dir ch =>
      match p with
      | [] => w
      | [k] => Dir (<[k := v]> ch)
      | k :: p' =>
          match ch !! k with
          | Some c => Dir (<[k := insert_path p' v c]> ch)
          | None => w
          end
      end
  | _ => w
  end.

Definition is_empty_dir (w : node) : bool :=
  match w with Dir ch => bool_decide (dom ch = ∅) | _ => false end.

(** [os.rename] with the semantics of POSIX rename(2); [None] stands for
    [OSError]. An existing non-directory at [dst] is replaced. *)
Definition os_rename (src dst : path) (w : node) : option node :=
  match lookup_path src w with
  | None => None
  | Some s =>
      if bool_decide (src = dst) then Some w
      else if bool_decide (src `prefix_of` dst) then None
      else if bool_decide (dst = []) then None
      else if negb (os_path_isdir (dirname dst) w) then None
      else
        let moved := Some (insert_path dst s (remove_path src w)) in
        match lookup_path dst w, s with
        | None, _ => moved
        | Some (Dir _ as d), Dir _ => if is_empty_dir d then moved else None
        | Some (Dir _), _ => None
        | Some _, Dir _ => None
        | Some _, _ => moved
        end
  end.

Inductive move_result : Type :=
  | Moved_to (w : node)     (* returned normally *)
  | Shutil_Error            (* raised shutil.Error *)
  | OS_Error.               (* raised OSError *)

(** [shutil.move(src, dst)]. *)
Definition shutil_move (src dst : path) (w : node) : move_result :=
  let rename_or_copy (real_dst : path) : move_result :=
    match os_rename src real_dst w with
    | Some w' => Moved_to w'
    | None =>
        match lookup_path src w with
        | Some (Dir _) =>
            if bool_decide (src `prefix_of` dst) then Shutil_Error
            else
              (* copytree(src, real_dst) then rmtree(src) *)
              match os_makedirs (dirname real_dst) w with
              | Some w1 =>
                  match lookup_path real_dst w1 with
                  | None =>
                      match os_rename src real_dst w1 with
                      | Some w' => Moved_to w'
                      | None => OS_Error
                      end
                  | Some _ => OS_Error
                  end
              | None => OS_Error
              end
        | _ => OS_Error
        end
    end in
  if os_path_isdir dst w then
    if bool_decide (src = dst) then
      match os_rename src dst w with Some w' => Moved_to w' | None => OS_Error end
    else
      let real_dst := dst ++ [basename src] in
      if os_path_exists real_dst w then Shutil_Error else rename_or_copy real_dst
  else rename_or_copy dst.

(** ** The organizer *)

Inductive level : Type := info | warning | error.

(** The log lines of [organize_directory] and [undo_last_organization]. *)
Inductive message : Type :=
  | Starting (dry_run : bool)
  | SkippingDirectory (item_name : string)
  | CouldNotAnalyze (item_name : string)
  | WouldMove (item_name category : string)
  | Moved (item_name category : string)
  | CouldNotMove (item_name : string)
  | ErrorMoving (item_name : string)
  | NoNewFiles
  | OrganizationComplete (dry_run : bool)
  | UnexpectedError
  | StartingUndo
  | Reverted (name : string)
  | ErrorUndoing (name : string)
  | UndoComplete.

Definition log_entry : Type := level * message.

(** One value of [analytics_data]: [{'count': _, 'size': _}]. *)
Record stats : Type := { file_count : Z; total_size : Z }.

Definition no_stats : stats := {| file_count := 0; total_size := 0 |}.

Definition add_file (file_size : Z) (s : stats) : stats :=
  {| file_count := file_count s + 1; total_size := total_size s + file_size |}.

(** [(final_dest_path, source_item_path)] *)
Definition move_action : Type := path * path.

(** What a run reads and writes: the directory, [self.last_move_actions]
    and the local variables of [organize_directory]. *)
Record run_state : Type := {
  fs : node;
  last_move_actions : list move_action;
  analytics_data : gmap string stats;
  files_processed_count : Z;
  all_file_sizes : list Z
}.

(** How an iteration of the loop ends: normally, or with an exception that
    no handler inside the loop catches. *)
Inductive flow : Type :=
  | Next (st : run_state)
  | Raised (st : run_state).

Definition initial_analytics : gmap string stats :=
  <["Others" := no_stats]>
    (list_to_map ((λ category, (category, no_stats)) <$> FILE_TYPE_MAP.*1)).

(** The body of [for item_name in all_items]. *)
Definition organize_item (dry_run : bool) (item_name : string) (st : run_state)
    : list log_entry * flow :=
  let source_item_path : path := [item_name] in
  if bool_decide (item_name ∈ reserved_names) then ([], Next st)
  else if os_path_isdir source_item_path (fs st) then
    ([(info, SkippingDirectory item_name)], Next st)
  else
    let file_ext := lower (splitext item_name).2 in
    match os_path_getsize source_item_path (fs st) with
    | None => ([(warning, CouldNotAnalyze item_name)], Next st)
    | Some file_size =>
        let sizes := all_file_sizes st ++ [file_size] in
        let category := classify FILE_TYPE_MAP file_ext "Others" in
        match analytics_data st !! category with
        | None =>
            (* KeyError: not an OSError, it leaves the loop *)
            ([], Raised {| fs := fs st;
                           last_move_actions := last_move_actions st;
                           analytics_data := analytics_data st;
                           files_processed_count := files_processed_count st;
                           all_file_sizes := sizes |})
        | Some s =>
            let analytics := <[category := add_file file_size s]> (analytics_data st) in
            let dest_folder_path : path := [category] in
            let final_dest_path : path := [category; item_name] in
            let after (w : node) (actions : list move_action) (processed : Z) :=
              Next {| fs := w;
                      last_move_actions := actions;
                      analytics_data := analytics;
                      files_processed_count := processed;
                      all_file_sizes := sizes |} in
            if dry_run then
              ([(info, WouldMove item_name category)],
               after (fs st) (last_move_actions st) (files_processed_count st + 1))
            else
              match os_makedirs dest_folder_path (fs st) with
              | None =>
                  ([(error, ErrorMoving item_name)],
                   after (fs st) (last_move_actions st) (files_processed_count st))
              | Some w1 =>
                  match shutil_move source_item_path final_dest_path w1 with
                  | Moved_to w2 =>
                      ([(info, Moved item_name category)],
                       after w2
                         (last_move_actions st ++ [(final_dest_path, source_item_path)])
                         (files_processed_count st + 1))
                  | Shutil_Error =>
                      ([(warning, CouldNotMove item_name)],
                       after w1 (last_move_actions st) (files_processed_count st))
                  | OS_Error =>
                      ([(error, ErrorMoving item_name)],
                       after w1 (last_move_actions st) (files_processed_count st))
                  end
              end
        end
    end.

Fixpoint organize_loop (dry_run : bool) (all_items : list string) (st : run_state)
    : list log_entry * flow :=
  match all_items with
  | [] => ([], Next st)
  | item_name :: rest =>
      match organize_item dry_run item_name st with
      | (lines, Next st') =>
          let '(lines', r) := organize_loop dry_run rest st' in (lines ++ lines', r)
      | (lines, Raised st') => (lines, Raised st')
      end
  end.

(** What [organize_directory] leaves behind: the state and the log lines. *)
Record outcome : Type := { result : run_state; log : list log_entry }.

Definition organize_directory (actions : list move_action) (target : node)
    (listing : option (list string)) (dry_run : bool) : outcome :=
  let start := (info, Starting dry_run) in
  let st0 := {| fs := target;
                last_move_actions := if dry_run then actions else [];
                analytics_data := initial_analytics;
                files_processed_count := 0;
                all_file_sizes := [] |} in
  match os_listdir target listing with
  | None => {| result := st0; log := [start; (error, UnexpectedError)] |}
  | Some all_items =>
      match organize_loop dry_run all_items st0 with
      | (lines, Next st) =>
          {| result := st;
             log := start :: lines
                    ++ (if bool_decide (files_processed_count st = 0)
                        then [(info, NoNewFiles)] else [])
                    ++ [(info, OrganizationComplete dry_run)] |}
      | (lines, Raised st) =>
          {| result := st; log := start :: lines ++ [(error, UnexpectedError)] |}
      end
  end.

(** [filtered_data] of [update_analytics_dashboard]: the categories that
    received a file. *)
Definition filtered_data (data : gmap string stats) : gmap string stats :=
  filter (λ kv, 0 < file_count kv.2) data.

(** ** Undo *)

(** The body of [for source, dest in reversed(self.last_move_actions)];
    every line of the undo log has level [info]. *)
Definition undo_item (a : move_action) (w : node) : list log_entry * node :=
  let '(source, dest) := a in
  match os_makedirs (dirname dest) w with
  | None => ([(info, ErrorUndoing (basename source))], w)
  | Some w1 =>
      match shutil_move source dest w1 with
      | Moved_to w2 => ([(info, Reverted (basename source))], w2)
      | _ => ([(info, ErrorUndoing (basename source))], w1)
      end
  end.

Fixpoint undo_loop (actions : list move_action) (w : node) : list log_entry * node :=
  match actions with
  | [] => ([], w)
  | a :: rest =>
      let '(lines, w1) := undo_item a w in
      let '(lines', w2) := undo_loop rest w1 in
      (lines ++ lines', w2)
  end.

Record undo_outcome : Type := {
  undo_fs : node;
  undo_actions : list move_action;
  undo_log : list log_entry;
  nothing_to_undo : bool     (* the "No actions to undo." dialog was shown *)
}.

Definition undo_last_organization (actions : list move_action) (w : node)
    : undo_outcome :=
  match actions with
  | [] => {| undo_fs := w; undo_actions := actions; undo_log := [];
             nothing_to_undo := true |}
  | _ =>
      let '(lines, w') := undo_loop (rev actions) w in
      {| undo_fs := w'; undo_actions := [];
         undo_log := (info, StartingUndo) :: lines ++ [(info, UndoComplete)];
         nothing_to_undo := false |}
  end.

(** * Directories with symbolic links *)

(** The organizer once more, on a directory that may hold symbolic links to
    paths inside it. The functions of the operating system follow the links
    where the real ones do; the organizer itself is the one above, word for
    word. *)
Module Symlinks.

(** The tree of the directory and its symbolic links. A link is a [Broken]
    leaf of the tree; [links] gives the target of the link found at a path,
    as a path from the target directory (the links are absolute: a link that
    is moved still points to the same place). A [Broken] leaf without a
    target is, as before, a link to something outside the directory that
    does not exist. *)
Record world : Type := { tree : node; links : path → option path }.

Definition with_tree (W : world) (t : node) : world :=
  {| tree := t; links := links W |}.

Definition readlink (p : path) (W : world) : option path :=
  match lookup_path p (tree W) with
  | Some Broken => links W p
  | _ => None
  end.

(** The number of links the kernel follows in one path before it gives up
    with [ELOOP]. *)
Definition MAXSYMLINKS : nat := 40.

(** Path resolution. [resolve n W follow d rest] is the place of [rest],
    seen from the directory at [d], with every link on the way replaced by
    what it points to; the last name is replaced only when [follow] is set
    ([stat] against [lstat], [rename] and [mkdir]). [None]: a link that
    leads nowhere, or more than [n] links. *)
Fixpoint resolve (n : nat) (W : world) (follow : bool) : path → path → option path :=
  fix walk (d rest : path) : option path :=
    match rest with
    | [] => Some d
    | k :: rest' =>
        let p := d ++ [k] in
        match readlink p W with
        | None => walk p rest'
        | Some target =>
            if negb follow && bool_decide (rest' = []) then Some p
            else
              match n with
              | O => None
              | S n' =>
                  match resolve n' W true [] target with
                  | Some c => if os_path_exists c (tree W) then walk c rest' else None
                  | None => None
                  end
              end
        end
    end.

Definition realpath (p : path) (W : world) : option path :=
  resolve MAXSYMLINKS W true [] p.

(** The place of the entry itself: links are followed in the directory part
    of the path only. *)
Definition entrypath (p : path) (W : world) : option path :=
  resolve MAXSYMLINKS W false [] p.

Definition stat (p : path) (W : world) : option node :=
  match realpath p W with
  | Some c => lookup_path c (tree W)
  | None => None
  end.

Definition lstat (p : path) (W : world) : option node :=
  match entrypath p W with
  | Some c => lookup_path c (tree W)
  | None => None
  end.

(** [os.path.samefile], and [False] where it raises. *)
Definition samefile (src dst : path) (W : world) : bool :=
  match realpath src W, realpath dst W with
  | Some s, Some d => bool_decide (s = d) && os_path_exists s (tree W)
  | _, _ => false
  end.

Definition os_path_isdir (p : path) (W : world) : bool :=
  match stat p W with Some (Dir _) => true | _ => false end.

Definition os_path_exists (p : path) (W : world) : bool :=
  match stat p W with Some (Dir _) | Some (File _) => true | _ => false end.

Definition os_path_getsize (p : path) (W : world) : option Z :=
  match stat p W with
  | Some (File data) => Some (Z.of_nat (length data))
  | Some (Dir _) => Some 0
  | _ => None
  end.

Definition os_listdir (W : world) (listing : option (list string))
    : option (list string) :=
  os_listdir (tree W) listing.

(** [os.makedirs(p, exist_ok=True)]: directories are made where the path
    leads to; a link on the way must lead to a directory. *)
Definition os_makedirs (p : path) (W : world) : option world :=
  match realpath p W with
  | Some c => with_tree W <$> os_makedirs c (tree W)
  | None => None
  end.

(** The links after the entry at [src] has become the entry at [dst]. *)
Definition rekey (src dst : path) (l : path → option path) : path → option path :=
  λ p, if bool_decide (dst `prefix_of` p) then l (src ++ drop (length dst) p)
       else if bool_decide (src `prefix_of` p) then None
       else l p.

(** [os.rename] moves the entry itself, a link as a link. *)
Definition os_rename (src dst : path) (W : world) : option world :=
  match entrypath src W, entrypath dst W with
  | Some s, Some d =>
      match os_rename s d (tree W) with
      | Some t => Some {| tree := t; links := rekey s d (links W) |}
      | None => None
      end
  | _, _ => None
  end.

Inductive move_result : Type :=
  | Moved_to (W : world)
  | Shutil_Error
  | OS_Error.

(** [shutil.move(src, dst)]. *)
Definition shutil_move (src dst : path) (W : world) : move_result :=
  let rename_or_copy (real_dst : path) : move_result :=
    match os_rename src real_dst W with
    | Some W' => Moved_to W'
    | None =>
        match lstat src W with
        | Some (Dir _) =>
            if bool_decide (src `prefix_of` dst) then Shutil_Error
            else
              (* copytree(src, real_dst, symlinks=True) then rmtree(src) *)
              match os_makedirs (dirname real_dst) W with
              | Some W1 =>
                  match lstat real_dst W1 with
                  | None =>
                      match os_rename src real_dst W1 with
                      | Some W' => Moved_to W'
                      | None => OS_Error
                      end
                  | Some _ => OS_Error
                  end
              | None => OS_Error
              end
        | _ => OS_Error
        end
    end in
  if os_path_isdir dst W then
    if samefile src dst W then
      match os_rename src dst W with Some W' => Moved_to W' | None => OS_Error end
    else
      let real_dst := dst ++ [basename src] in
      if os_path_exists real_dst W then Shutil_Error else rename_or_copy real_dst
  else rename_or_copy dst.

(** What a run reads and writes. *)
Record run_state : Type := {
  fs : world;
  last_move_actions : list move_action;
  analytics_data : gmap string stats;
  files_processed_count : Z;
  all_file_sizes : list Z
}.

Inductive flow : Type :=
  | Next (st : run_state)
  | Raised (st : run_state).

(** The body of [for item_name in all_items]. *)
Definition organize_item (dry_run : bool) (item_name : string) (st : run_state)
    : list log_entry * flow :=
  let source_item_path : path := [item_name] in
  if bool_decide (item_name ∈ reserved_names) then ([], Next st)
  else if os_path_isdir source_item_path (fs st) then
    ([(info, SkippingDirectory item_name)], Next st)
  else
    let file_ext := lower (splitext item_name).2 in
    match os_path_getsize source_item_path (fs st) with
    | None => ([(warning, CouldNotAnalyze item_name)], Next st)
    | Some file_size =>
        let sizes := all_file_sizes st ++ [file_size] in
        let category := classify FILE_TYPE_MAP file_ext "Others" in
        match analytics_data st !! category with
        | None =>
            ([], Raised {| fs := fs st;
                           last_move_actions := last_move_actions st;
                           analytics_data := analytics_data st;
                           files_processed_count := files_processed_count st;
                           all_file_sizes := sizes |})
        | Some s =>
            let analytics := <[category := add_file file_size s]> (analytics_data st) in
            let dest_folder_path : path := [category] in
            let final_dest_path : path := [category; item_name] in
            let after (W : world) (actions : list move_action) (processed : Z) :=
              Next {| fs := W;
                      last_move_actions := actions;
                      analytics_data := analytics;
                      files_processed_count := processed;
                      all_file_sizes := sizes |} in
            if dry_run then
              ([(info, WouldMove item_name category)],
               after (fs st) (last_move_actions st) (files_processed_count st + 1))
            else
              match os_makedirs dest_folder_path (fs st) with
              | None =>
                  ([(error, ErrorMoving item_name)],
                   after (fs st) (last_move_actions st) (files_processed_count st))
              | Some W1 =>
                  match shutil_move source_item_path final_dest_path W1 with
                  | Moved_to W2 =>
                      ([(info, Moved item_name category)],
                       after W2
                         (last_move_actions st ++ [(final_dest_path, source_item_path)])
                         (files_processed_count st + 1))
                  | Shutil_Error =>
                      ([(warning, CouldNotMove item_name)],
                       after W1 (last_move_actions st) (files_processed_count st))
                  | OS_Error =>
                      ([(error, ErrorMoving item_name)],
                       after W1 (last_move_actions st) (files_processed_count st))
                  end
              end
        end
    end.

Fixpoint organize_loop (dry_run : bool) (all_items : list string) (st : run_state)
    : list log_entry * flow :=
  match all_items with
  | [] => ([], Next st)
  | item_name :: rest =>
      match organize_item dry_run item_name st with
      | (lines, Next st') =>
          let '(lines', r) := organize_loop dry_run rest st' in (lines ++ lines', r)
      | (lines, Raised st') => (lines, Raised st')
      end
  end.

Record outcome : Type := { result : run_state; log : list log_entry }.

Definition organize_directory (actions : list move_action) (target : world)
    (listing : option (list string)) (dry_run : bool) : outcome :=
  let start := (info, Starting dry_run) in
  let st0 := {| fs := target;
                last_move_actions := if dry_run then actions else [];
                analytics_data := initial_analytics;
                files_processed_count := 0;
                all_file_sizes := [] |} in
  match os_listdir target listing with
  | None => {| result := st0; log := [start; (error, UnexpectedError)] |}
  | Some all_items =>
      match organize_loop dry_run all_items st0 with
      | (lines, Next st) =>
          {| result := st;
             log := start :: lines
                    ++ (if bool_decide (files_processed_count st = 0)
                        then [(info, NoNewFiles)] else [])
                    ++ [(info, OrganizationComplete dry_run)] |}
      | (lines, Raised st) =>
          {| result := st; log := start :: lines ++ [(error, UnexpectedError)] |}
      end
  end.
End Symlinks.

(** * Vocabulary of the statements *)

(** [lists target listing]: [listing] is a possible result of
    [os.listdir(target)]: every entry once, in any order. *)
Definition lists (target : node) (listing : list string) : Prop :=
  match target with
  | Dir ch => NoDup listing ∧ (list_to_set listing : gset string) = dom ch
  | _ => True
  end.

(** The state a flow carries. *)
Definition flow_state (r : flow) : run_state :=
  match r with Next st | Raised st => st end.

(** Whether a log holds a line of level [warning] or [error]. *)
Definition is_alert (e : log_entry) : bool :=
  match e.1 with info => false | _ => true end.

Definition quiet (lines : list log_entry) : bool := forallb (λ e, negb (is_alert e)) lines.

(** The files of a tree: the data found at [p] when a regular file is there. *)
Definition file_at (p : path) (w : node) : option (list Byte.byte) :=
  match lookup_path p w with Some (File data) => Some data | _ => None end.

Definition is_category (name : string) : Prop := name ∈ FILE_TYPE_MAP.*1.

(** A sequence of dry runs, each on some directory with some listing. *)
Definition dry_runs (runs : list (node * option (list string)))
    (actions : list move_action)
    : list move_action :=
  foldl (λ acts '(target, listing),
           last_move_actions (result (organize_directory acts target listing true)))
        actions runs.

Definition action_of (e : log_entry) : option move_action :=
  match e with
  | (_, Moved item_name category) => Some ([category; item_name], [item_name])
  | _ => None
  end.

(** What the loop body learns about an entry before it moves anything: the
    size of the entry, or [None] when the entry is passed over (reserved
    name, directory, size not readable). *)
Definition analysed (item_name : string) (w : node) : option Z :=
  if bool_decide (item_name ∈ reserved_names) then None
  else if os_path_isdir [item_name] w then None
  else os_path_getsize [item_name] w.

(** The snapshot: [analytics_data] and [all_file_sizes]. *)
Definition snapshot (st : run_state) : gmap string stats * list Z :=
  (analytics_data st, all_file_sizes st).

Definition tally (item_name : string) (file_size : option Z)
    (snap : gmap string stats * list Z) : gmap string stats * list Z :=
  match file_size with
  | None => snap
  | Some n =>
      (<[category_of item_name :=
           add_file n (default no_stats (snap.1 !! category_of item_name))]> snap.1,
       snap.2 ++ [n])
  end.

(** Every category the loop can compute is a key of the analytics. *)
Definition has_categories (a : gmap string stats) : Prop :=
  ∀ item_name, is_Some (a !! category_of item_name).

Definition sum_over (f : stats → Z) (a : gmap string stats) : Z :=
  map_fold (λ _ s acc, f s + acc) 0 a.

Definition sum_list (l : list Z) : Z := foldr Z.add 0 l.

(** Counts and sizes of the categories add up to the flat size list. *)
Definition balanced (snap : gmap string stats * list Z) : Prop :=
  sum_over file_count snap.1 = Z.of_nat (length snap.2)
  ∧ sum_over total_size snap.1 = sum_list snap.2.

(** [steady o o']: the entry [o] of a directory is still there as [o']: a
    file or a dangling link is unchanged, a directory is still a directory
    (its content may differ), and a missing name is still missing or has
    become a directory. *)
Definition steady (o o' : option node) : Prop :=
  match o with
  | Some (File data) => o' = Some (File data)
  | Some Broken => o' = Some Broken
  | Some (Dir _) => ∃ ch, o' = Some (Dir ch)
  | None => o' = None ∨ ∃ ch, o' = Some (Dir ch)
  end.

Definition scenario (photo notes archive : list Byte.byte) : node :=
  Dir (<["photo.JPG" := File photo]>
         (<["notes.txt" := File notes]>
            (<["archive.unknownext" := File archive]> ∅))).

(** Every entry of the directory is still to be handled, or has a reserved
    name, or is a directory. *)
Definition settled (m : gmap string node) (pending : list string) : Prop :=
  ∀ k v, m !! k = Some v → k ∈ pending ∨ k ∈ reserved_names ∨ ∃ ch, v = Dir ch.

(** No file of the directory bears the name of a category. *)
Definition no_file_named_category (m : gmap string node) : Prop :=
  ∀ k data, m !! k = Some (File data) → ¬ is_category k.

(** No file of the directory that the run will move finds its name taken in
    the folder of its category. *)
Definition collision_free (m : gmap string node) : Prop :=
  ∀ k data ch,
    k ∉ reserved_names → m !! k = Some (File data) →
    m !! category_of k = Some (Dir ch) → ch !! k = None.

Definition children_of (o : option node) : gmap string node :=
  match o with Some (Dir ch) => ch | _ => ∅ end.

(** The directory [m] after its file [x] went into the folder [c]. *)
Definition move_in (c x : string) (data : list Byte.byte) (m : gmap string node)
    : gmap string node :=
  <[c := Dir (<[x := File data]> (children_of (m !! c)))]> (delete x m).

Definition movable (c x : string) (data : list Byte.byte) (m : gmap string node) : Prop :=
  m !! x = Some (File data) ∧ ¬ is_category x ∧ is_category c
  ∧ (m !! c = None ∨ ∃ ch, m !! c = Some (Dir ch) ∧ ch !! x = None).

(** [extends u m]: [u] is [m] with, possibly, some more category folders,
    all empty. *)
Definition extends (u m : gmap string node) : Prop :=
  ∀ k, match m !! k with
       | Some v => u !! k = Some v
       | None => u !! k = None ∨ (is_category k ∧ u !! k = Some (Dir ∅))
       end.

Definition is_file (v : node) : bool :=
  match v with File _ => true | _ => false end.

#[global] Instance is_category_dec (name : string) : Decision (is_category name).
Proof. unfold is_category. apply _. Defined.

#[global] Instance lists_dec (target : node) (listing : list string) :
  Decision (lists target listing).
Proof. destruct target; simpl; apply _. Defined.

#[global] Instance no_file_named_category_dec (m : gmap string node) :
  Decision (no_file_named_category m).
Proof.
  destruct (decide (map_Forall (λ k v, is_file v = true → ¬ is_category k) m))
    as [Hall|Hnot]; [left|right].
  - intros k data Hk. by apply (Hall k (File data) Hk).
  - intros Hall. apply Hnot. intros k v Hk Hv. destruct v; try done. by eapply Hall.
Defined.

#[global] Instance collision_free_dec (m : gmap string node) :
  Decision (collision_free m).
Proof.
  destruct (decide (map_Forall
              (λ k v, is_file v = true → k ∉ reserved_names →
                      k ∉ dom (children_of (m !! category_of k))) m))
    as [Hall|Hnot]; [left|right].
  - intros k data ch Hres Hk Hc. apply not_elem_of_dom.
    pose proof (Hall k (File data) Hk eq_refl Hres) as Hdom. by rewrite Hc in Hdom.
  - intros Hall. apply Hnot. intros k v Hk Hv Hres. destruct v as [data| |]; try done.
    apply not_elem_of_dom.
    destruct (m !! category_of k) as [[|ch|]|] eqn:Hc; simpl; try apply lookup_empty.
    by eapply Hall.
Defined.

(** * The dashboard and the buttons *)

(** ** The values of the dashboard *)

(** [update_analytics_dashboard] first computes, from its two arguments,
    the values it is going to draw (lines 299 to 321): none, when no
    category received a file and the "No files were processed." text is
    written instead; otherwise the counts and the sizes by category, the
    total of the sizes and, when some size is positive, the positive sizes.
    [chart_values] is that computation, with the charts as maps from the
    category names. What is done with the values afterwards is not
    modelled: matplotlib and [format_size] (floating point) are not part of
    it, and both can raise. *)
Record charts : Type := {
  bar_counts : gmap string Z;         (* [categories] and [counts] *)
  pie_sizes : gmap string Z;          (* [categories] and [sizes] *)
  pie_total_size : Z;                 (* [total_size], handed to [format_size] *)
  hist_sizes : option (list Z)        (* [filtered_sizes], when it is drawn *)
}.

Definition chart_values (data : gmap string stats) (all_file_sizes : list Z)
    : option charts :=
  let filtered := filtered_data data in
  if bool_decide (dom filtered = (∅ : gset string)) then None
  else
    Some {| bar_counts := file_count <$> filtered;
            pie_sizes := total_size <$> filtered;
            pie_total_size := sum_over total_size filtered;
            hist_sizes :=
              match all_file_sizes with
              | [] => None
              | _ =>
                  match filter (λ s, 0 < s) all_file_sizes with
                  | [] => None
                  | filtered_sizes => Some filtered_sizes
                  end
              end |}.

(** ** The buttons *)

(** The handlers of the two buttons, [start_organization_thread] and
    [start_undo_thread], with the work they start and the callbacks that
    work queues ([update_log_area], [finalize_organization]), each taken as
    one step that runs to its end before the next click. *)
Inductive button_state : Type := normal | disabled.

Inductive dialog : Type :=
  | SelectValidDirectory   (* showerror: "Please select a valid directory first." *)
  | NoActionsToUndo.       (* showinfo: "No actions to undo." *)

Inductive area_line : Type :=
  | Welcome
  | Line (text : message).

(** [self.last_move_actions] and the widgets the handlers touch. *)
Record app : Type := {
  app_actions : list move_action;
  organize_button : button_state * string;
  undo_button : button_state;
  log_area : list area_line;
  dialogs : list dialog
}.

(** The application after [__init__]. *)
Definition initial_app : app :=
  {| app_actions := [];
     organize_button := (normal, "Organize Files");
     undo_button := disabled;
     log_area := [Welcome];
     dialogs := [] |}.

Definition finalize_organization (was_dry_run : bool) (g : app) : app :=
  {| app_actions := app_actions g;
     organize_button := (normal, "Organize Files");
     undo_button :=
       if negb was_dry_run && negb (bool_decide (app_actions g = []))
       then normal else undo_button g;
     log_area := log_area g;
     dialogs := dialogs g |}.

(** [start_organization_thread], the run it starts and the callbacks of
    that run. [target_path] is the text of the entry and [target] what is
    found at that path. *)
Definition start_organization_thread (target_path : string) (target : node)
    (listing : option (list string)) (is_dry_run : bool) (g : app) : app * node :=
  if bool_decide (target_path = "") || negb (os_path_isdir [] target) then
    ({| app_actions := app_actions g;
        organize_button := organize_button g;
        undo_button := undo_button g;
        log_area := log_area g;
        dialogs := dialogs g ++ [SelectValidDirectory] |}, target)
  else
    let o := organize_directory (app_actions g) target listing is_dry_run in
    (finalize_organization is_dry_run
       {| app_actions := last_move_actions (result o);
          organize_button := (disabled, "Organizing...");
          undo_button := disabled;
          log_area := (λ e : log_entry, Line e.2) <$> log o;
          dialogs := dialogs g |},
     fs (result o)).

(** [start_undo_thread] and the undo it starts, on the directory [w]. *)
Definition start_undo_thread (w : node) (g : app) : app * node :=
  let u := undo_last_organization (app_actions g) w in
  if nothing_to_undo u then
    ({| app_actions := app_actions g;
        organize_button := organize_button g;
        undo_button := undo_button g;
        log_area := log_area g;
        dialogs := dialogs g ++ [NoActionsToUndo] |}, w)
  else
    ({| app_actions := undo_actions u;
        organize_button := organize_button g;
        undo_button := disabled;
        log_area := log_area g ++ ((λ e : log_entry, Line e.2) <$> undo_log u);
        dialogs := dialogs g |},
     undo_fs u).

(** A click: a button that is disabled does not call its handler. *)
Inductive click : Type :=
  | ClickOrganize (target_path : string) (target : node)
      (listing : option (list string)) (dry_run : bool)
  | ClickUndo (w : node).

Definition handle (g : app) (c : click) : app :=
  match c with
  | ClickOrganize target_path target listing dry_run =>
      match organize_button g with
      | (normal, _) =>
          (start_organization_thread target_path target listing dry_run g).1
      | _ => g
      end
  | ClickUndo w =>
      match undo_button g with
      | normal => (start_undo_thread w g).1
      | disabled => g
      end
  end.

Definition session (clicks : list click) : app := foldl handle initial_app clicks.

(** * Vocabulary of the statements on steps, logs, undo and the buttons *)

(** What [shutil.move] of the file [x] leaves at a destination that is also
    called [x], where [old] was before: the file itself, also when a file or
    a dangling link was there; when a directory was there, that directory
    with the file inside it; [None] when [shutil.move] raises [shutil.Error]
    because the directory already holds the name. *)
Definition landed (x : string) (data : list Byte.byte) (old : option node)
    : option node :=
  match old with
  | Some (Dir inner) =>
      match inner !! x with
      | Some (File _) | Some (Dir _) => None
      | _ => Some (Dir (<[x := File data]> inner))
      end
  | _ => Some (File data)
  end.

(** The directory [m] after its file [x] was moved towards the folder [c],
    where it landed as [v]. *)
Definition moved_into (c x : string) (v : node) (m : gmap string node)
    : gmap string node :=
  <[c := Dir (<[x := v]> (children_of (m !! c)))]> (delete x m).

(** The entry a log line is about; [None] for the lines of the run as a
    whole. *)
Definition line_item (e : log_entry) : option string :=
  match e.2 with
  | SkippingDirectory x | CouldNotAnalyze x | WouldMove x _ | Moved x _
  | CouldNotMove x | ErrorMoving x => Some x
  | _ => None
  end.

(** The line the undo loop logs for an action: success or failure, always
    about the base name of the first path of the pair. *)
Definition undo_line (a : move_action) (e : log_entry) : Prop :=
  e = (info, Reverted (basename a.1)) ∨ e = (info, ErrorUndoing (basename a.1)).

(** Counts and sizes are not negative, and a category without files has
    size 0. *)
Definition sane (a : gmap string stats) : Prop :=
  ∀ (category : string) (s : stats), a !! category = Some s →
    (0 ≤ file_count s)%Z ∧ (0 ≤ total_size s)%Z
    ∧ (file_count s = 0 → total_size s = 0).

(** What every state of a session satisfies. *)
Definition steady_app (g : app) : Prop :=
  organize_button g = (normal, "Organize Files")
  ∧ (undo_button g = normal → app_actions g ≠ [])
  ∧ (NoActionsToUndo ∉ dialogs g).

(** ** Vocabulary for directories with links *)

Definition link_free (W : Symlinks.world) : Prop := ∀ p, Symlinks.links W p = None.

(** A tree as a directory without links into itself. *)
Definition without_links (t : node) : Symlinks.world :=
  {| Symlinks.tree := t; Symlinks.links := λ _, None |}.

(** What is left of a state, and of the end of an iteration, when the links
    are forgotten. *)
Definition tree_state (st : Symlinks.run_state) : run_state :=
  {| fs := Symlinks.tree (Symlinks.fs st);
     last_move_actions := Symlinks.last_move_actions st;
     analytics_data := Symlinks.analytics_data st;
     files_processed_count := Symlinks.files_processed_count st;
     all_file_sizes := Symlinks.all_file_sizes st |}.

Definition tree_flow (r : Symlinks.flow) : flow :=
  match r with
  | Symlinks.Next st => Next (tree_state st)
  | Symlinks.Raised st => Raised (tree_state st)
  end.

Definition flow_world (r : Symlinks.flow) : Symlinks.world :=
  match r with Symlinks.Next st | Symlinks.Raised st => Symlinks.fs st end.

(** The outcome of a move in a directory without links, against the outcome of
    the same move in its tree. *)
Definition move_agrees (r : Symlinks.move_result) (r' : move_result) : Prop :=
  match r, r' with
  | Symlinks.Moved_to W, Moved_to w => Symlinks.tree W = w ∧ link_free W
  | Symlinks.Shutil_Error, Shutil_Error => True
  | Symlinks.OS_Error, OS_Error => True
  | _, _ => False
  end.

(** ** Directories and states the statements are tried on *)

(** a.jpg next to an Images folder that already holds a file a.jpg. *)
Definition taken_name : gmap string node :=
  <["a.jpg" := File [Byte.x01]]>
    (<["Images" := Dir {["a.jpg" := File [Byte.x02; Byte.x02]]}]> ∅).

(** a.jpg next to an Images folder in which a.jpg is a directory that holds
    a file a.jpg. *)
Definition taken_folder : gmap string node :=
  <["a.jpg" := File [Byte.x01]]>
    (<["Images" := Dir {["a.jpg" := Dir {["a.jpg" := File [Byte.x02]]}]}]> ∅).

(** a.jpg next to a file called Images. *)
Definition file_named_images : gmap string node :=
  <["a.jpg" := File [Byte.x01]]> (<["Images" := File [Byte.x02]]> ∅).

(** a.jpg alone. *)
Definition single_file : gmap string node := {["a.jpg" := File [Byte.x01]]}.

(** a.jpg next to a dangling link. *)
Definition with_dangling_link : gmap string node :=
  <["a.jpg" := File [Byte.x01]]> (<["link" := Broken]> ∅).

Definition round_trip (m : gmap string node) (listing : list string) : node :=
  let r := organize_directory [] (Dir m) (Some listing) false in
  undo_fs (undo_last_organization (last_move_actions (result r)) (fs (result r))).

Definition collision_state : run_state :=
  {| fs := Dir taken_folder; last_move_actions := [];
     analytics_data := initial_analytics; files_processed_count := 0;
     all_file_sizes := [] |}.

(** a.txt, of three bytes, and b.txt, a symbolic link to a.txt. *)
Definition file_and_link : Symlinks.world :=
  {| Symlinks.tree :=
       Dir (<["a.txt" := File [Byte.x61; Byte.x62; Byte.x63]]> (<["b.txt" := Broken]> ∅));
     Symlinks.links := λ p, if bool_decide (p = ["b.txt"]) then Some ["a.txt"] else None |}.

(** * Classification *)

Section Classify.
Variable file_ext : string.
Variable fallback : string.

Lemma classify_no_match rules :
  (∀ cat exts, (cat, exts) ∈ rules → file_ext ∉ exts) →
  classify rules file_ext fallback = fallback.
Proof.
  induction rules as [|[cat exts] rest IH]; intros Hnone; simpl; [done|].
  rewrite bool_decide_eq_false_2 by (apply (Hnone cat); left).
  apply IH. intros c e Hin. apply (Hnone c). by right.
Qed.

Lemma classify_first_match before cat exts after :
  file_ext ∈ exts →
  (∀ c e, (c, e) ∈ before → file_ext ∉ e) →
  classify (before ++ (cat, exts) :: after) file_ext fallback = cat.
Proof.
  intros Hin. induction before as [|[c e] before IH]; intros Hfirst; simpl.
  - by rewrite bool_decide_eq_true_2.
  - rewrite bool_decide_eq_false_2 by (apply (Hfirst c); left).
    apply IH. intros c' e' Hin'. apply (Hfirst c'). by right.
Qed.

Lemma classify_in_rules rules :
  classify rules file_ext fallback = fallback ∨
  classify rules file_ext fallback ∈ rules.*1.
Proof.
  induction rules as [|[cat exts] rest IH]; simpl; [by left|].
  case_bool_decide.
  - right. left.
  - destruct IH as [->|IH]; [by left|]. right. by right.
Qed.
End Classify.

(** C4. A name whose lower-cased extension occurs in the table is given the
    first category, in the order of the table, whose list holds it; a name
    whose extension occurs in no list is given "Others". *)
Theorem category_of_first_match (item_name : string) :
  let file_ext := lower (splitext item_name).2 in
  (∀ before cat exts after,
      FILE_TYPE_MAP = before ++ (cat, exts) :: after →
      file_ext ∈ exts →
      (∀ c e, (c, e) ∈ before → file_ext ∉ e) →
      category_of item_name = cat)
  ∧ ((∀ cat exts, (cat, exts) ∈ FILE_TYPE_MAP → file_ext ∉ exts) →
      category_of item_name = "Others").
Proof.
  intros file_ext. unfold category_of. fold file_ext. split.
  - intros before cat exts after -> Hin Hfirst. by apply classify_first_match.
  - apply classify_no_match.
Qed.

Lemma category_of_first_match_witness :
  category_of "photo.JPG" = "Images" ∧ category_of "archive.unknownext" = "Others".
Proof.
  split.
  - apply (proj1 (category_of_first_match "photo.JPG") [] "Images"
             [".jpg"; ".jpeg"; ".png"; ".gif"; ".bmp"; ".svg"; ".tiff"]
             (tail FILE_TYPE_MAP)).
    + reflexivity.
    + vm_compute. left.
    + intros c e Hin. inversion Hin.
  - apply (proj2 (category_of_first_match "archive.unknownext")).
    intros cat exts Hin. unfold FILE_TYPE_MAP in Hin.
    repeat (apply elem_of_cons in Hin as [Hin|Hin];
            [injection Hin as -> ->; apply (bool_decide_unpack _); vm_compute; exact I|]).
    inversion Hin.
Defined.

(** * The loop: shared facts *)

Lemma organize_loop_app dry_run (l1 l2 : list string) st :
  organize_loop dry_run (l1 ++ l2) st =
  match organize_loop dry_run l1 st with
  | (lines, Next st1) =>
      let '(lines', r) := organize_loop dry_run l2 st1 in (lines ++ lines', r)
  | (lines, Raised st1) => (lines, Raised st1)
  end.
Proof.
  revert st. induction l1 as [|x l1 IH]; intros st; simpl.
  - by destruct (organize_loop dry_run l2 st).
  - destruct (organize_item dry_run x st) as [lines [st'|st']]; [|done].
    rewrite IH. destruct (organize_loop dry_run l1 st') as [lines1 [st1|st1]]; [|done].
    destruct (organize_loop dry_run l2 st1) as [lines2 r]. by rewrite app_assoc.
Qed.

(** ** A dry run touches neither the directory nor the action log *)

Lemma organize_item_dry item_name st :
  let st' := flow_state (organize_item true item_name st).2 in
  fs st' = fs st ∧ last_move_actions st' = last_move_actions st.
Proof.
  unfold organize_item. repeat case_match; simpl; auto.
Qed.

Lemma organize_loop_dry all_items st :
  let st' := flow_state (organize_loop true all_items st).2 in
  fs st' = fs st ∧ last_move_actions st' = last_move_actions st.
Proof.
  revert st. induction all_items as [|x rest IH]; intros st; simpl; [done|].
  pose proof (organize_item_dry x st) as Hx.
  destruct (organize_item true x st) as [lines [st1|st1]]; simpl in *; [|done].
  specialize (IH st1). destruct (organize_loop true rest st1) as [lines' r]; simpl in *.
  destruct Hx as [<- <-]. exact IH.
Qed.

Lemma organize_directory_dry actions target listing :
  let r := result (organize_directory actions target listing true) in
  fs r = target ∧ last_move_actions r = actions.
Proof.
  unfold organize_directory. destruct (os_listdir target listing) as [all_items|]; [|done].
  match goal with |- context [organize_loop true all_items ?st0] =>
    pose proof (organize_loop_dry all_items st0) as H;
    destruct (organize_loop true all_items st0) as [lines [st|st]] end; exact H.
Qed.

(** ** The action log of a real run is the list of its "Moved" lines *)

Lemma organize_item_actions dry_run item_name st :
  dry_run = false →
  let r := organize_item dry_run item_name st in
  last_move_actions (flow_state r.2) = last_move_actions st ++ omap action_of r.1.
Proof.
  intros ->. unfold organize_item.
  repeat case_match; simpl; rewrite ?app_nil_r; auto.
Qed.

Lemma organize_loop_actions all_items st :
  let r := organize_loop false all_items st in
  last_move_actions (flow_state r.2) = last_move_actions st ++ omap action_of r.1.
Proof.
  revert st. induction all_items as [|x rest IH]; intros st; simpl.
  - by rewrite app_nil_r.
  - pose proof (organize_item_actions false x st eq_refl) as Hx.
    destruct (organize_item false x st) as [lines [st1|st1]]; simpl in *; [|done].
    specialize (IH st1). destruct (organize_loop false rest st1) as [lines' r]; simpl in *.
    by rewrite IH, Hx, omap_app, app_assoc.
Qed.

Lemma organize_directory_actions actions target listing :
  let r := organize_directory actions target listing false in
  last_move_actions (result r) = omap action_of (log r).
Proof.
  unfold organize_directory.
  destruct (os_listdir target listing) as [all_items|]; [|done].
  match goal with |- context [organize_loop false all_items ?st0] =>
    pose proof (organize_loop_actions all_items st0) as H;
    destruct (organize_loop false all_items st0) as [lines [st|st]] end;
    simpl in *; rewrite H, !omap_app; simpl; rewrite ?app_nil_r; [|done].
  by case_bool_decide; simpl; rewrite app_nil_r.
Qed.

(** C10. A dry run hands back the action log it was given, so the log of the
    last real run is still there after any number of dry runs; a real run
    starts from an empty log and adds one pair per "Moved" line, in order. *)
Theorem dry_run_keeps_action_log (actions : list move_action) :
  (∀ target listing,
      last_move_actions (result (organize_directory actions target listing true))
      = actions)
  ∧ (∀ runs, dry_runs runs actions = actions)
  ∧ (∀ target listing,
      let r := organize_directory actions target listing false in
      last_move_actions (result r) = omap action_of (log r)).
Proof.
  split; [|split].
  - intros. apply organize_directory_dry.
  - intros runs. induction runs as [|[target listing] runs IH]; simpl; [done|].
    by rewrite (proj2 (organize_directory_dry actions target listing)).
  - intros. apply organize_directory_actions.
Qed.

(** * Failure of the directory listing *)

Lemma initial_analytics_zero category s :
  initial_analytics !! category = Some s → s = no_stats.
Proof.
  unfold initial_analytics. intros H.
  apply lookup_insert_Some in H as [[_ <-]|[_ H]]; [done|].
  apply elem_of_list_to_map_2, list_elem_of_fmap in H as (c & [= _ ->] & _). done.
Qed.

(** C7, amended. When the listing fails the run logs its start line and one
    error, its snapshot is empty, nothing is counted and the directory is
    untouched; the action log is the one it was given in a dry run and is
    empty in a real run, which clears it before listing. *)
Theorem listing_failure (actions : list move_action) (target : node)
    (listing : option (list string)) (dry_run : bool) :
  os_listdir target listing = None →
  let r := organize_directory actions target listing dry_run in
  log r = [(info, Starting dry_run); (error, UnexpectedError)]
  ∧ (∀ category s, analytics_data (result r) !! category = Some s → s = no_stats)
  ∧ all_file_sizes (result r) = []
  ∧ files_processed_count (result r) = 0
  ∧ fs (result r) = target
  ∧ last_move_actions (result r) = (if dry_run then actions else []).
Proof.
  intros Hfail. unfold organize_directory. rewrite Hfail. simpl.
  repeat split. apply initial_analytics_zero.
Qed.

Lemma listing_failure_witness :
  os_listdir (File []) (Some ["a.jpg"]) = None ∧
  last_move_actions
    (result (organize_directory [(["Images"; "a.jpg"], ["a.jpg"])] (File [])
               (Some ["a.jpg"]) false))
  = [].
Proof.
  split; [reflexivity|].
  apply (listing_failure [(["Images"; "a.jpg"], ["a.jpg"])] (File []) (Some ["a.jpg"]) false).
  reflexivity.
Defined.

(** C7 as stated fails: a real run whose listing fails has already cleared
    the action log. *)
Lemma listing_failure_clears_action_log :
  let actions : list move_action := [(["Images"; "a.jpg"], ["a.jpg"])] in
  let r := organize_directory actions Broken (Some []) false in
  log r = [(info, Starting false); (error, UnexpectedError)]
  ∧ last_move_actions (result r) ≠ actions.
Proof. split; [reflexivity|discriminate]. Qed.

(** * The analytics of a run *)

Lemma initial_analytics_has_categories : has_categories initial_analytics.
Proof.
  intros item_name. unfold category_of, initial_analytics.
  destruct (classify_in_rules (lower (splitext item_name).2) "Others" FILE_TYPE_MAP)
    as [->|Hin].
  - rewrite lookup_insert_eq. eauto.
  - destruct (decide ("Others" = classify FILE_TYPE_MAP (lower (splitext item_name).2) "Others"))
      as [<-|Hne]; [rewrite lookup_insert_eq; eauto|].
    rewrite lookup_insert_ne by done.
    apply not_eq_None_Some. intros Hnone.
    apply not_elem_of_list_to_map_2 in Hnone. apply Hnone.
    by rewrite <- list_fmap_compose, list_fmap_id.
Qed.

Lemma tally_has_categories item_name file_size snap :
  has_categories snap.1 → has_categories (tally item_name file_size snap).1.
Proof.
  intros Hcat name. destruct file_size as [n|]; simpl; [|apply Hcat].
  destruct (decide (category_of item_name = category_of name)) as [->|Hne].
  - rewrite lookup_insert_eq. eauto.
  - rewrite lookup_insert_ne by done. apply Hcat.
Qed.

(** The loop body never raises, and its effect on the snapshot is [tally]. *)
Lemma organize_item_snapshot dry_run item_name st :
  has_categories (analytics_data st) →
  ∃ st', (organize_item dry_run item_name st).2 = Next st'
         ∧ snapshot st' = tally item_name (analysed item_name (fs st)) (snapshot st).
Proof.
  intros Hcat. unfold organize_item, analysed. cbv zeta.
  change (classify FILE_TYPE_MAP (lower (splitext item_name).2) "Others")
    with (category_of item_name).
  case_bool_decide; [by eexists|].
  destruct (os_path_isdir [item_name] (fs st)); [by eexists|].
  destruct (os_path_getsize [item_name] (fs st)) as [n|]; [|by eexists].
  destruct (Hcat item_name) as [s Hs]. rewrite Hs.
  assert (tally item_name (Some n) (snapshot st)
          = (<[category_of item_name := add_file n s]> (analytics_data st),
             all_file_sizes st ++ [n])) as ->.
  { unfold snapshot, tally; simpl. by rewrite Hs. }
  repeat case_match; by eexists.
Qed.

Lemma organize_loop_next dry_run all_items st :
  has_categories (analytics_data st) →
  ∃ st', (organize_loop dry_run all_items st).2 = Next st'
         ∧ has_categories (analytics_data st').
Proof.
  revert st. induction all_items as [|x rest IH]; intros st Hcat; simpl; [by eexists|].
  destruct (organize_item_snapshot dry_run x st Hcat) as (st1 & Hst1 & Hsnap).
  destruct (organize_item dry_run x st) as [lines r]; simpl in Hst1; subst r.
  assert (Hcat1 : has_categories (analytics_data st1)).
  { change (analytics_data st1) with (snapshot st1).1. rewrite Hsnap.
    by apply tally_has_categories. }
  destruct (IH st1 Hcat1) as (st' & Hst' & Hcat').
  destruct (organize_loop dry_run rest st1) as [lines' r]; simpl in *. eauto.
Qed.

Lemma sum_over_insert f (a : gmap string stats) category s s' :
  a !! category = Some s →
  sum_over f (<[category := s']> a) = sum_over f a - f s + f s'.
Proof.
  intros Hs. unfold sum_over.
  rewrite <- insert_delete_eq.
  rewrite map_fold_insert_L; [|intros; lia|apply lookup_delete_eq].
  rewrite (map_fold_delete_L _ _ category s a); [lia|intros; lia|done].
Qed.

Lemma sum_list_snoc l n : sum_list (l ++ [n]) = sum_list l + n.
Proof. unfold sum_list. induction l as [|x l IH]; simpl; lia. Qed.

Lemma tally_balanced item_name file_size snap :
  has_categories snap.1 → balanced snap → balanced (tally item_name file_size snap).
Proof.
  intros Hcat [Hcount Hsize]. destruct file_size as [n|]; [|done].
  destruct (Hcat item_name) as [s Hs]. unfold tally, balanced; simpl.
  rewrite Hs; simpl.
  rewrite !(sum_over_insert _ _ _ s) by done. simpl.
  rewrite length_app, sum_list_snoc. simpl. lia.
Qed.

Lemma organize_loop_balanced dry_run all_items st :
  has_categories (analytics_data st) → balanced (snapshot st) →
  balanced (snapshot (flow_state (organize_loop dry_run all_items st).2)).
Proof.
  revert st. induction all_items as [|x rest IH]; intros st Hcat Hbal; simpl; [done|].
  destruct (organize_item_snapshot dry_run x st Hcat) as (st1 & Hst1 & Hsnap).
  destruct (organize_item dry_run x st) as [lines r]; simpl in Hst1; subst r.
  assert (Hcat1 : has_categories (analytics_data st1)).
  { change (analytics_data st1) with (snapshot st1).1. rewrite Hsnap.
    by apply tally_has_categories. }
  assert (Hbal1 : balanced (snapshot st1)).
  { rewrite Hsnap. by apply tally_balanced. }
  specialize (IH st1 Hcat1 Hbal1).
  by destruct (organize_loop dry_run rest st1) as [lines' r].
Qed.

Lemma initial_analytics_balanced : balanced (initial_analytics, []).
Proof. split; reflexivity. Qed.

(** C9. After a run, dry or real, the counts of the categories add up to
    the length of the flat size list and their sizes to its sum. *)
Theorem snapshot_balanced (actions : list move_action) (target : node)
    (listing : option (list string)) (dry_run : bool) :
  let r := result (organize_directory actions target listing dry_run) in
  sum_over file_count (analytics_data r) = Z.of_nat (length (all_file_sizes r))
  ∧ sum_over total_size (analytics_data r) = sum_list (all_file_sizes r).
Proof.
  unfold organize_directory.
  destruct (os_listdir target listing) as [all_items|];
    [|exact initial_analytics_balanced].
  match goal with |- context [organize_loop dry_run all_items ?st0] =>
    pose proof (organize_loop_balanced dry_run all_items st0
                  initial_analytics_has_categories initial_analytics_balanced) as H;
    destruct (organize_loop dry_run all_items st0) as [lines [st|st]] end; exact H.
Qed.

(** * The effect of a real run on the entries of the directory *)

Lemma steady_refl o : steady o o.
Proof. destruct o as [[]|]; simpl; eauto. Qed.

Lemma steady_trans o1 o2 o3 : steady o1 o2 → steady o2 o3 → steady o1 o3.
Proof.
  destruct o1 as [[]|]; simpl.
  - by intros ->.
  - intros [ch ->]. done.
  - by intros ->.
  - intros [->|[ch ->]]; simpl; eauto.
Qed.

Lemma steady_file_at (m m' : gmap string node) k :
  steady (m !! k) (m' !! k) → file_at [k] (Dir m') = file_at [k] (Dir m).
Proof.
  unfold file_at; simpl. destruct (m !! k) as [[]|]; simpl.
  - by intros ->.
  - by intros [ch ->].
  - by intros ->.
  - by intros [->|[ch ->]].
Qed.

Lemma os_makedirs_dir p w w1 :
  os_makedirs p w = Some w1 → ∃ ch ch1, w = Dir ch ∧ w1 = Dir ch1.
Proof.
  destruct w as [|ch|]; try by destruct p.
  destruct p as [|k p]; simpl.
  - intros [= <-]. eauto.
  - destruct (os_makedirs p _); intros [= <-]. eauto.
Qed.

Lemma os_makedirs_top c p (m : gmap string node) w1 :
  os_makedirs (c :: p) (Dir m) = Some w1 →
  ∃ cn, w1 = Dir (<[c := Dir cn]> m)
        ∧ (m !! c = None ∨ ∃ ch, m !! c = Some (Dir ch)).
Proof.
  simpl. destruct (os_makedirs p _) as [c1|] eqn:Hc; intros [= <-].
  apply os_makedirs_dir in Hc as (ch & ch1 & Hch & ->).
  exists ch1. split; [done|].
  destruct (m !! c) as [cn|]; simpl in Hch; [right|by left]. subst. eauto.
Qed.

Lemma os_makedirs_steady p (m : gmap string node) m1 k :
  os_makedirs p (Dir m) = Some (Dir m1) → steady (m !! k) (m1 !! k).
Proof.
  destruct p as [|c p]; [intros [= <-]; apply steady_refl|].
  intros H. apply os_makedirs_top in H as (cn & [= ->] & Hc).
  destruct (decide (c = k)) as [->|Hne].
  - rewrite lookup_insert_eq. destruct Hc as [->|[ch ->]]; simpl; eauto.
  - rewrite lookup_insert_ne by done. apply steady_refl.
Qed.

Lemma insert_path_dir p v ch : ∃ ch', insert_path p v (Dir ch) = Dir ch'.
Proof. destruct p as [|k [|k' p]]; simpl; eauto. destruct (ch !! k); eauto. Qed.

(** Writing below an entry of the directory leaves the other entries
    alone and does not change what kind of entry it is. *)
Lemma insert_path_deep_steady c c' p v (m : gmap string node) :
  ∃ m', insert_path (c :: c' :: p) v (Dir m) = Dir m'
        ∧ (∀ k, steady (m !! k) (m' !! k))
        ∧ (∀ k, m !! k = None → m' !! k = None).
Proof.
  simpl. destruct (m !! c) as [cn|] eqn:Hc;
    [|eexists; split; [done|split; [intros; apply steady_refl|done]]].
  eexists; split; [done|]. split; intros k.
  - destruct (decide (c = k)) as [->|Hne].
    + rewrite lookup_insert_eq, Hc. destruct cn as [data|ch|]; simpl; try done.
      destruct (insert_path_dir (c' :: p) v ch) as [ch' Hch'].
      simpl in Hch'. rewrite Hch'. eauto.
    + rewrite lookup_insert_ne by done. apply steady_refl.
  - intros Hk. rewrite lookup_insert_ne; [done|]. intros ->. congruence.
Qed.

Lemma os_rename_Some src dst w w2 :
  os_rename src dst w = Some w2 →
  (src = dst ∧ w2 = w)
  ∨ (src ≠ dst ∧ ∃ s, lookup_path src w = Some s
                      ∧ w2 = insert_path dst s (remove_path src w)).
Proof.
  unfold os_rename. destruct (lookup_path src w) as [s|]; [|done].
  case_bool_decide; [intros [= <-]; by left|].
  repeat case_match; intros [= <-]; eauto.
Qed.

Lemma shutil_move_Moved_to src dst w w2 :
  shutil_move src dst w = Moved_to w2 →
  ∃ real_dst w',
    (real_dst = dst ∨ real_dst = dst ++ [basename src])
    ∧ (w' = w ∨ os_makedirs (dirname real_dst) w = Some w')
    ∧ os_rename src real_dst w' = Some w2.
Proof.
  unfold shutil_move.
  repeat case_match; intros [= <-]; subst; eauto 10.
Qed.

(** Moving an entry of the directory to a place at least two levels down
    leaves every other entry steady. *)
Lemma shutil_move_top_steady item c (m : gmap string node) w2 :
  shutil_move [item] [c; item] (Dir m) = Moved_to w2 →
  ∃ m2, w2 = Dir m2
        ∧ (∀ k, k ≠ item → steady (m !! k) (m2 !! k))
        ∧ m2 !! item = None.
Proof.
  intros Hmove.
  apply shutil_move_Moved_to in Hmove as (real_dst & w' & Hdst & Hw' & Hren).
  assert (∃ c' p, real_dst = c :: c' :: p) as (c' & p & ->).
  { destruct Hdst as [->| ->]; simpl; eauto. }
  assert (∃ m1, w' = Dir m1 ∧ ∀ k, steady (m !! k) (m1 !! k)) as (m1 & -> & Hst1).
  { destruct Hw' as [->|Hmk]; [eexists; split; [done|intros; apply steady_refl]|].
    pose proof Hmk as Hd. apply os_makedirs_dir in Hd as (ch & ch1 & [= <-] & ->).
    eexists; split; [done|]. intros k. by eapply os_makedirs_steady. }
  apply os_rename_Some in Hren as [[? _]|(_ & s & _ & ->)]; [done|].
  destruct (insert_path_deep_steady c c' p s (delete item m1))
    as (m2 & Hm2 & Hst3 & Hnone).
  exists m2. split; [done|]. split.
  - intros k Hne. eapply steady_trans; [apply Hst1|]. specialize (Hst3 k).
    by rewrite lookup_delete_ne in Hst3.
  - apply Hnone, lookup_delete_eq.
Qed.

(** A step of a real run keeps the directory a directory and every entry
    other than the one it handles steady. *)
Lemma organize_item_steady item_name st (m : gmap string node) :
  fs st = Dir m →
  ∃ m', fs (flow_state (organize_item false item_name st).2) = Dir m'
        ∧ ∀ k, k ≠ item_name → steady (m !! k) (m' !! k).
Proof.
  intros Hfs. unfold organize_item. cbv zeta.
  assert (Hsame : ∃ m', fs st = Dir m' ∧ ∀ k, k ≠ item_name → steady (m !! k) (m' !! k))
    by (exists m; split; [done|intros; apply steady_refl]).
  repeat case_match; simpl; try exact Hsame.
  all: match goal with H : os_makedirs _ _ = Some ?w1 |- _ =>
         rewrite Hfs in H; pose proof H as Hd;
         apply os_makedirs_dir in Hd as (? & m1 & _ & ->);
         pose proof (λ k, os_makedirs_steady _ _ _ k H) as Hst1 end.
  2,3: by eexists.
  match goal with H : shutil_move _ _ _ = Moved_to _ |- _ =>
    apply shutil_move_top_steady in H as (m2 & -> & Hst2 & _) end.
  eexists; split; [done|]. eauto using steady_trans.
Qed.

(** * Dry run against real run *)

Lemma analysed_file_at item_name w :
  analysed item_name w =
  if bool_decide (item_name ∈ reserved_names) then None
  else (λ data, Z.of_nat (length data)) <$> file_at [item_name] w.
Proof.
  unfold analysed, os_path_isdir, os_path_getsize, file_at.
  case_bool_decide; [done|].
  by destruct (lookup_path [item_name] w) as [[]|].
Qed.

Lemma organize_loop_dry_real all_items :
  ∀ std str (m : gmap string node) m',
    NoDup all_items →
    fs std = Dir m → fs str = Dir m' →
    (∀ k, k ∈ all_items → steady (m !! k) (m' !! k)) →
    has_categories (analytics_data std) →
    snapshot std = snapshot str →
    snapshot (flow_state (organize_loop true all_items std).2)
    = snapshot (flow_state (organize_loop false all_items str).2).
Proof.
  induction all_items as [|x rest IH]; intros std str m m' Hnd Hd Hr Hst Hcat Hsnap;
    simpl; [done|].
  apply NoDup_cons in Hnd as [Hx Hnd].
  assert (Hcat' : has_categories (analytics_data str)).
  { change (analytics_data str) with (snapshot str).1. by rewrite <- Hsnap. }
  destruct (organize_item_snapshot true x std Hcat) as (std1 & Hstd1 & Hsnapd).
  destruct (organize_item_snapshot false x str Hcat') as (str1 & Hstr1 & Hsnapr).
  pose proof (organize_item_dry x std) as [Hfsd _].
  destruct (organize_item_steady x str m' Hr) as (m1 & Hm1 & Hsteps).
  destruct (organize_item true x std) as [lines_d rd];
    destruct (organize_item false x str) as [lines_r rr]; simpl in *; subst rd rr.
  simpl in *.
  assert (Hsnap1 : snapshot std1 = snapshot str1).
  { rewrite Hsnapd, Hsnapr, Hsnap, Hd, Hr, !analysed_file_at.
    by rewrite (steady_file_at m m' x) by (apply Hst; left). }
  assert (Hcat1 : has_categories (analytics_data std1)).
  { change (analytics_data std1) with (snapshot std1).1. rewrite Hsnapd.
    by apply tally_has_categories. }
  specialize (IH std1 str1 m m1 Hnd).
  destruct (organize_loop true rest std1) as [ld rd];
    destruct (organize_loop false rest str1) as [lr rr]; simpl in *.
  apply IH; try done.
  - congruence.
  - intros k Hk. assert (k ≠ x) as Hne by (intros ->; done).
    eapply steady_trans; [apply Hst; by right|by apply Hsteps].
Qed.

(** On a tree a dry run leaves the directory as it was, and its snapshot is
    the one the real run computes from the same directory and listing. *)
Lemma dry_run_snapshot_tree (actions : list move_action) (target : node)
    (listing : list string) :
  NoDup listing →
  let dry := result (organize_directory actions target (Some listing) true) in
  let real := result (organize_directory actions target (Some listing) false) in
  fs dry = target
  ∧ analytics_data dry = analytics_data real
  ∧ all_file_sizes dry = all_file_sizes real.
Proof.
  intros Hnd. split; [apply organize_directory_dry|].
  unfold organize_directory. destruct target as [data|m|]; simpl; try done.
  match goal with
  | |- context [organize_loop true listing ?sd] =>
      match goal with
      | |- context [organize_loop false listing ?sr] =>
          pose proof (organize_loop_dry_real listing sd sr m m Hnd eq_refl eq_refl
                        (λ k _, steady_refl _) initial_analytics_has_categories
                        eq_refl) as H;
          destruct (organize_loop true listing sd) as [ld [sd'|sd']];
          destruct (organize_loop false listing sr) as [lr [sr'|sr']]
      end
  end; simpl in *; by injection H.
Qed.

Lemma os_path_isdir_exists p w : os_path_isdir p w = true → os_path_exists p w = true.
Proof. unfold os_path_isdir, os_path_exists. by repeat case_match. Qed.

(** ** Without links the organizer is the one of the tree *)

Lemma readlink_link_free W p : link_free W → Symlinks.readlink p W = None.
Proof. intros Hfree. unfold Symlinks.readlink. rewrite Hfree. by repeat case_match. Qed.

Lemma resolve_link_free n W follow d rest :
  link_free W → Symlinks.resolve n W follow d rest = Some (d ++ rest).
Proof.
  intros Hfree. revert d.
  induction rest as [|k rest IH]; intros d; destruct n; simpl.
  1,2: by rewrite app_nil_r.
  all: rewrite readlink_link_free by done.
  all: specialize (IH (d ++ [k])); simpl in IH; rewrite <- app_assoc in IH; exact IH.
Qed.

Lemma stat_link_free W p : link_free W → Symlinks.stat p W = lookup_path p (Symlinks.tree W).
Proof.
  intros Hfree. unfold Symlinks.stat, Symlinks.realpath. by rewrite resolve_link_free.
Qed.

Lemma lstat_link_free W p : link_free W → Symlinks.lstat p W = lookup_path p (Symlinks.tree W).
Proof.
  intros Hfree. unfold Symlinks.lstat, Symlinks.entrypath. by rewrite resolve_link_free.
Qed.

Lemma os_path_isdir_link_free W p :
  link_free W → Symlinks.os_path_isdir p W = os_path_isdir p (Symlinks.tree W).
Proof. intros Hfree. unfold Symlinks.os_path_isdir. by rewrite stat_link_free. Qed.

Lemma os_path_exists_link_free W p :
  link_free W → Symlinks.os_path_exists p W = os_path_exists p (Symlinks.tree W).
Proof. intros Hfree. unfold Symlinks.os_path_exists. by rewrite stat_link_free. Qed.

Lemma os_path_getsize_link_free W p :
  link_free W → Symlinks.os_path_getsize p W = os_path_getsize p (Symlinks.tree W).
Proof. intros Hfree. unfold Symlinks.os_path_getsize. by rewrite stat_link_free. Qed.

Lemma os_makedirs_link_free W p :
  link_free W →
  Symlinks.os_makedirs p W = Symlinks.with_tree W <$> os_makedirs p (Symlinks.tree W).
Proof.
  intros Hfree. unfold Symlinks.os_makedirs, Symlinks.realpath.
  by rewrite resolve_link_free.
Qed.

Lemma rekey_link_free W src dst :
  link_free W →
  ∀ t, link_free {| Symlinks.tree := t;
                    Symlinks.links := Symlinks.rekey src dst (Symlinks.links W) |}.
Proof.
  intros Hfree t p. simpl. unfold Symlinks.rekey. by repeat case_bool_decide.
Qed.

Lemma os_rename_link_free W src dst :
  link_free W →
  match Symlinks.os_rename src dst W with
  | Some W' => os_rename src dst (Symlinks.tree W) = Some (Symlinks.tree W') ∧ link_free W'
  | None => os_rename src dst (Symlinks.tree W) = None
  end.
Proof.
  intros Hfree. unfold Symlinks.os_rename, Symlinks.entrypath.
  rewrite !resolve_link_free by done. simpl.
  destruct (os_rename src dst (Symlinks.tree W)) as [t|]; [|done].
  split; [done|]. by apply rekey_link_free.
Qed.

Lemma samefile_link_free W src dst :
  link_free W → os_path_isdir dst (Symlinks.tree W) = true →
  Symlinks.samefile src dst W = bool_decide (src = dst).
Proof.
  intros Hfree Hdir. unfold Symlinks.samefile, Symlinks.realpath.
  rewrite !resolve_link_free by done. simpl.
  case_bool_decide as Heq; [|done]. subst dst. simpl. by apply os_path_isdir_exists.
Qed.

Lemma with_tree_link_free W t : link_free W → link_free (Symlinks.with_tree W t).
Proof. intros Hfree p. exact (Hfree p). Qed.

Lemma shutil_move_link_free W src dst :
  link_free W →
  move_agrees (Symlinks.shutil_move src dst W) (shutil_move src dst (Symlinks.tree W)).
Proof.
  intros Hfree. unfold Symlinks.shutil_move, shutil_move.
  assert (Hcopy : ∀ real_dst,
    move_agrees
      match Symlinks.os_rename src real_dst W with
      | Some W' => Symlinks.Moved_to W'
      | None =>
          match Symlinks.lstat src W with
          | Some (Dir _) =>
              if bool_decide (src `prefix_of` dst) then Symlinks.Shutil_Error
              else
                match Symlinks.os_makedirs (dirname real_dst) W with
                | Some W1 =>
                    match Symlinks.lstat real_dst W1 with
                    | None =>
                        match Symlinks.os_rename src real_dst W1 with
                        | Some W' => Symlinks.Moved_to W'
                        | None => Symlinks.OS_Error
                        end
                    | Some _ => Symlinks.OS_Error
                    end
                | None => Symlinks.OS_Error
                end
          | _ => Symlinks.OS_Error
          end
      end
      match os_rename src real_dst (Symlinks.tree W) with
      | Some w' => Moved_to w'
      | None =>
          match lookup_path src (Symlinks.tree W) with
          | Some (Dir _) =>
              if bool_decide (src `prefix_of` dst) then Shutil_Error
              else
                match os_makedirs (dirname real_dst) (Symlinks.tree W) with
                | Some w1 =>
                    match lookup_path real_dst w1 with
                    | None =>
                        match os_rename src real_dst w1 with
                        | Some w' => Moved_to w'
                        | None => OS_Error
                        end
                    | Some _ => OS_Error
                    end
                | None => OS_Error
                end
          | _ => OS_Error
          end
      end).
  { intros real_dst.
    pose proof (os_rename_link_free W src real_dst Hfree) as Hren.
    destruct (Symlinks.os_rename src real_dst W) as [W'|].
    { destruct Hren as [-> ?]. by split. }
    rewrite Hren, lstat_link_free by done.
    destruct (lookup_path src (Symlinks.tree W)) as [[| |]|]; try done.
    case_bool_decide; [done|].
    rewrite os_makedirs_link_free by done.
    destruct (os_makedirs (dirname real_dst) (Symlinks.tree W)) as [w1|]; [|done].
    simpl. rewrite lstat_link_free by (by apply with_tree_link_free). simpl.
    destruct (lookup_path real_dst w1); [done|].
    pose proof (os_rename_link_free (Symlinks.with_tree W w1) src real_dst
                  (with_tree_link_free W w1 Hfree)) as Hren1.
    destruct (Symlinks.os_rename src real_dst (Symlinks.with_tree W w1)) as [W'|].
    - simpl in Hren1. destruct Hren1 as [-> ?]. by split.
    - simpl in Hren1. by rewrite Hren1. }
  rewrite os_path_isdir_link_free by done.
  destruct (os_path_isdir dst (Symlinks.tree W)) eqn:Hdir; [|apply Hcopy].
  rewrite samefile_link_free by done.
  clear Hdir. destruct (bool_decide (src = dst)).
  - pose proof (os_rename_link_free W src dst Hfree) as Hren.
    destruct (Symlinks.os_rename src dst W) as [W'|].
    + destruct Hren as [-> ?]. by split.
    + by rewrite Hren.
  - rewrite os_path_exists_link_free by done.
    destruct (os_path_exists _ _); [done|apply Hcopy].
Qed.

Lemma organize_item_link_free dry_run item_name st :
  link_free (Symlinks.fs st) →
  let r := Symlinks.organize_item dry_run item_name st in
  (r.1, tree_flow r.2) = organize_item dry_run item_name (tree_state st)
  ∧ link_free (flow_world r.2).
Proof.
  intros Hfree. unfold Symlinks.organize_item, organize_item. cbv zeta.
  cbn [tree_state fs last_move_actions analytics_data files_processed_count all_file_sizes].
  case_bool_decide; [done|].
  rewrite os_path_isdir_link_free, os_path_getsize_link_free by done.
  destruct (os_path_isdir [item_name] (Symlinks.tree (Symlinks.fs st))); [done|].
  destruct (os_path_getsize [item_name] (Symlinks.tree (Symlinks.fs st)))
    as [file_size|]; [|done].
  destruct (Symlinks.analytics_data st !! _) as [s|]; [|done].
  destruct dry_run; [done|].
  rewrite os_makedirs_link_free by done.
  destruct (os_makedirs _ (Symlinks.tree (Symlinks.fs st))) as [w1|]; [|done].
  cbn [fmap option_fmap option_map].
  pose proof (shutil_move_link_free (Symlinks.with_tree (Symlinks.fs st) w1)
                [item_name] [classify FILE_TYPE_MAP (lower (splitext item_name).2) "Others";
                             item_name]
                (with_tree_link_free _ w1 Hfree)) as Hmove.
  cbn [Symlinks.with_tree Symlinks.tree] in Hmove.
  destruct (Symlinks.shutil_move _ _ _) as [W2| |];
    destruct (shutil_move _ _ w1) as [w2| |]; try done.
  destruct Hmove as [<- ?]. done.
Qed.

Lemma organize_loop_link_free dry_run all_items st :
  link_free (Symlinks.fs st) →
  let r := Symlinks.organize_loop dry_run all_items st in
  (r.1, tree_flow r.2) = organize_loop dry_run all_items (tree_state st)
  ∧ link_free (flow_world r.2).
Proof.
  revert st. induction all_items as [|x rest IH]; intros st Hfree; [done|].
  cbn [Symlinks.organize_loop organize_loop].
  destruct (organize_item_link_free dry_run x st Hfree) as [Hitem Hfree1].
  destruct (Symlinks.organize_item dry_run x st) as [lines [st1|st1]];
    simpl in Hitem, Hfree1; rewrite <- Hitem; [|done].
  destruct (IH st1 Hfree1) as [Hloop Hfree2].
  destruct (Symlinks.organize_loop dry_run rest st1) as [lines' r].
  simpl in Hloop, Hfree2. rewrite <- Hloop. done.
Qed.

Lemma organize_directory_link_free actions W listing dry_run :
  link_free W →
  let o := Symlinks.organize_directory actions W listing dry_run in
  let o' := organize_directory actions (Symlinks.tree W) listing dry_run in
  tree_state (Symlinks.result o) = result o' ∧ Symlinks.log o = log o'.
Proof.
  intros Hfree. unfold Symlinks.organize_directory, organize_directory, Symlinks.os_listdir.
  cbv zeta. destruct (os_listdir (Symlinks.tree W) listing) as [all_items|]; [|done].
  match goal with |- context [Symlinks.organize_loop dry_run all_items ?st0] =>
    destruct (organize_loop_link_free dry_run all_items st0 Hfree) as [Hloop _];
    unfold tree_state in Hloop;
    cbn [Symlinks.fs Symlinks.last_move_actions Symlinks.analytics_data
         Symlinks.files_processed_count Symlinks.all_file_sizes] in Hloop;
    destruct (Symlinks.organize_loop dry_run all_items st0) as [lines [st|st]] end;
    cbn [fst snd tree_flow] in Hloop; rewrite <- Hloop; done.
Qed.

(** ** A dry run touches no directory, with links or without *)

Lemma symlinks_organize_item_dry item_name st :
  flow_world (Symlinks.organize_item true item_name st).2 = Symlinks.fs st.
Proof. unfold Symlinks.organize_item. by repeat case_match. Qed.

Lemma symlinks_organize_loop_dry all_items st :
  flow_world (Symlinks.organize_loop true all_items st).2 = Symlinks.fs st.
Proof.
  revert st. induction all_items as [|x rest IH]; intros st; [done|].
  cbn [Symlinks.organize_loop].
  pose proof (symlinks_organize_item_dry x st) as Hx.
  destruct (Symlinks.organize_item true x st) as [lines [st1|st1]]; [|done].
  specialize (IH st1). destruct (Symlinks.organize_loop true rest st1) as [lines' r].
  simpl in *. congruence.
Qed.

Lemma symlinks_organize_directory_dry actions W listing :
  Symlinks.fs (Symlinks.result (Symlinks.organize_directory actions W listing true)) = W.
Proof.
  unfold Symlinks.organize_directory.
  destruct (Symlinks.os_listdir W listing) as [all_items|]; [|done].
  match goal with |- context [Symlinks.organize_loop true all_items ?st0] =>
    pose proof (symlinks_organize_loop_dry all_items st0) as H;
    destruct (Symlinks.organize_loop true all_items st0) as [lines [st|st]] end;
    exact H.
Qed.

(** C3, amended. A dry run leaves the directory as it was, whatever it
    holds. When the directory holds no symbolic link, links to something
    outside it that does not exist apart, the snapshot of the dry run
    (per-category counts and sizes, flat size list) is the one the real run
    computes from the same directory and listing. *)
Theorem dry_run_snapshot (actions : list move_action) (W : Symlinks.world)
    (listing : option (list string)) :
  let dry := Symlinks.result (Symlinks.organize_directory actions W listing true) in
  let real := Symlinks.result (Symlinks.organize_directory actions W listing false) in
  Symlinks.fs dry = W
  ∧ (link_free W → (∀ names, listing = Some names → NoDup names) →
     Symlinks.analytics_data dry = Symlinks.analytics_data real
     ∧ Symlinks.all_file_sizes dry = Symlinks.all_file_sizes real).
Proof.
  cbv zeta. split; [apply symlinks_organize_directory_dry|].
  intros Hfree Hnd.
  destruct (organize_directory_link_free actions W listing true Hfree) as [Hdry _].
  destruct (organize_directory_link_free actions W listing false Hfree) as [Hreal _].
  cbv zeta in Hdry, Hreal.
  change (Symlinks.analytics_data ?st) with (analytics_data (tree_state st)).
  change (Symlinks.all_file_sizes ?st) with (all_file_sizes (tree_state st)).
  rewrite Hdry, Hreal.
  destruct listing as [names|].
  - by apply (dry_run_snapshot_tree actions (Symlinks.tree W) names), Hnd.
  - unfold organize_directory. by destruct (Symlinks.tree W).
Qed.

Lemma dry_run_snapshot_witness :
  link_free (without_links (Dir with_dangling_link))
  ∧ (∀ names, Some ["a.jpg"; "link"] = Some names → NoDup names)
  ∧ Symlinks.analytics_data
      (Symlinks.result (Symlinks.organize_directory []
         (without_links (Dir with_dangling_link)) (Some ["a.jpg"; "link"]) true))
    = Symlinks.analytics_data
        (Symlinks.result (Symlinks.organize_directory []
           (without_links (Dir with_dangling_link)) (Some ["a.jpg"; "link"]) false)).
Proof.
  assert (H1 : link_free (without_links (Dir with_dangling_link))) by (intros p; exact eq_refl).
  assert (H2 : ∀ names, Some ["a.jpg"; "link"] = Some names → NoDup names).
  { intros names [= <-]. apply (bool_decide_unpack _). vm_compute. exact I. }
  split; [exact H1|]. split; [exact H2|].
  exact (proj1 (proj2 (dry_run_snapshot [] (without_links (Dir with_dangling_link))
                         (Some ["a.jpg"; "link"])) H1 H2)).
Defined.

(** C3 as stated fails. [os.path.getsize] follows symbolic links: with
    b.txt a link to a.txt, the dry run counts both entries, while the real
    run has moved a.txt away when it comes to b.txt, warns about it and
    counts one file. *)
Lemma dry_run_snapshot_with_link :
  let listing := Some ["a.txt"; "b.txt"] in
  let dry := Symlinks.organize_directory [] file_and_link listing true in
  let real := Symlinks.organize_directory [] file_and_link listing false in
  lists (Symlinks.tree file_and_link) ["a.txt"; "b.txt"]
  ∧ Symlinks.os_path_getsize ["b.txt"] file_and_link = Some 3
  ∧ Symlinks.all_file_sizes (Symlinks.result dry) = [3; 3]
  ∧ Symlinks.all_file_sizes (Symlinks.result real) = [3]
  ∧ Symlinks.analytics_data (Symlinks.result dry) !! "Documents"
    = Some {| file_count := 2; total_size := 6 |}
  ∧ Symlinks.analytics_data (Symlinks.result real) !! "Documents"
    = Some {| file_count := 1; total_size := 3 |}
  ∧ Symlinks.log real
    = [(info, Starting false); (info, Moved "a.txt" "Documents");
       (warning, CouldNotAnalyze "b.txt"); (info, OrganizationComplete false)]
  ∧ Symlinks.analytics_data (Symlinks.result dry)
    ≠ Symlinks.analytics_data (Symlinks.result real).
Proof.
  cbv zeta.
  assert (Hd : Symlinks.analytics_data
                 (Symlinks.result (Symlinks.organize_directory [] file_and_link
                                     (Some ["a.txt"; "b.txt"]) true)) !! "Documents"
               = Some {| file_count := 2; total_size := 6 |})
    by (vm_compute; exact eq_refl).
  assert (Hr : Symlinks.analytics_data
                 (Symlinks.result (Symlinks.organize_directory [] file_and_link
                                     (Some ["a.txt"; "b.txt"]) false)) !! "Documents"
               = Some {| file_count := 1; total_size := 3 |})
    by (vm_compute; exact eq_refl).
  split; [apply (bool_decide_unpack _); vm_compute; exact I|].
  repeat split; try (vm_compute; exact eq_refl); try assumption.
  intros Heq. rewrite Heq, Hr in Hd. discriminate.
Qed.

(** * Entries whose size cannot be read *)

Lemma organize_loop_steady dry_run all_items :
  ∀ st (m : gmap string node),
    fs st = Dir m →
    ∃ m', fs (flow_state (organize_loop dry_run all_items st).2) = Dir m'
          ∧ ∀ k, k ∉ all_items → steady (m !! k) (m' !! k).
Proof.
  destruct dry_run.
  { intros st m Hfs. exists m. rewrite (proj1 (organize_loop_dry all_items st)).
    split; [done|]. intros; apply steady_refl. }
  induction all_items as [|x rest IH]; intros st m Hfs; simpl.
  { exists m. split; [done|]. intros; apply steady_refl. }
  destruct (organize_item_steady x st m Hfs) as (m1 & Hm1 & Hst1).
  destruct (organize_item false x st) as [lines [st1|st1]]; simpl in *.
  - destruct (IH st1 m1 Hm1) as (m' & Hm' & Hst').
    destruct (organize_loop false rest st1) as [lines' r]; simpl in *.
    exists m'. split; [done|]. intros k Hk.
    apply not_elem_of_cons in Hk as [Hne Hk]. eauto using steady_trans.
  - exists m1. split; [done|]. intros k Hk.
    apply not_elem_of_cons in Hk as [Hne Hk]. eauto.
Qed.

Lemma organize_item_unreadable dry_run item_name st :
  item_name ∉ reserved_names →
  lookup_path [item_name] (fs st) = Some Broken →
  organize_item dry_run item_name st = ([(warning, CouldNotAnalyze item_name)], Next st).
Proof.
  intros Hres Hx. unfold organize_item, os_path_isdir, os_path_getsize.
  by rewrite bool_decide_eq_false_2, Hx.
Qed.

(** C6. An entry whose size cannot be read costs the run one warning and
    nothing else: directory, action log, snapshot and count end as in the
    run that is not shown the entry, the entry stays where it is, and the
    run goes on to its completion line. *)
Theorem unreadable_entry_skipped (actions : list move_action) (m : gmap string node)
    (before after : list string) (item_name : string) (dry_run : bool) :
  NoDup (before ++ item_name :: after) →
  item_name ∉ reserved_names →
  is_Some (m !! item_name) →
  os_path_isdir [item_name] (Dir m) = false →
  os_path_getsize [item_name] (Dir m) = None →
  let r := organize_directory actions (Dir m) (Some (before ++ item_name :: after)) dry_run in
  let r' := organize_directory actions (Dir m) (Some (before ++ after)) dry_run in
  result r = result r'
  ∧ (∃ l1 l2, log r' = l1 ++ l2
              ∧ log r = l1 ++ (warning, CouldNotAnalyze item_name) :: l2)
  ∧ last (log r) = Some (info, OrganizationComplete dry_run)
  ∧ lookup_path [item_name] (fs (result r)) = m !! item_name.
Proof.
  intros Hnd Hres [v Hv] Hdir Hsize.
  assert (v = Broken) as ->.
  { unfold os_path_isdir, os_path_getsize in *; simpl in *. rewrite Hv in *.
    by destruct v. }
  apply NoDup_app in Hnd as (_ & Hbefore & Hnd). apply NoDup_cons in Hnd as [Hafter _].
  assert (Hx : item_name ∉ before) by (intros Hin; apply (Hbefore _ Hin); left).
  unfold organize_directory; simpl.
  set (st0 := {| fs := Dir m; last_move_actions := if dry_run then actions else [];
                 analytics_data := initial_analytics; files_processed_count := 0;
                 all_file_sizes := [] |}).
  rewrite !organize_loop_app.
  destruct (organize_loop_next dry_run before st0 initial_analytics_has_categories)
    as (st1 & Hst1 & Hcat1).
  destruct (organize_loop_steady dry_run before st0 m eq_refl) as (m1 & Hm1 & Hsteady).
  destruct (organize_loop dry_run before st0) as [lines1 r1]; simpl in *; subst r1.
  simpl in Hm1.
  assert (Hx1 : m1 !! item_name = Some Broken).
  { specialize (Hsteady item_name Hx). by rewrite Hv in Hsteady. }
  rewrite organize_item_unreadable by (by rewrite ?Hm1; simpl; rewrite ?Hx1).
  destruct (organize_loop_next dry_run after st1 Hcat1) as (st2 & Hst2 & _).
  destruct (organize_loop_steady dry_run after st1 m1 Hm1) as (m2 & Hm2 & Hsteady2).
  destruct (organize_loop dry_run after st1) as [lines2 r2]; simpl in *; subst r2.
  simpl in *. split; [done|]. split; [|split].
  - exists ((info, Starting dry_run) :: lines1).
    eexists. split; [by rewrite <- app_assoc|]. by rewrite <- !app_assoc.
  - rewrite app_comm_cons, !app_assoc. apply last_snoc.
  - rewrite Hm2; simpl. specialize (Hsteady2 item_name Hafter).
    rewrite Hx1 in Hsteady2. simpl in Hsteady2. by rewrite Hsteady2, Hv.
Qed.

Lemma unreadable_entry_skipped_witness :
  NoDup (["a.jpg"] ++ ["link"])
  ∧ ("link" ∉ reserved_names)
  ∧ is_Some (with_dangling_link !! "link")
  ∧ os_path_isdir ["link"] (Dir with_dangling_link) = false
  ∧ os_path_getsize ["link"] (Dir with_dangling_link) = None
  ∧ result (organize_directory [] (Dir with_dangling_link) (Some (["a.jpg"] ++ ["link"])) false)
    = result (organize_directory [] (Dir with_dangling_link) (Some (["a.jpg"] ++ [])) false).
Proof.
  assert (H1 : NoDup (["a.jpg"] ++ ["link"]))
    by (apply (bool_decide_unpack _); vm_compute; exact I).
  assert (H2 : "link" ∉ reserved_names)
    by (apply (bool_decide_unpack _); vm_compute; exact I).
  assert (H3 : is_Some (with_dangling_link !! "link"))
    by (apply (bool_decide_unpack _); vm_compute; exact I).
  assert (H4 : os_path_isdir ["link"] (Dir with_dangling_link) = false)
    by (vm_compute; exact eq_refl).
  assert (H5 : os_path_getsize ["link"] (Dir with_dangling_link) = None)
    by (vm_compute; exact eq_refl).
  repeat (split; [assumption|]).
  exact (proj1 (unreadable_entry_skipped [] with_dangling_link ["a.jpg"] [] "link" false
                  H1 H2 H3 H4 H5)).
Defined.

(** * Moving a file *)

(** [shutil.move] of a regular file raises [shutil.Error] only when the
    destination path is a directory that already holds the file's name. *)
Lemma shutil_move_file_Error src dst w data :
  lookup_path src w = Some (File data) →
  shutil_move src dst w = Shutil_Error →
  os_path_isdir dst w = true ∧ os_path_exists (dst ++ [basename src]) w = true.
Proof.
  intros Hsrc. unfold shutil_move. rewrite Hsrc.
  destruct (os_path_isdir dst w); [|by repeat case_match].
  case_bool_decide; [by repeat case_match|].
  destruct (os_path_exists _ w); [done|by repeat case_match].
Qed.

(** The category folder is never the entry being moved. *)
Lemma os_makedirs_keeps_file c item (m : gmap string node) w1 data :
  m !! item = Some (File data) →
  os_makedirs [c] (Dir m) = Some w1 →
  lookup_path [item] w1 = Some (File data).
Proof.
  intros Hitem Hmk. apply os_makedirs_top in Hmk as (cn & -> & Hc). simpl.
  rewrite lookup_insert_ne, Hitem; [done|].
  intros ->. destruct Hc as [Hc|[ch Hc]]; congruence.
Qed.

(** The two ways out of [shutil.move] that the loop body tells apart. When
    it raises [shutil.Error], the body logs one warning, leaves the file
    where it was, records no action, does not count the file, and the loop
    goes on with the remaining entries; when it returns, the pair
    (destination, source) is appended to the action log and the file is
    counted. *)
Lemma move_collision_skipped (item_name : string) (rest : list string)
    (st : run_state) (m : gmap string node) (data : list Byte.byte) (w1 : node) :
  fs st = Dir m →
  item_name ∉ reserved_names →
  m !! item_name = Some (File data) →
  has_categories (analytics_data st) →
  os_makedirs [category_of item_name] (Dir m) = Some w1 →
  let category := category_of item_name in
  let final_dest_path := [category; item_name] in
  (shutil_move [item_name] final_dest_path w1 = Shutil_Error →
   ∃ st',
     organize_item false item_name st = ([(warning, CouldNotMove item_name)], Next st')
     ∧ os_path_exists final_dest_path (fs st') = true
     ∧ lookup_path [item_name] (fs st') = Some (File data)
     ∧ last_move_actions st' = last_move_actions st
     ∧ files_processed_count st' = files_processed_count st
     ∧ organize_loop false (item_name :: rest) st
       = (let '(lines, r) := organize_loop false rest st' in
          ((warning, CouldNotMove item_name) :: lines, r)))
  ∧ (∀ w2, shutil_move [item_name] final_dest_path w1 = Moved_to w2 →
     ∃ st',
       organize_item false item_name st = ([(info, Moved item_name category)], Next st')
       ∧ fs st' = w2
       ∧ last_move_actions st'
         = last_move_actions st ++ [(final_dest_path, [item_name])]
       ∧ files_processed_count st' = files_processed_count st + 1).
Proof.
  intros Hfs Hres Hitem Hcat Hmk. cbv zeta.
  set (category := category_of item_name) in *.
  set (final_dest_path := [category; item_name]).
  destruct (Hcat item_name) as [s Hs]. fold category in Hs.
  assert (Hstep : ∀ r, shutil_move [item_name] final_dest_path w1 = r →
            organize_item false item_name st =
            let after w actions processed :=
              Next {| fs := w; last_move_actions := actions;
                      analytics_data :=
                        <[category := add_file (Z.of_nat (length data)) s]>
                          (analytics_data st);
                      files_processed_count := processed;
                      all_file_sizes := all_file_sizes st ++ [Z.of_nat (length data)] |} in
            match r with
            | Moved_to w2 =>
                ([(info, Moved item_name category)],
                 after w2 (last_move_actions st ++ [(final_dest_path, [item_name])])
                   (files_processed_count st + 1))
            | Shutil_Error =>
                ([(warning, CouldNotMove item_name)],
                 after w1 (last_move_actions st) (files_processed_count st))
            | OS_Error =>
                ([(error, ErrorMoving item_name)],
                 after w1 (last_move_actions st) (files_processed_count st))
            end).
  { intros r Hr. unfold organize_item, os_path_isdir, os_path_getsize. cbv zeta.
    change (classify FILE_TYPE_MAP (lower (splitext item_name).2) "Others") with category.
    rewrite bool_decide_eq_false_2 by done. rewrite Hfs. simpl lookup_path.
    rewrite Hitem, Hs, Hmk.
    fold final_dest_path. by rewrite Hr. }
  split.
  - intros Herr. eexists. split; [exact (Hstep _ Herr)|]. simpl.
    pose proof (os_makedirs_keeps_file _ _ _ _ _ Hitem Hmk) as Hkept.
    destruct (shutil_move_file_Error _ _ _ _ Hkept Herr) as [Hdir _].
    repeat split; [by apply os_path_isdir_exists|done|].
    rewrite (Hstep _ Herr). simpl. by destruct (organize_loop false rest _).
  - intros w2 Hmoved. eexists. split; [exact (Hstep _ Hmoved)|]. done.
Qed.

Lemma move_collision_skipped_witness :
  shutil_move ["a.jpg"] ["Images"; "a.jpg"] (Dir taken_folder) = Shutil_Error
  ∧ ∃ st', organize_item false "a.jpg" collision_state
           = ([(warning, CouldNotMove "a.jpg")], Next st')
           ∧ lookup_path ["a.jpg"] (fs st') = Some (File [Byte.x01])
           ∧ last_move_actions st' = []
           ∧ files_processed_count st' = 0.
Proof.
  assert (Herr : shutil_move ["a.jpg"] ["Images"; "a.jpg"] (Dir taken_folder) = Shutil_Error)
    by (vm_compute; exact eq_refl).
  split; [exact Herr|].
  assert (H2 : "a.jpg" ∉ reserved_names)
    by (apply (bool_decide_unpack _); vm_compute; exact I).
  assert (H3 : taken_folder !! "a.jpg" = Some (File [Byte.x01]))
    by (vm_compute; exact eq_refl).
  assert (H5 : os_makedirs [category_of "a.jpg"] (Dir taken_folder) = Some (Dir taken_folder))
    by (vm_compute; exact eq_refl).
  destruct (proj1 (move_collision_skipped "a.jpg" [] collision_state taken_folder
                     [Byte.x01] (Dir taken_folder) eq_refl H2 H3
                     initial_analytics_has_categories H5) Herr)
    as (st' & Hstep & _ & Hkept & Hacts & Hcount & _).
  exists st'. repeat split; assumption.
Defined.

(** C2, on the code: a collision that is not skipped. [shutil.Error] is
    raised only when the destination is a directory that already holds the
    name. When the destination path exists as a regular file, as
    Images/a.jpg here, [os.rename] replaces it: the run logs a plain "Moved"
    line and no warning, the file has left its place, the pair is recorded
    and the file counted, and the data that was at the destination is
    gone. *)
Theorem existing_file_is_replaced :
  let r := organize_directory [] (Dir taken_name) (Some ["a.jpg"; "Images"]) false in
  os_path_exists ["Images"; "a.jpg"] (Dir taken_name) = true
  ∧ file_at ["Images"; "a.jpg"] (Dir taken_name) = Some [Byte.x02; Byte.x02]
  ∧ log r = [(info, Starting false); (info, Moved "a.jpg" "Images");
             (info, SkippingDirectory "Images"); (info, OrganizationComplete false)]
  ∧ lookup_path ["a.jpg"] (fs (result r)) = None
  ∧ file_at ["Images"; "a.jpg"] (fs (result r)) = Some [Byte.x01]
  ∧ last_move_actions (result r) = [(["Images"; "a.jpg"], ["a.jpg"])]
  ∧ files_processed_count (result r) = 1.
Proof. repeat split; vm_compute; exact eq_refl. Qed.

(** * The three-file scenario *)

Lemma scenario_listings photo notes archive listing :
  lists (scenario photo notes archive) listing →
  listing ∈ permutations ["photo.JPG"; "notes.txt"; "archive.unknownext"].
Proof.
  intros [Hnd Hdom]. apply permutations_Permutation. symmetry.
  apply NoDup_Permutation; [done| |].
  - apply (bool_decide_unpack _). by vm_compute.
  - intros x. rewrite <- (elem_of_list_to_set (C := gset string)), Hdom.
    rewrite !dom_insert_L, dom_empty_L. clear Hdom. set_solver.
Qed.

(** C8. The directory holding exactly photo.JPG (2048 bytes), notes.txt
    (100 bytes) and archive.unknownext (500 bytes), whatever their content
    and in whatever order they are listed: the real run moves them to
    Images/, Documents/ and Others/, counts one file of that size in each of
    the three categories and none elsewhere, and processes 3 files. *)
Theorem scenario_three_files (actions : list move_action)
    (photo notes archive : list Byte.byte) (listing : list string) :
  Z.of_nat (length photo) = 2048 →
  Z.of_nat (length notes) = 100 →
  Z.of_nat (length archive) = 500 →
  lists (scenario photo notes archive) listing →
  let r := result (organize_directory actions (scenario photo notes archive)
                     (Some listing) false) in
  fs r = Dir (<["Images" := Dir {["photo.JPG" := File photo]}]>
               (<["Documents" := Dir {["notes.txt" := File notes]}]>
                  (<["Others" := Dir {["archive.unknownext" := File archive]}]> ∅)))
  ∧ filtered_data (analytics_data r)
    = <["Images" := {| file_count := 1; total_size := 2048 |}]>
        (<["Documents" := {| file_count := 1; total_size := 100 |}]>
           (<["Others" := {| file_count := 1; total_size := 500 |}]> ∅))
  ∧ analytics_data r
    = <["Images" := {| file_count := 1; total_size := 2048 |}]>
        (<["Documents" := {| file_count := 1; total_size := 100 |}]>
           (<["Others" := {| file_count := 1; total_size := 500 |}]> initial_analytics))
  ∧ all_file_sizes r ≡ₚ [2048; 100; 500]
  ∧ files_processed_count r = 3.
Proof.
  intros Hphoto Hnotes Harchive Hlisting.
  apply scenario_listings in Hlisting. vm_compute in Hlisting.
  rewrite <- Hphoto, <- Hnotes, <- Harchive.
  repeat (apply elem_of_cons in Hlisting as [->|Hlisting]);
    [..|by apply elem_of_nil in Hlisting].
  all: repeat split; try (vm_compute; exact eq_refl).
  all: symmetry; apply permutations_Permutation; vm_compute.
  all: repeat first [apply list_elem_of_here | apply list_elem_of_further].
Qed.

Lemma scenario_three_files_witness :
  let photo := repeat Byte.x00 2048 in
  let notes := repeat Byte.x00 100 in
  let archive := repeat Byte.x00 500 in
  let listing := ["notes.txt"; "archive.unknownext"; "photo.JPG"] in
  Z.of_nat (length photo) = 2048
  ∧ Z.of_nat (length notes) = 100
  ∧ Z.of_nat (length archive) = 500
  ∧ lists (scenario photo notes archive) listing
  ∧ files_processed_count
      (result (organize_directory [] (scenario photo notes archive) (Some listing) false)) = 3.
Proof.
  intros photo notes archive listing.
  assert (H1 : Z.of_nat (length photo) = 2048) by (vm_compute; exact eq_refl).
  assert (H2 : Z.of_nat (length notes) = 100) by (vm_compute; exact eq_refl).
  assert (H3 : Z.of_nat (length archive) = 500) by (vm_compute; exact eq_refl).
  assert (H4 : lists (scenario photo notes archive) listing)
    by (apply (bool_decide_unpack _); vm_compute; exact I).
  repeat (split; [assumption|]).
  exact (proj2 (proj2 (proj2 (proj2
           (scenario_three_files [] photo notes archive listing H1 H2 H3 H4))))).
Defined.

(** * Running twice *)

Lemma quiet_app l1 l2 : quiet (l1 ++ l2) = quiet l1 && quiet l2.
Proof. apply forallb_app. Qed.

(** A step of a real run that logs neither warning nor error leaves its
    entry behind only when the name is reserved or names a directory. *)
Lemma organize_item_quiet item_name st (m m' : gmap string node) lines r :
  fs st = Dir m →
  has_categories (analytics_data st) →
  organize_item false item_name st = (lines, r) →
  quiet lines = true →
  fs (flow_state r) = Dir m' →
  item_name ∈ reserved_names ∨ (∃ ch, m' !! item_name = Some (Dir ch))
  ∨ m' !! item_name = None.
Proof.
  intros Hfs Hcat. unfold organize_item, os_path_isdir, os_path_getsize. cbv zeta.
  change (classify FILE_TYPE_MAP (lower (splitext item_name).2) "Others")
    with (category_of item_name).
  destruct (Hcat item_name) as [s ->].
  case_bool_decide; [by left|]. rewrite Hfs. simpl lookup_path.
  destruct (os_makedirs [category_of item_name] (Dir m)) as [w1|] eqn:Hmk.
  - pose proof Hmk as Hd. apply os_makedirs_dir in Hd as (? & m1 & _ & ->).
    destruct (shutil_move [item_name] [category_of item_name; item_name] (Dir m1))
      as [w2| |] eqn:Hmove.
    + apply shutil_move_top_steady in Hmove as (m2 & -> & _ & Hgone).
      destruct (m !! item_name) as [[data|ch|]|] eqn:Hitem;
        intros [= <- <-]; try done; simpl; intros _; rewrite ?Hfs;
        intros [= <-]; eauto.
    + destruct (m !! item_name) as [[data|ch|]|] eqn:Hitem;
        intros [= <- <-]; try done; simpl; intros _; rewrite ?Hfs;
        intros [= <-]; eauto.
    + destruct (m !! item_name) as [[data|ch|]|] eqn:Hitem;
        intros [= <- <-]; try done; simpl; intros _; rewrite ?Hfs;
        intros [= <-]; eauto.
  - destruct (m !! item_name) as [[data|ch|]|] eqn:Hitem;
      intros [= <- <-]; try done; simpl; intros _; rewrite ?Hfs;
      intros [= <-]; eauto.
Qed.

Lemma organize_item_settled item_name rest st (m : gmap string node) lines r :
  fs st = Dir m →
  has_categories (analytics_data st) →
  settled m (item_name :: rest) →
  organize_item false item_name st = (lines, r) →
  quiet lines = true →
  ∃ m', fs (flow_state r) = Dir m' ∧ settled m' rest.
Proof.
  intros Hfs Hcat Hset Hstep Hquiet.
  destruct (organize_item_steady item_name st m Hfs) as (m' & Hm' & Hsteady).
  rewrite Hstep in Hm'. simpl in Hm'. exists m'. split; [done|].
  intros k v Hk. destruct (decide (k = item_name)) as [->|Hne].
  - destruct (organize_item_quiet _ _ _ _ _ _ Hfs Hcat Hstep Hquiet Hm')
      as [?|[[ch Hch]|?]]; [auto| |congruence].
    right; right. exists ch. congruence.
  - specialize (Hsteady k Hne). rewrite Hk in Hsteady.
    destruct (m !! k) as [v0|] eqn:Hk0.
    + destruct (Hset k v0 Hk0) as [Hin|[?|[ch ->]]]; [|auto|].
      * apply elem_of_cons in Hin as [?|?]; [done|auto].
      * destruct Hsteady as [ch' [= ->]]. eauto.
    + destruct Hsteady as [?|[ch [= ->]]]; [done|eauto].
Qed.

Lemma organize_loop_settled all_items :
  ∀ st (m : gmap string node) lines r,
    fs st = Dir m →
    has_categories (analytics_data st) →
    settled m all_items →
    organize_loop false all_items st = (lines, r) →
    quiet lines = true →
    ∃ m', fs (flow_state r) = Dir m' ∧ settled m' [].
Proof.
  induction all_items as [|x rest IH]; intros st m lines r Hfs Hcat Hset; simpl.
  { intros [= <- <-] _. eauto. }
  destruct (organize_item_snapshot false x st Hcat) as (st1 & Hst1 & Hsnap).
  destruct (organize_item false x st) as [lines1 r1] eqn:Hstep.
  simpl in Hst1; subst r1.
  destruct (organize_loop false rest st1) as [lines2 r2] eqn:Hloop.
  intros [= <- <-]. rewrite quiet_app. intros [Hq1 Hq2]%andb_prop.
  destruct (organize_item_settled _ _ _ _ _ _ Hfs Hcat Hset Hstep Hq1)
    as (m1 & Hm1 & Hset1).
  eapply (IH st1 m1); try done.
  change (analytics_data st1) with (snapshot st1).1. rewrite Hsnap.
  by apply tally_has_categories.
Qed.

(** A run over names that are reserved or name directories does nothing
    but log "Skipping" lines. *)
Lemma organize_loop_idle dry_run all_items st (m : gmap string node) :
  fs st = Dir m →
  (∀ k, k ∈ all_items → k ∈ reserved_names ∨ ∃ ch, m !! k = Some (Dir ch)) →
  ∃ lines, organize_loop dry_run all_items st = (lines, Next st) ∧ quiet lines = true.
Proof.
  intros Hfs. induction all_items as [|x rest IH]; intros Hall; simpl; [by eexists|].
  destruct IH as (lines & Hloop & Hq); [intros k Hk; apply Hall; by right|].
  assert (∃ l, organize_item dry_run x st = (l, Next st) ∧ quiet l = true)
    as (l & -> & Hl).
  { unfold organize_item, os_path_isdir. rewrite Hfs. simpl lookup_path.
    case_bool_decide; [by eexists|].
    destruct (Hall x) as [?|[ch ->]]; [by left|done|]. by eexists. }
  rewrite Hloop. eexists. split; [done|]. by rewrite quiet_app, Hl.
Qed.

Lemma quiet_run_settled (actions : list move_action) (target : node)
    (listing : list string) :
  lists target listing →
  quiet (log (organize_directory actions target (Some listing) false)) = true →
  ∃ m1, fs (result (organize_directory actions target (Some listing) false)) = Dir m1
        ∧ settled m1 [].
Proof.
  intros Hlists. unfold organize_directory.
  destruct target as [data|m|]; simpl os_listdir; cbv iota; try done.
  destruct Hlists as [_ Hdom].
  set (st0 := {| fs := Dir m; last_move_actions := []; analytics_data := initial_analytics;
                 files_processed_count := 0; all_file_sizes := [] |}).
  destruct (organize_loop_next false listing st0 initial_analytics_has_categories)
    as (st1 & Hst1 & _).
  destruct (organize_loop false listing st0) as [lines r] eqn:Hloop.
  simpl in Hst1; subst r. cbn [log result].
  rewrite app_comm_cons, quiet_app. intros [Hquiet _]%andb_prop.
  apply (organize_loop_settled listing st0 m lines (Next st1) eq_refl
           initial_analytics_has_categories); [|done|done].
  intros k v Hk. left.
  apply (elem_of_list_to_set (C := gset string)). rewrite Hdom.
  apply elem_of_dom. eauto.
Qed.

Lemma idle_run (actions : list move_action) (m : gmap string node)
    (listing : list string) (dry_run : bool) :
  (∀ k, k ∈ listing → k ∈ reserved_names ∨ ∃ ch, m !! k = Some (Dir ch)) →
  let r := organize_directory actions (Dir m) (Some listing) dry_run in
  files_processed_count (result r) = 0
  ∧ quiet (log r) = true
  ∧ all_file_sizes (result r) = []
  ∧ fs (result r) = Dir m.
Proof.
  intros Hall. unfold organize_directory. simpl os_listdir. cbv iota.
  match goal with |- context [organize_loop dry_run listing ?st] =>
    destruct (organize_loop_idle dry_run listing st m eq_refl Hall)
      as (lines & -> & Hq) end.
  cbn [log result files_processed_count all_file_sizes fs].
  repeat split. rewrite app_comm_cons, quiet_app.
  apply andb_true_intro. split; [exact Hq|done].
Qed.

(** C5, amended. When a real run has logged neither warning nor error, a
    second real run on the directory it left processes no file, logs
    neither warning nor error and changes nothing. *)
Theorem second_run_idle (actions : list move_action) (target : node)
    (listing listing' : list string) :
  lists target listing →
  let first := organize_directory actions target (Some listing) false in
  quiet (log first) = true →
  lists (fs (result first)) listing' →
  let second :=
    organize_directory (last_move_actions (result first)) (fs (result first))
      (Some listing') false in
  files_processed_count (result second) = 0
  ∧ quiet (log second) = true
  ∧ all_file_sizes (result second) = []
  ∧ fs (result second) = fs (result first).
Proof.
  intros Hlists first Hquiet.
  destruct (quiet_run_settled actions target listing Hlists Hquiet) as (m1 & Hm1 & Hset).
  fold first in Hm1. rewrite Hm1. intros [_ Hdom'].
  apply idle_run. intros k Hk.
  apply (elem_of_list_to_set (C := gset string)) in Hk. rewrite Hdom' in Hk.
  apply elem_of_dom in Hk as [v Hv].
  destruct (Hset k v Hv) as [Hin|[?|[ch ->]]]; [by apply elem_of_nil in Hin|auto|eauto].
Qed.

Lemma second_run_idle_witness :
  let first := organize_directory [] (Dir single_file) (Some ["a.jpg"]) false in
  lists (Dir single_file) ["a.jpg"]
  ∧ quiet (log first) = true
  ∧ lists (fs (result first)) ["Images"]
  ∧ files_processed_count
      (result (organize_directory (last_move_actions (result first)) (fs (result first))
                 (Some ["Images"]) false)) = 0.
Proof.
  assert (H1 : lists (Dir single_file) ["a.jpg"])
    by (apply (bool_decide_unpack _); vm_compute; exact I).
  assert (H2 : quiet (log (organize_directory [] (Dir single_file) (Some ["a.jpg"]) false)) = true)
    by (vm_compute; exact eq_refl).
  assert (H3 : lists (fs (result (organize_directory [] (Dir single_file) (Some ["a.jpg"]) false)))
                 ["Images"])
    by (apply (bool_decide_unpack _); vm_compute; exact I).
  split; [exact H1|]. split; [exact H2|]. split; [exact H3|].
  exact (proj1 (second_run_idle [] (Dir single_file) ["a.jpg"] ["Images"] H1 H2 H3)).
Defined.

(** C5 as stated fails. A file whose category folder could not be created
    in the first run (a file called Images is in the way until it is moved
    itself) is moved by the second run, which counts 1; and the second run
    warns again about an entry whose size cannot be read. *)
Lemma second_run_not_idle :
  (let first := organize_directory [] (Dir file_named_images) (Some ["a.jpg"; "Images"]) false in
   let second :=
     organize_directory (last_move_actions (result first)) (fs (result first))
       (Some ["a.jpg"; "Others"]) false in
   lists (Dir file_named_images) ["a.jpg"; "Images"]
   ∧ lists (fs (result first)) ["a.jpg"; "Others"]
   ∧ files_processed_count (result second) = 1)
  ∧ (let first := organize_directory [] (Dir with_dangling_link) (Some ["a.jpg"; "link"]) false in
     let second :=
       organize_directory (last_move_actions (result first)) (fs (result first))
         (Some ["Images"; "link"]) false in
     lists (Dir with_dangling_link) ["a.jpg"; "link"]
     ∧ lists (fs (result first)) ["Images"; "link"]
     ∧ (warning, CouldNotAnalyze "link") ∈ log second).
Proof.
  repeat split; try (vm_compute; exact eq_refl);
    try (apply (bool_decide_unpack _); vm_compute; exact I).
  vm_compute. apply list_elem_of_further, list_elem_of_further, list_elem_of_here.
Qed.

(** * Organize, then undo *)

Lemma category_of_is_category item_name : is_category (category_of item_name).
Proof.
  unfold is_category, category_of.
  destruct (classify_in_rules (lower (splitext item_name).2) "Others" FILE_TYPE_MAP)
    as [->|?]; [|done].
  apply (bool_decide_unpack _). by vm_compute.
Qed.

Lemma extends_refl m : extends m m.
Proof. intros k. destruct (m !! k); auto. Qed.

Lemma extends_file_at u m p : extends u m → file_at p (Dir u) = file_at p (Dir m).
Proof.
  intros Hext. destruct p as [|k p]; [done|]. unfold file_at. simpl.
  specialize (Hext k). destruct (m !! k) as [v|]; [by rewrite Hext|].
  destruct Hext as [->|[_ ->]]; [done|].
  destruct p as [|k' p]; [done|]. simpl. by rewrite lookup_empty.
Qed.

Lemma movable_ne c x data m : movable c x data m → c ≠ x.
Proof. intros (_ & Hx & Hc & _) ->. done. Qed.

Lemma movable_children c x data m :
  movable c x data m → children_of (m !! c) !! x = None.
Proof.
  intros (_ & _ & _ & [->|(ch & -> & ?)]); [apply lookup_empty|done].
Qed.

Lemma os_makedirs_movable c x data m :
  movable c x data m →
  os_makedirs [c] (Dir m) = Some (Dir (<[c := Dir (children_of (m !! c))]> m)).
Proof.
  intros (_ & _ & _ & [Hc|(ch & Hc & _)]); simpl; by rewrite Hc.
Qed.

(** The file-system calls at the paths the organizer uses. *)
Lemma lookup_path_1 (m : gmap string node) x : lookup_path [x] (Dir m) = m !! x.
Proof. simpl. by destruct (m !! x). Qed.

Lemma lookup_path_2 (m : gmap string node) c x :
  lookup_path [c; x] (Dir m) = match m !! c with Some (Dir ch) => ch !! x | _ => None end.
Proof. simpl. destruct (m !! c) as [[]|]; try done. by destruct (_ !! x). Qed.

Lemma shutil_move_rename src dst w w' :
  os_path_isdir dst w = false →
  os_rename src dst w = Some w' →
  shutil_move src dst w = Moved_to w'.
Proof. intros Hdir Hren. unfold shutil_move. by rewrite Hdir, Hren. Qed.

Lemma os_rename_into (m ch : gmap string node) c x s :
  x ≠ c → m !! x = Some s → m !! c = Some (Dir ch) → ch !! x = None →
  os_rename [x] [c; x] (Dir m) = Some (Dir (<[c := Dir (<[x := s]> ch)]> (delete x m))).
Proof.
  intros Hne Hx Hc Hch. unfold os_rename, os_path_isdir.
  change (dirname [c; x]) with [c].
  rewrite lookup_path_2, !lookup_path_1, Hx, Hc, Hch.
  rewrite bool_decide_eq_false_2 by congruence.
  rewrite bool_decide_eq_false_2 by (intros ?%prefix_cons_inv_1; congruence).
  rewrite bool_decide_eq_false_2 by done.
  cbn [negb]. cbv iota.
  change (remove_path [x] (Dir m)) with (Dir (delete x m)).
  change (insert_path [c; x] s (Dir (delete x m)))
    with (match delete x m !! c with
          | Some c0 => Dir (<[c := insert_path [x] s c0]> (delete x m))
          | None => Dir (delete x m)
          end).
  by rewrite lookup_delete_ne, Hc.
Qed.

Lemma os_rename_out (m ch : gmap string node) c x s :
  m !! c = Some (Dir ch) → ch !! x = Some s → m !! x = None →
  os_rename [c; x] [x] (Dir m) = Some (Dir (<[x := s]> (<[c := Dir (delete x ch)]> m))).
Proof.
  intros Hc Hch Hx. unfold os_rename, os_path_isdir.
  change (dirname [x]) with (@nil string).
  rewrite lookup_path_2, !lookup_path_1, Hx, Hc, Hch.
  rewrite bool_decide_eq_false_2 by congruence.
  rewrite bool_decide_eq_false_2 by (intros ?%prefix_length; simpl in *; lia).
  rewrite bool_decide_eq_false_2 by done.
  cbn [negb lookup_path]. cbv iota.
  change (remove_path [c; x] (Dir m))
    with (match m !! c with
          | Some c0 => Dir (<[c := remove_path [x] c0]> m)
          | None => Dir m
          end).
  by rewrite Hc.
Qed.

Lemma shutil_move_movable c x data m :
  movable c x data m →
  shutil_move [x] [c; x] (Dir (<[c := Dir (children_of (m !! c))]> m))
  = Moved_to (Dir (move_in c x data m)).
Proof.
  intros Hmov. pose proof (movable_ne _ _ _ _ Hmov) as Hne.
  pose proof (movable_children _ _ _ _ Hmov) as Hch.
  destruct Hmov as (Hx & _).
  apply shutil_move_rename.
  - unfold os_path_isdir. by rewrite lookup_path_2, lookup_insert_eq, Hch.
  - rewrite (os_rename_into _ (children_of (m !! c)) c x (File data));
      [|done|by rewrite lookup_insert_ne|by rewrite lookup_insert_eq|done].
    unfold move_in. by rewrite delete_insert_ne, insert_insert_eq by done.
Qed.

Lemma move_in_clean c x data m :
  movable c x data m →
  no_file_named_category m → collision_free m →
  no_file_named_category (move_in c x data m) ∧ collision_free (move_in c x data m).
Proof.
  intros Hmov Hnf Hcf. pose proof (movable_ne _ _ _ _ Hmov) as Hne.
  assert (Hfile : ∀ k d, move_in c x data m !! k = Some (File d) →
            k ≠ x ∧ k ≠ c ∧ m !! k = Some (File d)).
  { intros k d. unfold move_in. intros Hk.
    destruct (decide (k = c)) as [->|?]; [by rewrite lookup_insert_eq in Hk|].
    rewrite lookup_insert_ne in Hk by done.
    destruct (decide (k = x)) as [->|?]; [by rewrite lookup_delete_eq in Hk|].
    by rewrite lookup_delete_ne in Hk. }
  split.
  - intros k d Hk. apply Hfile in Hk as (_ & _ & Hk). by eapply Hnf.
  - intros k d ch Hres Hk Hdir. apply Hfile in Hk as (Hkx & Hkc & Hk).
    unfold move_in in Hdir. destruct (decide (category_of k = c)) as [Heq|Hcne].
    + rewrite Heq, lookup_insert_eq in Hdir. injection Hdir as <-.
      rewrite lookup_insert_ne by done.
      destruct Hmov as (_ & _ & _ & [Hc|(ch0 & Hc & _)]); rewrite Hc; simpl.
      * apply lookup_empty.
      * eapply Hcf; [done..|by rewrite Heq].
    + rewrite lookup_insert_ne in Hdir by done.
      destruct (decide (category_of k = x)) as [Hx|Hx];
        [by rewrite Hx, lookup_delete_eq in Hdir|].
      rewrite lookup_delete_ne in Hdir by done. by eapply Hcf.
Qed.

Lemma move_in_file c x data (m : gmap string node) k d :
  move_in c x data m !! k = Some (File d) → k ≠ x ∧ k ≠ c ∧ m !! k = Some (File d).
Proof.
  unfold move_in. intros Hk.
  destruct (decide (k = c)) as [->|?]; [by rewrite lookup_insert_eq in Hk|].
  rewrite lookup_insert_ne in Hk by done.
  destruct (decide (k = x)) as [->|?]; [by rewrite lookup_delete_eq in Hk|].
  by rewrite lookup_delete_ne in Hk.
Qed.

(** In a directory without collisions a step of a real run either leaves
    the directory alone and records nothing, or moves its file into the
    folder of its category and records that move. *)
Lemma organize_item_clean item_name st (m : gmap string node) :
  fs st = Dir m →
  has_categories (analytics_data st) →
  no_file_named_category m → collision_free m →
  ∃ lines st',
    organize_item false item_name st = (lines, Next st')
    ∧ has_categories (analytics_data st')
    ∧ ((fs st' = Dir m ∧ omap action_of lines = [])
       ∨ (∃ data,
             movable (category_of item_name) item_name data m
             ∧ fs st' = Dir (move_in (category_of item_name) item_name data m)
             ∧ omap action_of lines = [([category_of item_name; item_name], [item_name])])).
Proof.
  intros Hfs Hcat Hnf Hcf.
  destruct (organize_item_snapshot false item_name st Hcat) as (st' & Hnext & Hsnap).
  assert (Hcat' : has_categories (analytics_data st')).
  { change (analytics_data st') with (snapshot st').1. rewrite Hsnap.
    by apply tally_has_categories. }
  destruct (organize_item false item_name st) as [lines r] eqn:Hstep.
  simpl in Hnext; subst r. exists lines, st'. split; [done|]. split; [done|].
  clear Hsnap Hcat'. revert Hstep.
  unfold organize_item, os_path_isdir, os_path_getsize. cbv zeta.
  change (classify FILE_TYPE_MAP (lower (splitext item_name).2) "Others")
    with (category_of item_name).
  set (c := category_of item_name).
  destruct (Hcat item_name) as [s Hs]. fold c in Hs. rewrite Hs, Hfs, lookup_path_1.
  case_bool_decide as Hres; [intros [= <- <-]; by left|].
  destruct (m !! item_name) as [[data|ch|]|] eqn:Hitem;
    try (intros [= <- <-]; by left).
  assert (Hmov : m !! c = Some Broken ∨ movable c item_name data m).
  { destruct (m !! c) as [[d'|ch|]|] eqn:Hc.
    - destruct (Hnf c d' Hc). apply category_of_is_category.
    - right. split; [done|]. split; [by eapply Hnf|].
      split; [apply category_of_is_category|].
      right. exists ch. split; [done|]. by eapply Hcf.
    - by left.
    - right. split; [done|]. split; [by eapply Hnf|].
      split; [apply category_of_is_category|by left]. }
  destruct Hmov as [Hc|Hmov].
  - assert (os_makedirs [c] (Dir m) = None) as -> by (simpl; by rewrite Hc).
    intros [= <- <-]. by left.
  - rewrite (os_makedirs_movable _ _ _ _ Hmov), (shutil_move_movable _ _ _ _ Hmov).
    intros [= <- <-]. right. by exists data.
Qed.

Lemma undo_loop_app l1 l2 w :
  undo_loop (l1 ++ l2) w =
  let '(lines, w1) := undo_loop l1 w in
  let '(lines', w2) := undo_loop l2 w1 in (lines ++ lines', w2).
Proof.
  revert w. induction l1 as [|a l1 IH]; intros w; simpl.
  - by destruct (undo_loop l2 w).
  - destruct (undo_item a w) as [la w1]. rewrite IH.
    destruct (undo_loop l1 w1) as [lb w2]. destruct (undo_loop l2 w2) as [lc w3].
    by rewrite app_assoc.
Qed.

(** Undoing the move of [x] into [c] in a directory that has at most grown
    empty category folders since. *)
Lemma undo_item_movable c x data (m u : gmap string node) :
  movable c x data m →
  extends u (move_in c x data m) →
  ∃ u', undo_item ([c; x], [x]) (Dir u) = ([(info, Reverted x)], Dir u')
        ∧ extends u' m.
Proof.
  intros Hmov Hext. pose proof (movable_ne _ _ _ _ Hmov) as Hne.
  pose proof (movable_children _ _ _ _ Hmov) as Hch.
  assert (Hux : u !! x = None).
  { specialize (Hext x). unfold move_in in Hext.
    rewrite lookup_insert_ne, lookup_delete_eq in Hext by done.
    destruct Hext as [?|[Hcx _]]; [done|]. by destruct Hmov as (_ & ? & _). }
  assert (Huc : u !! c = Some (Dir (<[x := File data]> (children_of (m !! c))))).
  { specialize (Hext c). unfold move_in in Hext. by rewrite lookup_insert_eq in Hext. }
  eexists. split.
  - unfold undo_item. change (dirname [x]) with (@nil string).
    change (os_makedirs [] (Dir u)) with (Some (Dir u)). cbv iota.
    assert (Hdir : os_path_isdir [x] (Dir u) = false)
      by (unfold os_path_isdir; by rewrite lookup_path_1, Hux).
    by rewrite (shutil_move_rename _ _ _ _ Hdir
                  (os_rename_out u _ c x (File data) Huc (lookup_insert_eq _ _ _) Hux)).
  - rewrite delete_insert_id by done. intros k.
    destruct (decide (k = x)) as [->|Hkx].
    { destruct Hmov as (-> & _). by rewrite lookup_insert_eq. }
    rewrite lookup_insert_ne by done.
    destruct (decide (k = c)) as [->|Hkc].
    { rewrite lookup_insert_eq.
      destruct Hmov as (_ & _ & Hc & [->|(ch & -> & _)]); simpl; auto. }
    rewrite lookup_insert_ne by done.
    specialize (Hext k). unfold move_in in Hext.
    by rewrite lookup_insert_ne, lookup_delete_ne in Hext.
Qed.

Lemma organize_loop_undo all_items :
  ∀ st (m : gmap string node),
    fs st = Dir m →
    has_categories (analytics_data st) →
    no_file_named_category m → collision_free m →
    ∃ lines st' m',
      organize_loop false all_items st = (lines, Next st')
      ∧ fs st' = Dir m'
      ∧ (∀ a, a ∈ omap action_of lines →
              ∃ x data, a = ([category_of x; x], [x]) ∧ m !! x = Some (File data))
      ∧ ∀ u, extends u m' →
             ∃ l u', undo_loop (rev (omap action_of lines)) (Dir u) = (l, Dir u')
                     ∧ extends u' m.
Proof.
  induction all_items as [|x rest IH]; intros st m Hfs Hcat Hnf Hcf; simpl.
  { exists [], st, m. repeat split; [done|by intros a ?%elem_of_nil|].
    intros u Hu. by exists [], u. }
  destruct (organize_item_clean x st m Hfs Hcat Hnf Hcf)
    as (lines1 & st1 & -> & Hcat1 & [[Hfs1 Hacts]|(data & Hmov & Hfs1 & Hacts)]).
  - destruct (IH st1 m Hfs1 Hcat1 Hnf Hcf) as (lines2 & st' & m' & -> & Hfs' & Hin & Hundo).
    exists (lines1 ++ lines2), st', m'. rewrite omap_app, Hacts. simpl.
    repeat split; done.
  - destruct (move_in_clean _ _ _ _ Hmov Hnf Hcf) as [Hnf1 Hcf1].
    destruct (IH st1 _ Hfs1 Hcat1 Hnf1 Hcf1)
      as (lines2 & st' & m' & -> & Hfs' & Hin & Hundo).
    exists (lines1 ++ lines2), st', m'. rewrite omap_app, Hacts. simpl.
    repeat split; [done| |].
    + intros a [->|Ha]%elem_of_cons.
      * exists x, data. split; [done|]. by destruct Hmov.
      * destruct (Hin a Ha) as (x' & d' & -> & Hx').
        apply move_in_file in Hx' as (_ & _ & Hx'). eauto.
    + intros u Hu. destruct (Hundo u Hu) as (l & u1 & Hl & Hext1).
      destruct (undo_item_movable _ _ _ _ _ Hmov Hext1) as (u' & Hitem & Hext').
      rewrite undo_loop_app, Hl. cbn [undo_loop]. rewrite Hitem. eauto.
Qed.

(** C1, amended. In a directory where no file bears the name of a category
    and no file to be moved finds its name taken in the folder of its
    category, a real run followed by undo on the action log it produced puts
    every moved file back at its original path with its content: the
    directory has the files it had, with the data they had, and differs
    from the directory before the run at most by category folders the run
    created, which are left behind empty. The action log is cleared. *)
Theorem organize_undo_round_trip (actions : list move_action)
    (m : gmap string node) (listing : list string) :
  no_file_named_category m →
  collision_free m →
  let r := organize_directory actions (Dir m) (Some listing) false in
  let u := undo_last_organization (last_move_actions (result r)) (fs (result r)) in
  ∃ m',
    undo_fs u = Dir m'
    ∧ extends m' m
    ∧ (∀ p, file_at p (undo_fs u) = file_at p (Dir m))
    ∧ (∀ dst src, (dst, src) ∈ last_move_actions (result r) →
          ∃ data, file_at src (Dir m) = Some data
                  ∧ file_at src (undo_fs u) = Some data)
    ∧ undo_actions u = [].
Proof.
  intros Hnf Hcf r u.
  pose proof (organize_directory_actions actions (Dir m) (Some listing)) as Hlog.
  fold r in Hlog. cbv zeta in Hlog.
  assert (∃ lines m1,
             last_move_actions (result r) = omap action_of lines
             ∧ fs (result r) = Dir m1
             ∧ (∀ a, a ∈ omap action_of lines →
                  ∃ x data, a = ([category_of x; x], [x]) ∧ m !! x = Some (File data))
             ∧ ∀ u0, extends u0 m1 →
                 ∃ l u', undo_loop (rev (omap action_of lines)) (Dir u0) = (l, Dir u')
                         ∧ extends u' m)
    as (lines & m1 & Hacts & Hfs & Hin & Hundo).
  { subst r. unfold organize_directory in *. simpl os_listdir in *. cbv iota in *.
    match goal with |- context [organize_loop false listing ?st0] =>
      destruct (organize_loop_undo listing st0 m eq_refl
                  initial_analytics_has_categories Hnf Hcf)
        as (lines & st' & m1 & Hloop & Hfs & Hin & Hundo);
      rewrite Hloop in * end.
    cbn [result log] in *. exists lines, m1.
    split; [|done]. rewrite Hlog.
    change (omap action_of ((info, Starting false) :: ?l)) with (omap action_of l).
    rewrite !omap_app. case_bool_decide; simpl; by rewrite app_nil_r. }
  destruct (Hundo m1 (extends_refl m1)) as (l & u' & Hl & Hext).
  assert (Hu : undo_fs u = Dir u' ∧ undo_actions u = []).
  { subst u. unfold undo_last_organization. rewrite Hfs, Hacts.
    destruct (omap action_of lines) as [|a acts] eqn:Hom.
    - simpl in Hl. by injection Hl as _ <-.
    - by rewrite Hl. }
  destruct Hu as [Hu1 Hu2]. exists u'. rewrite Hu1.
  split; [done|]. split; [done|]. split; [by intros; apply extends_file_at|].
  split; [|done]. intros dst src Hmem. rewrite Hacts in Hmem.
  destruct (Hin _ Hmem) as (x & data & [= -> ->] & Hx). exists data.
  rewrite (extends_file_at u' m) by done. unfold file_at. by rewrite lookup_path_1, Hx.
Qed.

Lemma organize_undo_round_trip_witness :
  no_file_named_category single_file ∧ collision_free single_file
  ∧ ∃ m', round_trip single_file ["a.jpg"] = Dir m' ∧ extends m' single_file.
Proof.
  assert (Hnf : no_file_named_category single_file)
    by (apply (bool_decide_unpack _); vm_compute; exact I).
  assert (Hcf : collision_free single_file)
    by (apply (bool_decide_unpack _); vm_compute; exact I).
  split; [exact Hnf|]. split; [exact Hcf|].
  destruct (organize_undo_round_trip [] single_file ["a.jpg"] Hnf Hcf)
    as (m' & Hfs & Hext & _).
  exists m'. split; [exact Hfs|exact Hext].
Defined.

(** C1 as stated fails, in three ways. A file that was already in the
    category folder under the same name is replaced by the move and is not
    there after undo. A file that bears the name of a category is put back
    inside the folder of that name which the run created. And that folder
    stays: even for a single file the tree is not the one before the run. *)
Lemma organize_undo_not_identity :
  (lists (Dir taken_name) ["a.jpg"; "Images"]
   ∧ file_at ["Images"; "a.jpg"] (Dir taken_name) = Some [Byte.x02; Byte.x02]
   ∧ file_at ["Images"; "a.jpg"] (round_trip taken_name ["a.jpg"; "Images"]) = None)
  ∧ (lists (Dir file_named_images) ["Images"; "a.jpg"]
     ∧ (["Others"; "Images"], ["Images"])
         ∈ last_move_actions
             (result (organize_directory [] (Dir file_named_images)
                        (Some ["Images"; "a.jpg"]) false))
     ∧ file_at ["Images"] (Dir file_named_images) = Some [Byte.x02]
     ∧ file_at ["Images"] (round_trip file_named_images ["Images"; "a.jpg"]) = None
     ∧ file_at ["Images"; "Images"] (round_trip file_named_images ["Images"; "a.jpg"])
       = Some [Byte.x02])
  ∧ (lists (Dir single_file) ["a.jpg"]
     ∧ lookup_path ["Images"] (Dir single_file) = None
     ∧ lookup_path ["Images"] (round_trip single_file ["a.jpg"]) = Some (Dir ∅)).
Proof.
  repeat split; try (vm_compute; exact eq_refl);
    try (apply (bool_decide_unpack _); vm_compute; exact I).
Qed.

(** * File names and extensions *)

Lemma lower_ascii_idemp a : lower_ascii (lower_ascii a) = lower_ascii a.
Proof. destruct a as [[] [] [] [] [] [] [] []]; reflexivity. Qed.

Lemma lower_ascii_eqb_dot a : Ascii.eqb (lower_ascii a) "."%char = Ascii.eqb a "."%char.
Proof. destruct a as [[] [] [] [] [] [] [] []]; reflexivity. Qed.

Lemma lower_ascii_eqb_sep a : Ascii.eqb (lower_ascii a) "/"%char = Ascii.eqb a "/"%char.
Proof. destruct a as [[] [] [] [] [] [] [] []]; reflexivity. Qed.

Lemma lower_idemp s : lower (lower s) = lower s.
Proof. induction s as [|a s IH]; simpl; [done|]. by rewrite lower_ascii_idemp, IH. Qed.

Lemma lower_length s : String.length (lower s) = String.length s.
Proof. induction s as [|a s IH]; simpl; congruence. Qed.

Lemma lower_get n s : String.get n (lower s) = lower_ascii <$> String.get n s.
Proof.
  revert n. induction s as [|a s IH]; intros n; simpl; [done|].
  destruct n; simpl; [done|apply IH].
Qed.

Lemma lower_substring n m s :
  String.substring n m (lower s) = lower (String.substring n m s).
Proof.
  revert n m. induction s as [|a s IH]; intros n m; simpl.
  - by destruct n, m.
  - destruct n as [|n]; [destruct m as [|m]; simpl; [done|by rewrite IH]|apply IH].
Qed.

Lemma rfind_from_lower c s i :
  (∀ a, Ascii.eqb (lower_ascii a) c = Ascii.eqb a c) →
  rfind_from c (lower s) i = rfind_from c s i.
Proof.
  intros Hc. revert i. induction s as [|a s IH]; intros i; simpl; [done|].
  by rewrite IH, Hc.
Qed.

Lemma splitext_scan_S p i n :
  splitext_scan p i (S n) =
  match String.get i p with
  | Some a => if Ascii.eqb a "."%char then splitext_scan p (S i) n else true
  | None => true
  end.
Proof.
  simpl. destruct (String.get i p) as [a|]; [|done].
  destruct a as [[] [] [] [] [] [] [] []]; reflexivity.
Qed.

Lemma splitext_scan_lower p i n :
  splitext_scan (lower p) i n = splitext_scan p i n.
Proof.
  revert i. induction n as [|n IH]; intros i; [done|].
  rewrite !splitext_scan_S, lower_get.
  destruct (String.get i p) as [a|]; simpl; [|done].
  by rewrite lower_ascii_eqb_dot, IH.
Qed.

(** [os.path.splitext] and [str.lower] commute. *)
Lemma splitext_lower p :
  splitext (lower p) = (lower (splitext p).1, lower (splitext p).2).
Proof.
  unfold splitext, rfind.
  rewrite !rfind_from_lower by (apply lower_ascii_eqb_dot || apply lower_ascii_eqb_sep).
  rewrite splitext_scan_lower, lower_length.
  destruct (_ && _); simpl; [|done]. by rewrite !lower_substring.
Qed.

Lemma substring_0_length s : String.substring 0 (String.length s) s = s.
Proof. induction s as [|a s IH]; simpl; [done|by rewrite IH]. Qed.

Lemma substring_split n s :
  (n ≤ String.length s)%nat →
  (String.substring 0 n s ++ String.substring n (String.length s - n) s)%string = s.
Proof.
  revert n. induction s as [|a s IH]; intros n Hn; simpl in *.
  - by destruct n.
  - destruct n as [|n]; simpl; [by rewrite substring_0_length|].
    transitivity (String a (String.substring 0 n s ++
                            String.substring n (String.length s - n) s)%string);
      [reflexivity|]. by rewrite IH by lia.
Qed.

(** Where [str.rfind] points: at an occurrence of the character, after which
    there is no other one. *)
Lemma rfind_from_spec (c : ascii) (s : string) (i : Z) :
  (0 ≤ i)%Z →
  (rfind_from c s i = -1 ∧ ∀ j, String.get j s ≠ Some c)
  ∨ ∃ n, rfind_from c s i = i + Z.of_nat n
         ∧ String.get n s = Some c
         ∧ ∀ j, (n < j)%nat → String.get j s ≠ Some c.
Proof.
  revert i. induction s as [|a s IH]; intros i Hi; simpl; [left; done|].
  destruct (IH (i + 1) ltac:(lia)) as [[-> Hnone]|(n & -> & Hn & Hlast)].
  - simpl. destruct (Ascii.eqb a c) eqn:Ha.
    + apply Ascii.eqb_eq in Ha as ->. right. exists 0%nat.
      split; [lia|]. split; [done|]. intros [|j] Hj; [lia|]. apply Hnone.
    + left. split; [done|]. intros [|j]; [|apply Hnone].
      intros [= ->]. by rewrite Ascii.eqb_refl in Ha.
  - rewrite (proj2 (Z.leb_le 0 _)) by lia.
    right. exists (S n). split; [lia|]. split; [done|].
    intros [|j] Hj; [lia|]. apply Hlast. lia.
Qed.

Lemma append_empty_r (s : string) : (s ++ "")%string = s.
Proof.
  induction s as [|a s IH]; [done|].
  transitivity (String a (s ++ "")%string); [reflexivity|by rewrite IH].
Qed.

Lemma get_Some_lt n (s : string) c : String.get n s = Some c → (n < String.length s)%nat.
Proof.
  revert n. induction s as [|a s IH]; intros n; simpl; [done|].
  destruct n; [lia|]. intros ?%IH. lia.
Qed.

(** X11. [splitext] cuts a name in two parts that give the name back; the
    second part is empty or starts at the last dot of the name. *)
Theorem splitext_parts (p : string) :
  ((splitext p).1 ++ (splitext p).2)%string = p
  ∧ ((splitext p).2 = ""
     ∨ ∃ e, (splitext p).2 = String "."%char e
            ∧ ∀ j, String.get j e ≠ Some "."%char).
Proof.
  unfold splitext, rfind.
  destruct (rfind_from_spec "/"%char p 0 ltac:(done)) as [[-> _]|(k & -> & _)];
  destruct (rfind_from_spec "."%char p 0 ltac:(done)) as [[-> _]|(n & -> & Hn & Hlast)].
  1,3: rewrite (proj2 (Z.ltb_ge _ _)) by lia; simpl;
       split; [apply append_empty_r|by left].
  all: destruct (_ && _); simpl; [|split; [apply append_empty_r|by left]].
  all: rewrite Z.add_0_l, Nat2Z.id.
  all: pose proof (get_Some_lt _ _ _ Hn) as Hlt.
  all: split; [apply substring_split; lia|right].
  all: pose proof (substring_correct1 p n (String.length p - n) 0 ltac:(lia)) as H0.
  all: simpl in H0; rewrite Hn in H0.
  all: destruct (String.substring n (String.length p - n) p) as [|a e] eqn:Hext;
         [done|]; simpl in H0; injection H0 as ->.
  all: exists e; split; [done|]; intros j.
  all: change (String.get j e) with (String.get (S j) (String "." e)); rewrite <- Hext.
  all: destruct (decide (S j < String.length p - n)%nat) as [Hj|Hj].
  all: try (rewrite substring_correct1 by done; apply Hlast; lia).
  all: by rewrite substring_correct2 by lia.
Qed.

(** X12. Classification does not look at the case of a name. *)
Theorem category_ignores_case (a b : string) :
  lower a = lower b → category_of a = category_of b.
Proof.
  intros Hab. unfold category_of.
  assert (Hl : ∀ p, lower (splitext p).2 = (splitext (lower p)).2)
    by (intros p; by rewrite splitext_lower).
  by rewrite !Hl, Hab.
Qed.

Lemma category_ignores_case_witness :
  lower "photo.JPG" = lower "PHOTO.jpg"
  ∧ category_of "photo.JPG" = category_of "PHOTO.jpg".
Proof.
  assert (H : lower "photo.JPG" = lower "PHOTO.jpg") by (vm_compute; exact eq_refl).
  split; [exact H|exact (category_ignores_case _ _ H)].
Defined.

Lemma classify_cases rules file_ext fallback :
  (classify rules file_ext fallback = fallback
   ∧ ∀ cat exts, (cat, exts) ∈ rules → file_ext ∉ exts)
  ∨ ∃ exts, (classify rules file_ext fallback, exts) ∈ rules ∧ file_ext ∈ exts.
Proof.
  induction rules as [|[cat exts] rest IH]; simpl.
  - left. split; [done|]. by intros ?? ?%elem_of_nil.
  - case_bool_decide as Hin.
    + right. exists exts. split; [left|done].
    + destruct IH as [[-> Hnone]|(exts' & Hin' & Hext)].
      * left. split; [done|]. intros c e [[= -> ->]|?]%elem_of_cons; eauto.
      * right. exists exts'. split; [by right|done].
Qed.

(** The lists of the table do not overlap: an extension found in the list of
    a category is classified there. *)
Lemma classify_table file_ext cat exts :
  (cat, exts) ∈ FILE_TYPE_MAP → file_ext ∈ exts →
  classify FILE_TYPE_MAP file_ext "Others" = cat.
Proof.
  unfold FILE_TYPE_MAP. intros Hin Hext.
  repeat (apply elem_of_cons in Hin as [[= -> ->]|Hin]);
    [..|by apply elem_of_nil in Hin];
    repeat (apply elem_of_cons in Hext as [->|Hext]);
    solve [reflexivity | by apply elem_of_nil in Hext].
Qed.

(** X13. A name is filed under a category exactly when its lower-cased
    extension is in the list of that category, and under "Others" exactly
    when it is in no list. *)
Theorem category_of_iff (item_name category : string) :
  let file_ext := lower (splitext item_name).2 in
  category_of item_name = category ↔
  (∃ exts, (category, exts) ∈ FILE_TYPE_MAP ∧ file_ext ∈ exts)
  ∨ (category = "Others"
     ∧ ∀ cat exts, (cat, exts) ∈ FILE_TYPE_MAP → file_ext ∉ exts).
Proof.
  intros file_ext. unfold category_of. fold file_ext. split.
  - intros <-. destruct (classify_cases FILE_TYPE_MAP file_ext "Others")
      as [[-> Hnone]|(exts & Hin & Hext)]; [right|left]; eauto.
  - intros [(exts & Hin & Hext)|[-> Hnone]].
    + by eapply classify_table.
    + by apply classify_no_match.
Qed.

(** * A step of a real run, case by case *)

Lemma lookup_path_3 (m : gmap string node) c x y :
  lookup_path [c; x; y] (Dir m) =
  match m !! c with
  | Some (Dir ch) => match ch !! x with Some (Dir inner) => inner !! y | _ => None end
  | _ => None
  end.
Proof.
  simpl. destruct (m !! c) as [[|ch|]|]; try done.
  destruct (ch !! x) as [[|inner|]|]; try done. by destruct (_ !! y).
Qed.

Lemma os_rename_file_into (m ch : gmap string node) c x data :
  x ≠ c → m !! x = Some (File data) → m !! c = Some (Dir ch) →
  (∀ inner, ch !! x ≠ Some (Dir inner)) →
  os_rename [x] [c; x] (Dir m)
  = Some (Dir (<[c := Dir (<[x := File data]> ch)]> (delete x m))).
Proof.
  intros Hne Hx Hc Hch. unfold os_rename, os_path_isdir.
  change (dirname [c; x]) with [c].
  rewrite lookup_path_2, !lookup_path_1, Hx, Hc.
  rewrite bool_decide_eq_false_2 by congruence.
  rewrite bool_decide_eq_false_2 by (intros ?%prefix_cons_inv_1; congruence).
  rewrite bool_decide_eq_false_2 by done.
  cbn [negb]. cbv iota.
  change (remove_path [x] (Dir m)) with (Dir (delete x m)).
  change (insert_path [c; x] (File data) (Dir (delete x m)))
    with (match delete x m !! c with
          | Some c0 => Dir (<[c := insert_path [x] (File data) c0]> (delete x m))
          | None => Dir (delete x m)
          end).
  rewrite lookup_delete_ne, Hc by done.
  destruct (ch !! x) as [[| |]|] eqn:Hchx; try done. by destruct (Hch _ eq_refl).
Qed.

Lemma os_rename_file_inside (m ch inner : gmap string node) c x data :
  x ≠ c → m !! x = Some (File data) → m !! c = Some (Dir ch) →
  ch !! x = Some (Dir inner) →
  inner !! x = None ∨ inner !! x = Some Broken →
  os_rename [x] [c; x; x] (Dir m)
  = Some (Dir (<[c := Dir (<[x := Dir (<[x := File data]> inner)]> ch)]> (delete x m))).
Proof.
  intros Hne Hx Hc Hch Hin. unfold os_rename, os_path_isdir.
  change (dirname [c; x; x]) with [c; x].
  rewrite lookup_path_3, lookup_path_2, !lookup_path_1, Hx, Hc, Hch.
  rewrite bool_decide_eq_false_2 by congruence.
  rewrite bool_decide_eq_false_2 by (intros ?%prefix_cons_inv_1; congruence).
  rewrite bool_decide_eq_false_2 by done.
  cbn [negb]. cbv iota.
  change (remove_path [x] (Dir m)) with (Dir (delete x m)).
  change (insert_path [c; x; x] (File data) (Dir (delete x m)))
    with (match delete x m !! c with
          | Some c0 => Dir (<[c := insert_path [x; x] (File data) c0]> (delete x m))
          | None => Dir (delete x m)
          end).
  rewrite lookup_delete_ne, Hc by done.
  change (insert_path [x; x] (File data) (Dir ch))
    with (match ch !! x with
          | Some c0 => Dir (<[x := insert_path [x] (File data) c0]> ch)
          | None => Dir ch
          end).
  rewrite Hch. by destruct Hin as [-> | ->].
Qed.

(** [shutil.move] of a file of the directory into an existing folder. *)
Lemma shutil_move_file (m ch : gmap string node) c x data :
  x ≠ c → m !! x = Some (File data) → m !! c = Some (Dir ch) →
  shutil_move [x] [c; x] (Dir m) =
  match landed x data (ch !! x) with
  | Some v => Moved_to (Dir (<[c := Dir (<[x := v]> ch)]> (delete x m)))
  | None => Shutil_Error
  end.
Proof.
  intros Hne Hx Hc. unfold landed.
  destruct (ch !! x) as [[d|inner|]|] eqn:Hchx.
  2: { unfold shutil_move, os_path_isdir, os_path_exists.
       rewrite lookup_path_2, Hc, Hchx.
       rewrite bool_decide_eq_false_2 by congruence.
       change ([c; x] ++ [basename [x]]) with [c; x; x].
       rewrite lookup_path_3, Hc, Hchx.
       destruct (inner !! x) as [[| |]|] eqn:Hin; try done.
       all: by rewrite (os_rename_file_inside m ch inner c x data) by auto. }
  all: apply shutil_move_rename;
    [unfold os_path_isdir; by rewrite lookup_path_2, Hc, Hchx|].
  all: apply os_rename_file_into; try done; intros inner; by rewrite Hchx.
Qed.

(** A step of a real run either leaves the directory as it is and records
    no action, or moves its file and records the move. *)
Lemma organize_item_real item_name st (m : gmap string node) :
  fs st = Dir m →
  has_categories (analytics_data st) →
  ∃ lines st',
    organize_item false item_name st = (lines, Next st')
    ∧ has_categories (analytics_data st')
    ∧ ((fs st' = Dir m ∧ omap action_of lines = []
        ∧ ∀ c, (info, Moved item_name c) ∉ lines)
       ∨ (∃ data v,
             m !! item_name = Some (File data)
             ∧ (item_name ∉ reserved_names)
             ∧ item_name ≠ category_of item_name
             ∧ (m !! category_of item_name = None
                ∨ ∃ ch, m !! category_of item_name = Some (Dir ch))
             ∧ landed item_name data
                 (children_of (m !! category_of item_name) !! item_name) = Some v
             ∧ fs st' = Dir (moved_into (category_of item_name) item_name v m)
             ∧ lines = [(info, Moved item_name (category_of item_name))])).
Proof.
  intros Hfs Hcat.
  destruct (organize_item_snapshot false item_name st Hcat) as (st' & Hnext & Hsnap).
  assert (Hcat' : has_categories (analytics_data st')).
  { change (analytics_data st') with (snapshot st').1. rewrite Hsnap.
    by apply tally_has_categories. }
  destruct (organize_item false item_name st) as [lines r] eqn:Hstep.
  simpl in Hnext; subst r. exists lines, st'. split; [done|]. split; [done|].
  clear Hsnap Hcat'. revert Hstep.
  unfold organize_item, os_path_isdir, os_path_getsize. cbv zeta.
  change (classify FILE_TYPE_MAP (lower (splitext item_name).2) "Others")
    with (category_of item_name).
  set (c := category_of item_name).
  destruct (Hcat item_name) as [s Hs]. fold c in Hs. rewrite Hs, Hfs, lookup_path_1.
  assert (Hstay : ∀ l, (∀ e, e ∈ l → e.2 ≠ Moved item_name c ∧ action_of e = None) →
            omap action_of l = [] ∧ ∀ c', (info, Moved item_name c') ∉ l).
  { intros l Hl. split.
    - induction l as [|e l IH]; [done|]. simpl.
      rewrite (proj2 (Hl e ltac:(left))). apply IH. intros e' ?. apply Hl. by right.
    - intros c' Hin. by destruct (Hl _ Hin) as [_ ?]. }
  case_bool_decide as Hres.
  { intros [= <- <-]. left. split; [done|]. apply Hstay. by intros e ?%elem_of_nil. }
  destruct (m !! item_name) as [[data|ch|]|] eqn:Hitem.
  2-4: intros [= <- <-]; left; split; [done|]; apply Hstay;
       by intros e [->|?%elem_of_nil]%elem_of_cons.
  destruct (m !! c) as [[d'|ch|]|] eqn:Hc.
  - assert (os_makedirs [c] (Dir m) = None) as -> by (simpl; by rewrite Hc).
    intros [= <- <-]. left. split; [done|]. apply Hstay.
    by intros e [->|?%elem_of_nil]%elem_of_cons.
  - assert (os_makedirs [c] (Dir m) = Some (Dir m)) as ->.
    { simpl. rewrite Hc. simpl. by rewrite insert_id. }
    assert (Hne : item_name ≠ c) by congruence.
    rewrite (shutil_move_file m ch c item_name data Hne Hitem Hc).
    destruct (landed item_name data (ch !! item_name)) as [v|] eqn:Hland.
    + intros [= <- <-]. right. exists data, v. simpl.
      repeat split; eauto. unfold moved_into. by rewrite Hc.
    + intros [= <- <-]. left. split; [done|]. apply Hstay.
      by intros e [->|?%elem_of_nil]%elem_of_cons.
  - assert (os_makedirs [c] (Dir m) = None) as -> by (simpl; by rewrite Hc).
    intros [= <- <-]. left. split; [done|]. apply Hstay.
    by intros e [->|?%elem_of_nil]%elem_of_cons.
  - assert (os_makedirs [c] (Dir m) = Some (Dir (<[c := Dir ∅]> m))) as ->.
    { simpl. by rewrite Hc. }
    assert (Hne : item_name ≠ c) by congruence.
    rewrite (shutil_move_file (<[c := Dir ∅]> m) ∅ c item_name data Hne)
      by (by rewrite ?lookup_insert_eq, ?lookup_insert_ne).
    rewrite lookup_empty. simpl.
    intros [= <- <-]. right. exists data, (File data). simpl.
    repeat split; eauto. unfold moved_into. rewrite Hc. simpl.
    by rewrite delete_insert_ne, insert_insert_eq.
Qed.

Lemma moved_into_lookup c x v (m : gmap string node) k :
  x ≠ c → k ≠ c →
  moved_into c x v m !! k = if decide (k = x) then None else m !! k.
Proof.
  intros Hxc Hkc. unfold moved_into. rewrite lookup_insert_ne by done.
  case_decide as Hk; [subst; apply lookup_delete_eq|by apply lookup_delete_ne].
Qed.

Lemma moved_into_inside c x v (m : gmap string node) data c' k :
  x ≠ c → m !! x = Some (File data) →
  (m !! c = None ∨ ∃ ch, m !! c = Some (Dir ch)) →
  lookup_path [c'; k] (Dir (moved_into c x v m))
  = if decide (c' = c ∧ k = x) then Some v else lookup_path [c'; k] (Dir m).
Proof.
  intros Hxc Hx Hc. rewrite !lookup_path_2.
  destruct (decide (c' = c)) as [->|Hc'].
  - unfold moved_into. rewrite lookup_insert_eq.
    destruct (decide (k = x)) as [->|Hk].
    + rewrite decide_True by done. apply lookup_insert_eq.
    + rewrite decide_False by (intros [_ ?]; done). rewrite lookup_insert_ne by done.
      destruct Hc as [->|[ch ->]]; simpl; [apply lookup_empty|done].
  - rewrite decide_False by (intros [? _]; done).
    rewrite moved_into_lookup by done. case_decide; [|done]. subst. by rewrite Hx.
Qed.

Lemma reserved_not_category k : k ∈ reserved_names → ¬ is_category k.
Proof.
  unfold reserved_names. intros Hk Hc.
  repeat (apply elem_of_cons in Hk as [->|Hk]); [..|by apply elem_of_nil in Hk];
    revert Hc; apply (bool_decide_unpack _); by vm_compute.
Qed.

(** ** Entries that are not category folders *)

Lemma organize_loop_outside all_items :
  ∀ st (m : gmap string node),
    fs st = Dir m →
    has_categories (analytics_data st) →
    ∃ m', fs (flow_state (organize_loop false all_items st).2) = Dir m'
          ∧ ∀ k, ¬ is_category k →
                 m' !! k = m !! k
                 ∨ (∃ data, m !! k = Some (File data) ∧ (k ∉ reserved_names)
                            ∧ k ∈ all_items ∧ m' !! k = None).
Proof.
  induction all_items as [|x rest IH]; intros st m Hfs Hcat; simpl.
  { exists m. split; [done|]. by left. }
  destruct (organize_item_real x st m Hfs Hcat)
    as (lines & st1 & -> & Hcat1 & [(Hfs1 & _)|(data & v & Hx & Hres & Hne & Hc & _ & Hfs1 & _)]).
  - destruct (IH st1 m Hfs1 Hcat1) as (m' & Hm' & Hout).
    destruct (organize_loop false rest st1) as [lines' r]; simpl in *.
    exists m'. split; [done|]. intros k Hk.
    destruct (Hout k Hk) as [?|(d & ? & ? & ? & ?)]; [by left|].
    right. exists d. repeat split; try done. by right.
  - destruct (IH st1 _ Hfs1 Hcat1) as (m' & Hm' & Hout).
    destruct (organize_loop false rest st1) as [lines' r]; simpl in *.
    exists m'. split; [done|]. intros k Hk.
    assert (Hkc : k ≠ category_of x)
      by (intros ->; apply Hk, category_of_is_category).
    specialize (Hout k Hk). rewrite moved_into_lookup in Hout by done.
    case_decide as Hkx.
    + subst k. right. exists data. repeat split; try done; [by left|].
      by destruct Hout as [?|(? & ? & _)].
    + destruct Hout as [?|(d & ? & ? & ? & ?)]; [by left|].
      right. exists d. repeat split; try done. by right.
Qed.

(** X5. A real run leaves every entry of the directory whose name is not
    the name of a category exactly as it was, content of subdirectories
    included, unless the entry is a regular file with a name that is not
    reserved and is listed: such a file is either still there, unchanged, or
    no longer at its path. *)
Theorem entries_kept_or_moved (actions : list move_action) (m : gmap string node)
    (listing : list string) (k : string) :
  ¬ is_category k →
  let r := result (organize_directory actions (Dir m) (Some listing) false) in
  lookup_path [k] (fs r) = m !! k
  ∨ (∃ data, m !! k = Some (File data) ∧ (k ∉ reserved_names) ∧ k ∈ listing
             ∧ lookup_path [k] (fs r) = None).
Proof.
  intros Hk. unfold organize_directory. simpl os_listdir. cbv iota.
  match goal with |- context [organize_loop false listing ?st0] =>
    destruct (organize_loop_outside listing st0 m eq_refl
                initial_analytics_has_categories) as (m' & Hm' & Hout);
    destruct (organize_loop false listing st0) as [lines [st|st]] end;
    cbn [flow_state snd] in Hm'; cbn [result]; rewrite Hm', lookup_path_1;
    apply Hout, Hk.
Qed.

Lemma entries_kept_or_moved_witness :
  ¬ is_category "a.jpg"
  ∧ (lookup_path ["a.jpg"]
       (fs (result (organize_directory [] (Dir with_dangling_link) (Some ["link"; "a.jpg"]) false)))
     = with_dangling_link !! "a.jpg"
     ∨ (∃ data, with_dangling_link !! "a.jpg" = Some (File data)
                ∧ ("a.jpg" ∉ reserved_names) ∧ "a.jpg" ∈ ["link"; "a.jpg"]
                ∧ lookup_path ["a.jpg"]
                    (fs (result (organize_directory [] (Dir with_dangling_link)
                                   (Some ["link"; "a.jpg"]) false))) = None)).
Proof.
  assert (H : ¬ is_category "a.jpg") by (apply (bool_decide_unpack _); vm_compute; exact I).
  split; [exact H|].
  exact (entries_kept_or_moved [] with_dangling_link ["link"; "a.jpg"] "a.jpg" H).
Defined.

(** X4. An entry with a reserved name is never touched: a real run leaves it
    exactly as it was, and a run, dry or real, ends and logs the same
    whether or not the name is in the listing. *)
Theorem reserved_entry_ignored (actions : list move_action) (target : node)
    (before after : list string) (k : string) (dry_run : bool) :
  k ∈ reserved_names →
  organize_directory actions target (Some (before ++ k :: after)) dry_run
  = organize_directory actions target (Some (before ++ after)) dry_run
  ∧ lookup_path [k]
      (fs (result (organize_directory actions target (Some (before ++ k :: after)) false)))
    = lookup_path [k] target.
Proof.
  intros Hk.
  assert (Hloop : ∀ dry st, organize_loop dry (before ++ k :: after) st
                            = organize_loop dry (before ++ after) st).
  { intros dry st. rewrite !organize_loop_app.
    destruct (organize_loop dry before st) as [l1 [st1|st1]]; [|done].
    assert (Hitem : organize_item dry k st1 = ([], Next st1))
      by (unfold organize_item; by rewrite bool_decide_eq_true_2).
    cbn [organize_loop]. rewrite Hitem.
    by destruct (organize_loop dry after st1). }
  split.
  - unfold organize_directory. destruct target; simpl os_listdir; cbv iota; try done.
    by rewrite Hloop.
  - destruct target as [d|m|]; try done.
    unfold organize_directory. simpl os_listdir. cbv iota.
    match goal with |- context [organize_loop false ?l ?st0] =>
      destruct (organize_loop_outside l st0 m eq_refl
                  initial_analytics_has_categories) as (m' & Hm' & Hout);
      destruct (organize_loop false l st0) as [lines [st|st]] end;
      cbn [flow_state snd] in Hm'; cbn [result]; rewrite Hm', !lookup_path_1;
      (destruct (Hout k (reserved_not_category k Hk)) as [?|(? & _ & ? & _)]; done).
Qed.

Lemma reserved_entry_ignored_witness :
  "file_organizer.log" ∈ reserved_names
  ∧ organize_directory [] (Dir single_file) (Some (["a.jpg"] ++ "file_organizer.log" :: [])) false
    = organize_directory [] (Dir single_file) (Some (["a.jpg"] ++ [])) false
  ∧ lookup_path ["file_organizer.log"]
      (fs (result (organize_directory [] (Dir single_file)
                     (Some (["a.jpg"] ++ "file_organizer.log" :: [])) false)))
    = lookup_path ["file_organizer.log"] (Dir single_file).
Proof.
  assert (H : "file_organizer.log" ∈ reserved_names)
    by (apply (bool_decide_unpack _); vm_compute; exact I).
  split; [exact H|].
  exact (reserved_entry_ignored [] (Dir single_file) ["a.jpg"] [] "file_organizer.log"
           false H).
Defined.

(** ** What is inside the folders *)

Lemma organize_loop_inside all_items :
  ∀ st (m : gmap string node) k,
    fs st = Dir m →
    has_categories (analytics_data st) →
    (k ∉ all_items) ∨ k ∈ reserved_names ∨ (∀ data, m !! k ≠ Some (File data)) →
    ∃ m', fs (flow_state (organize_loop false all_items st).2) = Dir m'
          ∧ ∀ c, lookup_path [c; k] (Dir m') = lookup_path [c; k] (Dir m).
Proof.
  induction all_items as [|x rest IH]; intros st m k Hfs Hcat Hk; cbn [organize_loop].
  { by exists m. }
  destruct (organize_item_real x st m Hfs Hcat)
    as (lines & st1 & -> & Hcat1 & [(Hfs1 & _)|(data & v & Hx & Hres & Hne & Hc & _ & Hfs1 & _)]).
  - destruct (IH st1 m k Hfs1 Hcat1) as (m' & Hm' & Hin).
    { destruct Hk as [Hk|Hk]; [left|by right]. by apply not_elem_of_cons in Hk as [_ ?]. }
    destruct (organize_loop false rest st1) as [lines' r]; cbn [flow_state snd] in *. eauto.
  - assert (Hkx : k ≠ x).
    { intros ->. destruct Hk as [Hk|[Hk|Hk]]; [|done|by eapply Hk].
      apply Hk. left. }
    destruct (IH st1 _ k Hfs1 Hcat1) as (m' & Hm' & Hin).
    { destruct Hk as [Hk|[Hk|Hk]]; [left|by right; left|right; right].
      - by apply not_elem_of_cons in Hk as [_ ?].
      - intros d Hd. destruct (decide (k = category_of x)) as [->|Hkc].
        + unfold moved_into in Hd. by rewrite lookup_insert_eq in Hd.
        + rewrite moved_into_lookup, decide_False in Hd by done. by eapply Hk. }
    destruct (organize_loop false rest st1) as [lines' r]; cbn [flow_state snd] in *.
    exists m'. split; [done|]. intros c. rewrite Hin.
    rewrite (moved_into_inside _ _ _ _ data) by done.
    by rewrite decide_False by (intros [_ ?]; done).
Qed.

(** X6. What a folder of the directory holds under a name stays exactly as
    it is through a real run, unless a regular file of that name, not
    reserved, is in the directory and in the listing. *)
Theorem folder_content_kept (actions : list move_action) (m : gmap string node)
    (listing : list string) (c k : string) :
  (k ∉ listing) ∨ k ∈ reserved_names ∨ file_at [k] (Dir m) = None →
  lookup_path [c; k] (fs (result (organize_directory actions (Dir m) (Some listing) false)))
  = lookup_path [c; k] (Dir m).
Proof.
  intros Hk. unfold organize_directory. simpl os_listdir. cbv iota.
  match goal with |- context [organize_loop false listing ?st0] =>
    destruct (organize_loop_inside listing st0 m k eq_refl
                initial_analytics_has_categories) as (m' & Hm' & Hin);
    [|destruct (organize_loop false listing st0) as [lines [st|st]]] end.
  - destruct Hk as [?|[?|Hk]]; auto. right; right. intros data Hd.
    unfold file_at in Hk. by rewrite lookup_path_1, Hd in Hk.
  - cbn [flow_state snd] in Hm'. cbn [result]. by rewrite Hm'.
  - cbn [flow_state snd] in Hm'. cbn [result]. by rewrite Hm'.
Qed.

Lemma folder_content_kept_witness :
  (("b.jpg" ∉ ["a.jpg"]) ∨ "b.jpg" ∈ reserved_names
   ∨ file_at ["b.jpg"] (Dir taken_name) = None)
  ∧ lookup_path ["Images"; "b.jpg"]
      (fs (result (organize_directory [] (Dir taken_name) (Some ["a.jpg"]) false)))
    = lookup_path ["Images"; "b.jpg"] (Dir taken_name).
Proof.
  assert (H : ("b.jpg" ∉ ["a.jpg"]) ∨ "b.jpg" ∈ reserved_names
              ∨ file_at ["b.jpg"] (Dir taken_name) = None)
    by (left; apply (bool_decide_unpack _); vm_compute; exact I).
  split; [exact H|].
  exact (folder_content_kept [] taken_name ["a.jpg"] "Images" "b.jpg" H).
Defined.

(** ** The files a real run moves *)

Lemma children_of_lookup (m : gmap string node) c x :
  children_of (m !! c) !! x = lookup_path [c; x] (Dir m).
Proof.
  rewrite lookup_path_2. destruct (m !! c) as [[| |]|]; simpl; by rewrite ?lookup_empty.
Qed.

Lemma landed_file x data old v :
  landed x data old = Some v → (∀ inner, old ≠ Some (Dir inner)) → v = File data.
Proof.
  unfold landed. destruct old as [[|inner|]|]; try (by intros [= <-]).
  intros _ Hold. by destruct (Hold inner).
Qed.

Lemma organize_loop_moved all_items :
  ∀ st (m : gmap string node),
    NoDup all_items →
    fs st = Dir m →
    has_categories (analytics_data st) →
    ∃ lines st' m',
      organize_loop false all_items st = (lines, Next st')
      ∧ fs st' = Dir m'
      ∧ ∀ lvl x c, (lvl, Moved x c) ∈ lines →
          lvl = info ∧ c = category_of x ∧ x ∈ all_items ∧ (x ∉ reserved_names)
          ∧ ∃ data, m !! x = Some (File data)
                    ∧ file_at [x] (Dir m') = None
                    ∧ (os_path_isdir [c; x] (Dir m) = false →
                       lookup_path [c; x] (Dir m') = Some (File data)).
Proof.
  induction all_items as [|x0 rest IH]; intros st m Hnd Hfs Hcat; cbn [organize_loop].
  { exists [], st, m. repeat split; try done; by apply elem_of_nil in H. }
  apply NoDup_cons in Hnd as [Hx0 Hnd].
  destruct (organize_item_real x0 st m Hfs Hcat)
    as (lines0 & st1 & -> & Hcat1 &
        [(Hfs1 & Hnone & _)|(data & v & Hx & Hres & Hne & Hc & Hland & Hfs1 & ->)]).
  - destruct (IH st1 m Hnd Hfs1 Hcat1) as (lines & st' & m' & -> & Hfs' & Hmoved).
    exists (lines0 ++ lines), st', m'. split; [done|]. split; [done|].
    intros lvl x c [Hin|Hin]%elem_of_app.
    + assert (Ha : ([c; x], [x]) ∈ omap action_of lines0)
        by (apply list_elem_of_omap; by exists (lvl, Moved x c)).
      rewrite Hnone in Ha. by apply elem_of_nil in Ha.
    + destruct (Hmoved lvl x c Hin) as (? & ? & ? & ? & ?).
      repeat split; try done. by right.
  - destruct (IH st1 _ Hnd Hfs1 Hcat1) as (lines & st' & m' & Hloop & Hfs' & Hmoved).
    destruct (organize_loop_steady false rest st1 _ Hfs1) as (m1' & Hm1' & Hsteady).
    destruct (organize_loop_inside rest st1 _ x0 Hfs1 Hcat1 (or_introl Hx0))
      as (m2' & Hm2' & Hinside).
    rewrite Hloop in Hm1', Hm2'. cbn [flow_state snd] in Hm1', Hm2'.
    assert (m1' = m') as -> by congruence. assert (m2' = m') as -> by congruence.
    rewrite Hloop. exists ((info, Moved x0 (category_of x0)) :: lines), st', m'.
    split; [done|]. split; [done|].
    intros lvl x c [[= -> -> ->]|Hin]%elem_of_cons.
    + repeat split; try done; [by left|]. exists data. split; [done|]. split.
      * specialize (Hsteady x0 Hx0). rewrite moved_into_lookup in Hsteady by done.
        rewrite decide_True in Hsteady by done. unfold file_at. rewrite lookup_path_1.
        by destruct Hsteady as [->|[ch ->]].
      * intros Hdir. rewrite Hinside, (moved_into_inside _ _ _ _ data) by done.
        rewrite decide_True by done. f_equal. eapply landed_file; [done|].
        intros inner Hold. rewrite children_of_lookup in Hold.
        unfold os_path_isdir in Hdir. by rewrite Hold in Hdir.
    + destruct (Hmoved lvl x c Hin) as (-> & -> & Hxin & Hxres & d & Hd & Hgone & Hdst).
      assert (Hxx0 : x ≠ x0) by (intros ->; done).
      assert (Hxc : x ≠ category_of x0).
      { intros ->. unfold moved_into in Hd. by rewrite lookup_insert_eq in Hd. }
      rewrite moved_into_lookup, decide_False in Hd by done.
      repeat split; try done; [by right|]. exists d. repeat split; try done.
      intros Hdir. apply Hdst. unfold os_path_isdir in *.
      rewrite (moved_into_inside _ _ _ _ data) by done.
      by rewrite decide_False by (intros [_ ?]; done).
Qed.

(** X7. In a real run over a listing without repeated names, every pair of
    the action log is (category folder / name, name) for a listed name that
    is not reserved and was a regular file of the directory; after the run
    no file is left at the source path, and the destination path holds the
    file with its data unless a directory was in the way there. *)
Theorem moved_files_arrive (actions : list move_action) (m : gmap string node)
    (listing : list string) (dst src : path) :
  NoDup listing →
  let r := result (organize_directory actions (Dir m) (Some listing) false) in
  (dst, src) ∈ last_move_actions r →
  ∃ x data,
    src = [x] ∧ dst = [category_of x; x]
    ∧ x ∈ listing ∧ (x ∉ reserved_names)
    ∧ file_at src (Dir m) = Some data
    ∧ file_at src (fs r) = None
    ∧ (os_path_isdir dst (Dir m) = false → file_at dst (fs r) = Some data).
Proof.
  intros Hnd r. subst r.
  rewrite (organize_directory_actions actions (Dir m) (Some listing)).
  unfold organize_directory. simpl os_listdir. cbv iota.
  match goal with |- context [organize_loop false listing ?st0] =>
    destruct (organize_loop_moved listing st0 m Hnd eq_refl
                initial_analytics_has_categories)
      as (lines & st' & m' & -> & Hfs' & Hmoved) end.
  cbn [result log]. rewrite Hfs'.
  change (omap action_of ((info, Starting false) :: ?l)) with (omap action_of l).
  rewrite !omap_app. intros [Hin|Hin]%elem_of_app.
  - apply list_elem_of_omap in Hin as ([lvl msg] & Hin & Hact).
    destruct msg; try done. injection Hact as <- <-.
    destruct (Hmoved _ _ _ Hin) as (_ & -> & ? & ? & data & Hd & Hgone & Hdst).
    exists item_name, data. repeat split; try done.
    + unfold file_at. by rewrite lookup_path_1, Hd.
    + intros Hdir. unfold file_at. by rewrite Hdst.
  - by case_bool_decide; simpl in Hin; apply elem_of_nil in Hin.
Qed.

Lemma moved_files_arrive_witness :
  NoDup ["a.jpg"]
  ∧ (["Images"; "a.jpg"], ["a.jpg"])
      ∈ last_move_actions
          (result (organize_directory [] (Dir single_file) (Some ["a.jpg"]) false))
  ∧ ∃ x data,
      ["a.jpg"] = [x] ∧ ["Images"; "a.jpg"] = [category_of x; x]
      ∧ x ∈ ["a.jpg"] ∧ (x ∉ reserved_names)
      ∧ file_at ["a.jpg"] (Dir single_file) = Some data
      ∧ file_at ["a.jpg"]
          (fs (result (organize_directory [] (Dir single_file) (Some ["a.jpg"]) false))) = None
      ∧ (os_path_isdir ["Images"; "a.jpg"] (Dir single_file) = false →
         file_at ["Images"; "a.jpg"]
           (fs (result (organize_directory [] (Dir single_file) (Some ["a.jpg"]) false)))
         = Some data).
Proof.
  assert (Hnd : NoDup ["a.jpg"]) by (apply (bool_decide_unpack _); vm_compute; exact I).
  assert (Hin : (["Images"; "a.jpg"], ["a.jpg"])
                  ∈ last_move_actions
                      (result (organize_directory [] (Dir single_file) (Some ["a.jpg"]) false)))
    by (apply (bool_decide_unpack _); vm_compute; exact I).
  split; [exact Hnd|]. split; [exact Hin|].
  exact (moved_files_arrive [] single_file ["a.jpg"] ["Images"; "a.jpg"] ["a.jpg"]
           Hnd Hin).
Defined.

(** * The log and the count of a run *)

Lemma organize_item_lines dry_run item_name st :
  has_categories (analytics_data st) →
  omap line_item (organize_item dry_run item_name st).1
  = if bool_decide (item_name ∈ reserved_names) then [] else [item_name].
Proof.
  intros Hcat. unfold organize_item. cbv zeta.
  change (classify FILE_TYPE_MAP (lower (splitext item_name).2) "Others")
    with (category_of item_name).
  destruct (Hcat item_name) as [s ->].
  by repeat case_match.
Qed.

Lemma organize_loop_lines dry_run all_items st :
  has_categories (analytics_data st) →
  omap line_item (organize_loop dry_run all_items st).1
  = filter (λ x, x ∉ reserved_names) all_items.
Proof.
  revert st. induction all_items as [|x rest IH]; intros st Hcat; [done|].
  cbn [organize_loop].
  pose proof (organize_item_lines dry_run x st Hcat) as Hx.
  destruct (organize_item_snapshot dry_run x st Hcat) as (st1 & Hst1 & Hsnap).
  destruct (organize_item dry_run x st) as [lines r]; simpl in Hst1, Hx; subst r.
  assert (Hcat1 : has_categories (analytics_data st1)).
  { change (analytics_data st1) with (snapshot st1).1. rewrite Hsnap.
    by apply tally_has_categories. }
  specialize (IH st1 Hcat1).
  destruct (organize_loop dry_run rest st1) as [lines' r]. cbn [fst] in *.
  rewrite omap_app, Hx, IH, filter_cons.
  case_bool_decide; [by rewrite decide_False by auto|by rewrite decide_True].
Qed.

(** X2. When the target is a directory, the log of a run, dry or real, has
    between its first and its closing lines exactly one line for each
    listed name that is not reserved, in the order of the listing. *)
Theorem one_line_per_entry (actions : list move_action) (m : gmap string node)
    (listing : list string) (dry_run : bool) :
  omap line_item (log (organize_directory actions (Dir m) (Some listing) dry_run))
  = filter (λ x, x ∉ reserved_names) listing.
Proof.
  unfold organize_directory. simpl os_listdir. cbv iota.
  match goal with |- context [organize_loop dry_run listing ?st0] =>
    pose proof (organize_loop_lines dry_run listing st0
                  initial_analytics_has_categories) as Hlines;
    destruct (organize_loop_next dry_run listing st0 initial_analytics_has_categories)
      as (st' & Hnext & _);
    destruct (organize_loop dry_run listing st0) as [lines r] end.
  simpl in Hnext, Hlines; subst r. cbn [log].
  change (omap line_item ((info, Starting dry_run) :: ?l)) with (omap line_item l).
  rewrite !omap_app, Hlines. case_bool_decide; simpl; by rewrite app_nil_r.
Qed.

Lemma organize_item_about dry_run item_name st :
  Forall (λ e, is_Some (line_item e)) (organize_item dry_run item_name st).1.
Proof.
  unfold organize_item. repeat case_match; repeat constructor; by eexists.
Qed.

Lemma organize_loop_about dry_run all_items st :
  Forall (λ e, is_Some (line_item e)) (organize_loop dry_run all_items st).1.
Proof.
  revert st. induction all_items as [|x rest IH]; intros st; [constructor|].
  cbn [organize_loop]. pose proof (organize_item_about dry_run x st) as Hx.
  destruct (organize_item dry_run x st) as [lines [st1|st1]]; [|done].
  specialize (IH st1). destruct (organize_loop dry_run rest st1) as [lines' r].
  by apply Forall_app.
Qed.

(** X1. The log of a run opens with the start line, and it holds the line
    of the unexpected error exactly when the listing of the target failed.
    A run whose listing succeeded reaches its end: its log closes with the
    completion line, and the "no new files" line is there exactly when no
    file was processed. *)
Theorem run_completes (actions : list move_action) (target : node)
    (listing : option (list string)) (dry_run : bool) :
  let r := organize_directory actions target listing dry_run in
  head (log r) = Some (info, Starting dry_run)
  ∧ ((∃ lvl, (lvl, UnexpectedError) ∈ log r) ↔ os_listdir target listing = None)
  ∧ (os_listdir target listing ≠ None →
     last (log r) = Some (info, OrganizationComplete dry_run)
     ∧ ((info, NoNewFiles) ∈ log r ↔ files_processed_count (result r) = 0)).
Proof.
  unfold organize_directory.
  destruct (os_listdir target listing) as [all_items|].
  2: { split; [done|]. split; [|done]. split; [done|]. intros _. exists error.
       right. left. }
  match goal with |- context [organize_loop dry_run all_items ?st0] =>
    pose proof (organize_loop_about dry_run all_items st0) as Habout;
    destruct (organize_loop_next dry_run all_items st0
                initial_analytics_has_categories) as (st' & Hnext & _);
    destruct (organize_loop dry_run all_items st0) as [lines r] end.
  simpl in Hnext, Habout; subst r. cbn [log result].
  assert (Hitem : ∀ e, e ∈ lines → line_item e = None → False).
  { intros e He Hnone. rewrite Forall_forall in Habout.
    destruct (Habout e He) as [x Hx]. congruence. }
  split; [done|]. split.
  - split; [|done].
    intros [lvl [[=]|[Hin|[Hin|Hin]%elem_of_app]%elem_of_app]%elem_of_cons].
    + by destruct (Hitem _ Hin).
    + case_bool_decide; [|by apply elem_of_nil in Hin].
      by apply list_elem_of_singleton in Hin.
    + by apply list_elem_of_singleton in Hin.
  - intros _. split; [by rewrite app_comm_cons, !app_assoc, last_snoc|].
    case_bool_decide as Hcount; split; try done.
    + intros _. apply elem_of_cons. right. apply elem_of_app. right.
      apply elem_of_app. left. by left.
    + intros [[=]|[Hin|[Hin|Hin]%elem_of_app]%elem_of_app]%elem_of_cons.
      * by destruct (Hitem _ Hin).
      * by apply elem_of_nil in Hin.
      * by apply list_elem_of_singleton in Hin.
Qed.

(** ** The count of processed files *)

Lemma organize_item_count dry_run item_name st :
  has_categories (analytics_data st) →
  let st' := flow_state (organize_item dry_run item_name st).2 in
  let counted := files_processed_count st' - files_processed_count st in
  let analysed_files :=
    Z.of_nat (length (all_file_sizes st')) - Z.of_nat (length (all_file_sizes st)) in
  let recorded :=
    Z.of_nat (length (last_move_actions st')) - Z.of_nat (length (last_move_actions st)) in
  if dry_run then counted = analysed_files ∧ recorded = 0
  else counted = recorded ∧ (0 ≤ counted ≤ analysed_files)%Z.
Proof.
  intros Hcat. unfold organize_item. cbv zeta.
  change (classify FILE_TYPE_MAP (lower (splitext item_name).2) "Others")
    with (category_of item_name).
  destruct (Hcat item_name) as [s ->].
  repeat case_match; simpl; rewrite ?length_app; simpl; lia.
Qed.

Lemma organize_loop_count dry_run all_items st :
  has_categories (analytics_data st) →
  let st' := flow_state (organize_loop dry_run all_items st).2 in
  let counted := files_processed_count st' - files_processed_count st in
  let analysed_files :=
    Z.of_nat (length (all_file_sizes st')) - Z.of_nat (length (all_file_sizes st)) in
  let recorded :=
    Z.of_nat (length (last_move_actions st')) - Z.of_nat (length (last_move_actions st)) in
  if dry_run then counted = analysed_files ∧ recorded = 0
  else counted = recorded ∧ (0 ≤ counted ≤ analysed_files)%Z.
Proof.
  revert st. induction all_items as [|x rest IH]; intros st Hcat; cbn [organize_loop].
  { simpl. destruct dry_run; lia. }
  pose proof (organize_item_count dry_run x st Hcat) as Hx.
  destruct (organize_item_snapshot dry_run x st Hcat) as (st1 & Hst1 & Hsnap).
  destruct (organize_item dry_run x st) as [lines r]; simpl in Hst1; subst r.
  assert (Hcat1 : has_categories (analytics_data st1)).
  { change (analytics_data st1) with (snapshot st1).1. rewrite Hsnap.
    by apply tally_has_categories. }
  specialize (IH st1 Hcat1).
  destruct (organize_loop dry_run rest st1) as [lines' r]. cbn [flow_state snd] in *.
  destruct dry_run; lia.
Qed.

(** X3. The count of a dry run is the number of files it analysed; the count
    of a real run is the number of moves it recorded, which is at most the
    number of files it analysed. *)
Theorem processed_count_meaning (actions : list move_action) (target : node)
    (listing : option (list string)) :
  let dry := result (organize_directory actions target listing true) in
  let real := result (organize_directory actions target listing false) in
  files_processed_count dry = Z.of_nat (length (all_file_sizes dry))
  ∧ files_processed_count real = Z.of_nat (length (last_move_actions real))
  ∧ (files_processed_count real ≤ Z.of_nat (length (all_file_sizes real)))%Z.
Proof.
  unfold organize_directory.
  destruct (os_listdir target listing) as [all_items|]; [|done].
  repeat match goal with |- context [organize_loop ?d all_items ?st0] =>
    let H := fresh "H" in
    pose proof (organize_loop_count d all_items st0
                  initial_analytics_has_categories) as H;
    destruct (organize_loop d all_items st0) as [? [?|?]] end;
    simpl in *; lia.
Qed.

(** * The undo log and the effect of undo *)

Lemma undo_item_line a w : ∃ e, (undo_item a w).1 = [e] ∧ undo_line a e.
Proof.
  destruct a as [source dest]. unfold undo_item, undo_line.
  repeat case_match; simpl; eauto.
Qed.

Lemma undo_loop_lines actions w : Forall2 undo_line actions (undo_loop actions w).1.
Proof.
  revert w. induction actions as [|a rest IH]; intros w; [constructor|].
  cbn [undo_loop]. destruct (undo_item_line a w) as (e & He & Ha).
  destruct (undo_item a w) as [lines w1]. specialize (IH w1).
  destruct (undo_loop rest w1) as [lines' w2]. cbn [fst] in *. subst lines.
  by constructor.
Qed.

(** X8. Undo is best effort: whatever happens to the single moves, the undo
    log has one line per action, in the reverse order of the action log,
    between its opening and closing lines; the action log is empty
    afterwards, so that a second undo shows "No actions to undo" and touches
    nothing. *)
Theorem undo_best_effort (actions : list move_action) (w : node) :
  let u := undo_last_organization actions w in
  let again := undo_last_organization (undo_actions u) (undo_fs u) in
  undo_actions u = []
  ∧ nothing_to_undo again = true ∧ undo_fs again = undo_fs u ∧ undo_log again = []
  ∧ (actions ≠ [] →
     nothing_to_undo u = false
     ∧ ∃ lines, undo_log u = (info, StartingUndo) :: lines ++ [(info, UndoComplete)]
                ∧ Forall2 undo_line (rev actions) lines).
Proof.
  unfold undo_last_organization. destruct actions as [|a rest].
  { repeat split; done. }
  pose proof (undo_loop_lines (rev (a :: rest)) w) as Hlines.
  destruct (undo_loop (rev (a :: rest)) w) as [lines w']. cbn [fst] in Hlines.
  simpl. repeat split; try done. by exists lines.
Qed.

Lemma undo_best_effort_witness :
  [(["Images"; "a.jpg"], ["a.jpg"])] ≠ []
  ∧ nothing_to_undo (undo_last_organization [(["Images"; "a.jpg"], ["a.jpg"])]
                       (Dir single_file)) = false
  ∧ ∃ lines,
      undo_log (undo_last_organization [(["Images"; "a.jpg"], ["a.jpg"])] (Dir single_file))
      = (info, StartingUndo) :: lines ++ [(info, UndoComplete)]
      ∧ Forall2 undo_line (rev [(["Images"; "a.jpg"], ["a.jpg"])]) lines.
Proof.
  assert (H : [(["Images"; "a.jpg"], ["a.jpg"])] ≠ @nil move_action) by discriminate.
  split; [exact H|].
  exact (proj2 (proj2 (proj2 (proj2
           (undo_best_effort [(["Images"; "a.jpg"], ["a.jpg"])] (Dir single_file))))) H).
Defined.

(** ** Undoing one move of the organizer *)

Lemma undo_item_missing (m : gmap string node) source x :
  lookup_path source (Dir m) = None →
  undo_item (source, [x]) (Dir m) = ([(info, ErrorUndoing (basename source))], Dir m).
Proof.
  intros Hsrc. unfold undo_item. change (dirname [x]) with (@nil string).
  change (os_makedirs [] (Dir m)) with (Some (Dir m)). cbv iota.
  assert (Hren : ∀ dst, os_rename source dst (Dir m) = None)
    by (intros dst; unfold os_rename; by rewrite Hsrc).
  unfold shutil_move. rewrite !Hren, Hsrc. by repeat case_match.
Qed.

Lemma undo_loop_missing (m : gmap string node) actions :
  Forall (λ a : move_action,
            lookup_path a.1 (Dir m) = None ∧ ∃ x, a.2 = [x]) actions →
  (undo_loop actions (Dir m)).2 = Dir m.
Proof.
  induction 1 as [|[source dest] rest [Hsrc [x Hx]] _ IH]; [done|].
  simpl in Hsrc, Hx; subst dest. cbn [undo_loop].
  rewrite undo_item_missing by done. by destruct (undo_loop rest (Dir m)).
Qed.

(** X9. Undo of moves whose files are no longer where the run put them (and
    whose original paths are names of the directory itself) leaves the
    directory exactly as it is; each of them is logged as an error. *)
Theorem undo_of_missing_files (m : gmap string node) (actions : list move_action) :
  Forall (λ a : move_action,
            lookup_path a.1 (Dir m) = None ∧ ∃ x, a.2 = [x]) actions →
  let u := undo_last_organization actions (Dir m) in
  undo_fs u = Dir m
  ∧ ∀ e, e ∈ undo_log u → ∀ name, e.2 ≠ Reverted name.
Proof.
  intros Hall. unfold undo_last_organization. destruct actions as [|a rest];
    [split; [done|by intros e ?%elem_of_nil]|].
  assert (Hrev : Forall (λ a : move_action,
                           lookup_path a.1 (Dir m) = None ∧ ∃ x, a.2 = [x])
                   (rev (a :: rest))) by (by apply Forall_rev).
  pose proof (undo_loop_missing m _ Hrev) as Hfs.
  assert (Hlines : ∀ e, e ∈ (undo_loop (rev (a :: rest)) (Dir m)).1 →
                        ∀ name, e.2 ≠ Reverted name).
  { clear Hfs. induction Hrev as [|[source dest] l [Hsrc [x Hx]] _ IH];
      [by intros e ?%elem_of_nil|].
    simpl in Hsrc, Hx; subst dest. cbn [undo_loop].
    rewrite undo_item_missing by done.
    destruct (undo_loop l (Dir m)) as [lines w2]. cbn [fst] in *.
    intros e [->|He]%elem_of_cons; [done|by apply IH]. }
  destruct (undo_loop (rev (a :: rest)) (Dir m)) as [lines w']. simpl in *.
  split; [done|].
  intros e He. apply elem_of_cons in He as [->|He]; [done|].
  apply elem_of_app in He as [He|He]; [by apply Hlines|].
  by apply list_elem_of_singleton in He as ->.
Qed.

Lemma undo_of_missing_files_witness :
  Forall (λ a : move_action,
            lookup_path a.1 (Dir single_file) = None ∧ ∃ x, a.2 = [x])
    [(["Images"; "a.jpg"], ["a.jpg"])]
  ∧ undo_fs (undo_last_organization [(["Images"; "a.jpg"], ["a.jpg"])] (Dir single_file))
    = Dir single_file
  ∧ ∀ e, e ∈ undo_log (undo_last_organization [(["Images"; "a.jpg"], ["a.jpg"])]
                         (Dir single_file)) →
         ∀ name, e.2 ≠ Reverted name.
Proof.
  assert (H : Forall (λ a : move_action,
                        lookup_path a.1 (Dir single_file) = None ∧ ∃ x, a.2 = [x])
                [(["Images"; "a.jpg"], ["a.jpg"])]).
  { constructor; [|constructor]. split; [vm_compute; exact eq_refl|].
    exists "a.jpg". exact eq_refl. }
  split; [exact H|].
  exact (undo_of_missing_files single_file [(["Images"; "a.jpg"], ["a.jpg"])] H).
Defined.

Lemma os_rename_back (m ch : gmap string node) c x data :
  m !! c = Some (Dir ch) → ch !! x = Some (File data) →
  (∀ inner, m !! x ≠ Some (Dir inner)) →
  os_rename [c; x] [x] (Dir m)
  = Some (Dir (<[x := File data]> (<[c := Dir (delete x ch)]> m))).
Proof.
  intros Hc Hch Hx. unfold os_rename, os_path_isdir.
  change (dirname [x]) with (@nil string).
  rewrite lookup_path_2, !lookup_path_1, Hc, Hch.
  rewrite bool_decide_eq_false_2 by congruence.
  rewrite bool_decide_eq_false_2 by (intros ?%prefix_length; simpl in *; lia).
  rewrite bool_decide_eq_false_2 by done.
  cbn [negb lookup_path]. cbv iota.
  change (remove_path [c; x] (Dir m))
    with (match m !! c with
          | Some c0 => Dir (<[c := remove_path [x] c0]> m)
          | None => Dir m
          end).
  rewrite Hc. destruct (m !! x) as [[| |]|] eqn:Hmx; try done. by destruct (Hx _ eq_refl).
Qed.

Lemma os_rename_back_inside (m ch inner : gmap string node) c x data :
  c ≠ x →
  m !! c = Some (Dir ch) → ch !! x = Some (File data) →
  m !! x = Some (Dir inner) →
  inner !! x = None ∨ inner !! x = Some Broken →
  os_rename [c; x] [x; x] (Dir m)
  = Some (Dir (<[x := Dir (<[x := File data]> inner)]> (<[c := Dir (delete x ch)]> m))).
Proof.
  intros Hne Hc Hch Hx Hin. unfold os_rename, os_path_isdir.
  change (dirname [x; x]) with [x].
  rewrite !lookup_path_2, !lookup_path_1, Hc, Hch, Hx.
  rewrite bool_decide_eq_false_2 by congruence.
  rewrite bool_decide_eq_false_2 by (intros ?%prefix_cons_inv_1; congruence).
  rewrite bool_decide_eq_false_2 by done.
  cbn [negb]. cbv iota.
  change (remove_path [c; x] (Dir m))
    with (match m !! c with
          | Some c0 => Dir (<[c := remove_path [x] c0]> m)
          | None => Dir m
          end).
  rewrite Hc.
  change (remove_path [x] (Dir ch)) with (Dir (delete x ch)).
  change (insert_path [x; x] (File data) (Dir (<[c := Dir (delete x ch)]> m)))
    with (match <[c := Dir (delete x ch)]> m !! x with
          | Some c0 => Dir (<[x := insert_path [x] (File data) c0]>
                              (<[c := Dir (delete x ch)]> m))
          | None => Dir (<[c := Dir (delete x ch)]> m)
          end).
  rewrite lookup_insert_ne, Hx by done. by destruct Hin as [-> | ->].
Qed.

(** X10. Undo of one move of the organizer whose file is still in its
    category folder. The file goes back to its original name; whatever file
    or dangling link has appeared under that name in the meantime is
    replaced, without a word in the log. When a directory has appeared under
    that name, the file goes inside it, and the move fails only when that
    directory already holds the name. *)
Theorem undo_item_back (m ch : gmap string node) (c x : string)
    (data : list Byte.byte) :
  m !! c = Some (Dir ch) →
  ch !! x = Some (File data) →
  undo_item ([c; x], [x]) (Dir m) =
  match landed x data (m !! x) with
  | Some v =>
      ([(info, Reverted x)], Dir (<[x := v]> (<[c := Dir (delete x ch)]> m)))
  | None => ([(info, ErrorUndoing x)], Dir m)
  end.
Proof.
  intros Hc Hch. unfold undo_item. change (dirname [x]) with (@nil string).
  change (os_makedirs [] (Dir m)) with (Some (Dir m)). cbv iota.
  change (basename [c; x]) with x. unfold landed.
  destruct (m !! x) as [[d|inner|]|] eqn:Hx.
  2: { unfold shutil_move, os_path_isdir, os_path_exists.
       rewrite lookup_path_1, Hx.
       rewrite bool_decide_eq_false_2 by congruence.
       change ([x] ++ [basename [c; x]]) with [x; x].
       rewrite lookup_path_2, Hx.
       destruct (inner !! x) as [[| |]|] eqn:Hin; try done.
       all: assert (c ≠ x) by (intros ->; congruence).
       all: by rewrite (os_rename_back_inside m ch inner c x data) by auto. }
  all: rewrite (shutil_move_rename [c; x] [x] (Dir m)
                  (Dir (<[x := File data]> (<[c := Dir (delete x ch)]> m))));
    [done|unfold os_path_isdir; by rewrite lookup_path_1, Hx|].
  all: apply os_rename_back; try done; intros inner; by rewrite Hx.
Qed.

Lemma undo_item_back_witness :
  taken_name !! "Images" = Some (Dir {["a.jpg" := File [Byte.x02; Byte.x02]]})
  ∧ ({["a.jpg" := File [Byte.x02; Byte.x02]]} : gmap string node) !! "a.jpg"
    = Some (File [Byte.x02; Byte.x02])
  ∧ undo_item (["Images"; "a.jpg"], ["a.jpg"]) (Dir taken_name) =
    match landed "a.jpg" [Byte.x02; Byte.x02] (taken_name !! "a.jpg") with
    | Some v =>
        ([(info, Reverted "a.jpg")],
         Dir (<["a.jpg" := v]>
                (<["Images" := Dir (delete "a.jpg"
                                      {["a.jpg" := File [Byte.x02; Byte.x02]]})]>
                   taken_name)))
    | None => ([(info, ErrorUndoing "a.jpg")], Dir taken_name)
    end.
Proof.
  assert (Hc : taken_name !! "Images"
               = Some (Dir {["a.jpg" := File [Byte.x02; Byte.x02]]}))
    by (vm_compute; exact eq_refl).
  assert (Hx : ({["a.jpg" := File [Byte.x02; Byte.x02]]} : gmap string node) !! "a.jpg"
               = Some (File [Byte.x02; Byte.x02]))
    by (vm_compute; exact eq_refl).
  split; [exact Hc|]. split; [exact Hx|].
  exact (undo_item_back taken_name {["a.jpg" := File [Byte.x02; Byte.x02]]}
           "Images" "a.jpg" [Byte.x02; Byte.x02] Hc Hx).
Defined.

(** * The dashboard of a run *)

Lemma analysed_nonneg item_name w (n : Z) :
  analysed item_name w = Some n → (0 ≤ n)%Z.
Proof.
  unfold analysed, os_path_getsize. repeat case_match; intros [= <-]; lia.
Qed.

Lemma tally_sane item_name file_size snap :
  (∀ n : Z, file_size = Some n → (0 ≤ n)%Z) → sane snap.1 →
  sane (tally item_name file_size snap).1.
Proof.
  intros Hn Hsane. destruct file_size as [n|]; [|done]. specialize (Hn n eq_refl).
  intros c s. simpl. intros [[_ <-]|[_ Hs]]%lookup_insert_Some; [|by eapply Hsane].
  destruct (snap.1 !! category_of item_name) as [s0|] eqn:Hs0; simpl.
  - destruct (Hsane _ _ Hs0) as (? & ? & ?). lia.
  - lia.
Qed.

Lemma organize_loop_sane dry_run all_items :
  ∀ st,
    has_categories (analytics_data st) → sane (analytics_data st) →
    sane (analytics_data (flow_state (organize_loop dry_run all_items st).2)).
Proof.
  induction all_items as [|x rest IH]; intros st Hcat Hsane; [done|].
  cbn [organize_loop].
  destruct (organize_item_snapshot dry_run x st Hcat) as (st1 & Hst1 & Hsnap).
  destruct (organize_item dry_run x st) as [lines r]; simpl in Hst1; subst r.
  assert (Hcat1 : has_categories (analytics_data st1)).
  { change (analytics_data st1) with (snapshot st1).1. rewrite Hsnap.
    by apply tally_has_categories. }
  assert (Hsane1 : sane (analytics_data st1)).
  { change (analytics_data st1) with (snapshot st1).1. rewrite Hsnap.
    apply tally_sane; [|done]. intros n. apply analysed_nonneg. }
  specialize (IH st1 Hcat1 Hsane1).
  by destruct (organize_loop dry_run rest st1) as [lines' r].
Qed.

Lemma initial_analytics_sane : sane initial_analytics.
Proof. intros c s Hs. apply initial_analytics_zero in Hs as ->. simpl. lia. Qed.

Lemma sum_over_empty f : sum_over f ∅ = 0.
Proof. unfold sum_over. by rewrite map_fold_empty. Qed.

Lemma sum_over_insert_new f (a : gmap string stats) category s :
  a !! category = None → sum_over f (<[category := s]> a) = f s + sum_over f a.
Proof.
  intros Hnone. unfold sum_over. by rewrite map_fold_insert_L; [|intros; lia|].
Qed.

Lemma sum_over_filter f (P : string * stats → Prop) `{∀ kv, Decision (P kv)}
    (a : gmap string stats) :
  (∀ category s, a !! category = Some s → ¬ P (category, s) → f s = 0) →
  sum_over f (filter P a) = sum_over f a.
Proof.
  induction a as [|c s a Hc IH] using map_ind; intros Hzero.
  { by rewrite map_filter_empty. }
  assert (Hrest : ∀ c' s', a !! c' = Some s' → ¬ P (c', s') → f s' = 0).
  { intros c' s' Hs'. apply (Hzero c'). rewrite lookup_insert_ne; [done|congruence]. }
  rewrite sum_over_insert_new by done. destruct (decide (P (c, s))) as [HP|HP].
  - rewrite map_filter_insert_True by done.
    rewrite sum_over_insert_new by (by apply map_lookup_filter_None_2; left).
    by rewrite IH.
  - rewrite map_filter_insert_False, delete_id by done.
    rewrite IH by done. rewrite (Hzero c s); [lia|apply lookup_insert_eq|done].
Qed.

Lemma sum_over_nonneg f (a : gmap string stats) :
  (∀ (category : string) (s : stats), a !! category = Some s → (0 ≤ f s)%Z) →
  ∀ (category : string) (s : stats), a !! category = Some s → (f s ≤ sum_over f a)%Z.
Proof.
  induction a as [|c s a Hc IH] using map_ind; intros Hpos c' s' Hs'.
  { by rewrite lookup_empty in Hs'. }
  assert (Hrest : ∀ (c0 : string) (s0 : stats), a !! c0 = Some s0 → (0 ≤ f s0)%Z).
  { intros c0 s0 Hs0. apply (Hpos c0). rewrite lookup_insert_ne; [done|congruence]. }
  assert (0 ≤ sum_over f a)%Z.
  { destruct (map_choose_or_empty a) as [(c0 & s0 & Hs0)| ->];
      [|by rewrite sum_over_empty].
    specialize (IH Hrest c0 s0 Hs0). specialize (Hrest c0 s0 Hs0). lia. }
  assert (0 ≤ f s)%Z by (apply (Hpos c), lookup_insert_eq).
  rewrite sum_over_insert_new by done.
  apply lookup_insert_Some in Hs' as [[_ <-]|[_ Hs']]; [lia|].
  specialize (IH Hrest c' s' Hs'). lia.
Qed.

(** The chart values of a snapshot in which the counts and sizes add up. *)
Lemma chart_values_of_snapshot (a : gmap string stats) (sizes : list Z) :
  sane a → balanced (a, sizes) →
  (chart_values a sizes = None ↔ sizes = [])
  ∧ ∀ c, chart_values a sizes = Some c →
      pie_total_size c = sum_list sizes
      ∧ (∀ category,
            bar_counts c !! category = file_count <$> filtered_data a !! category)
      ∧ (∀ (category : string) (n : Z), bar_counts c !! category = Some n → (1 ≤ n)%Z).
Proof.
  intros Hsane [Hcount Hsize]. simpl in Hcount, Hsize.
  assert (Hfc : sum_over file_count (filtered_data a) = sum_over file_count a).
  { unfold filtered_data.
    apply (sum_over_filter file_count).
    intros c s Hs Hnot. simpl in Hnot. destruct (Hsane c s Hs) as (? & _). lia. }
  assert (Hts : sum_over total_size (filtered_data a) = sum_over total_size a).
  { unfold filtered_data.
    apply (sum_over_filter total_size).
    intros c s Hs Hnot. simpl in Hnot. destruct (Hsane c s Hs) as (? & _ & Hz).
    apply Hz. lia. }
  unfold chart_values. split.
  - case_bool_decide as Hempty; split; try done.
    + intros _. apply dom_empty_inv_L in Hempty.
      rewrite Hempty, sum_over_empty in Hfc. destruct sizes; [done|simpl in *; lia].
    + intros ->. destruct Hempty. apply dom_empty_iff_L, map_empty. intros c.
      apply map_lookup_filter_None. right. intros s Hs. simpl.
      pose proof (sum_over_nonneg file_count a
                    (λ c' s' Hs', proj1 (Hsane c' s' Hs')) c s Hs).
      simpl in Hcount. lia.
  - intros c. case_bool_decide; [done|]. intros [= <-]. cbn [pie_total_size bar_counts].
    split; [congruence|]. split; [intros k; by rewrite lookup_fmap|].
    intros k n. rewrite lookup_fmap. intros Hn.
    destruct (filtered_data a !! k) as [s|] eqn:Hs; [|done]. injection Hn as <-.
    apply map_lookup_filter_Some in Hs as [_ Hs]. simpl in Hs. lia.
Qed.

(** X14. The values [update_analytics_dashboard] computes from the snapshot
    of a run whose listing succeeded: it takes the "No files were
    processed." branch exactly when the run analysed no file; otherwise the
    total it computes is the sum of the sizes of all analysed files, and the
    categories it charts are exactly those that got a file, each with a
    count of at least 1. *)
Theorem chart_values_of_run (actions : list move_action) (m : gmap string node)
    (listing : list string) (dry_run : bool) :
  let r := result (organize_directory actions (Dir m) (Some listing) dry_run) in
  let v := chart_values (analytics_data r) (all_file_sizes r) in
  (v = None ↔ all_file_sizes r = [])
  ∧ ∀ c, v = Some c →
      pie_total_size c = sum_list (all_file_sizes r)
      ∧ (∀ category,
            bar_counts c !! category
            = file_count <$> filtered_data (analytics_data r) !! category)
      ∧ (∀ (category : string) (n : Z), bar_counts c !! category = Some n → (1 ≤ n)%Z).
Proof.
  cbv zeta. unfold organize_directory. simpl os_listdir. cbv iota.
  match goal with |- context [organize_loop dry_run listing ?st0] =>
    pose proof (organize_loop_sane dry_run listing st0
                  initial_analytics_has_categories initial_analytics_sane) as Hsane;
    pose proof (organize_loop_balanced dry_run listing st0
                  initial_analytics_has_categories initial_analytics_balanced) as Hbal;
    destruct (organize_loop dry_run listing st0) as [lines [st|st]] end;
    cbn [result]; by apply chart_values_of_snapshot.
Qed.

(** * A session at the buttons *)

Lemma organize_directory_no_top_error actions (m : gmap string node) listing dry_run :
  ∀ lvl,
    (lvl, UnexpectedError)
      ∉ log (organize_directory actions (Dir m) (Some listing) dry_run).
Proof.
  unfold organize_directory. simpl os_listdir. cbv iota.
  match goal with |- context [organize_loop dry_run listing ?st0] =>
    pose proof (organize_loop_about dry_run listing st0) as Habout;
    destruct (organize_loop_next dry_run listing st0 initial_analytics_has_categories)
      as (st' & Hnext & _);
    destruct (organize_loop dry_run listing st0) as [lines r] end.
  simpl in Hnext, Habout; subst r. cbn [log].
  intros lvl [[=]|[Hin|[Hin|Hin]%elem_of_app]%elem_of_app]%elem_of_cons.
  - rewrite Forall_forall in Habout. by destruct (Habout _ Hin).
  - case_bool_decide; [|by apply elem_of_nil in Hin].
    by apply list_elem_of_singleton in Hin.
  - by apply list_elem_of_singleton in Hin.
Qed.

Lemma handle_steady g c : steady_app g → steady_app (handle g c).
Proof.
  intros Hg. pose proof Hg as (Hob & Hub & Hdlg).
  destruct c as [target_path target listing dry|w]; simpl.
  - rewrite Hob. unfold start_organization_thread.
    destruct (bool_decide (target_path = "") || negb (os_path_isdir [] target)) eqn:Hvalid.
    + simpl. repeat split; try done.
      intros [?|[=]%list_elem_of_singleton]%elem_of_app. done.
    + simpl. repeat split; try done.
      destruct dry; simpl; [done|]. by repeat case_bool_decide.
  - destruct (undo_button g) eqn:Hundo; [|done].
    unfold start_undo_thread.
    destruct (nothing_to_undo _) eqn:Hnothing.
    + exfalso. apply (Hub eq_refl). unfold undo_last_organization in Hnothing.
      destruct (app_actions g); [done|].
      by destruct (undo_loop _ _).
    + simpl. repeat split; done.
Qed.

Lemma organize_directory_real_count actions target listing :
  let r := result (organize_directory actions target listing false) in
  files_processed_count r = Z.of_nat (length (last_move_actions r)).
Proof.
  unfold organize_directory.
  destruct (os_listdir target listing) as [all_items|]; [|done].
  match goal with |- context [organize_loop ?d all_items ?st0] =>
    pose proof (organize_loop_count d all_items st0
                  initial_analytics_has_categories) as Hcount;
    destruct (organize_loop_next d all_items st0 initial_analytics_has_categories)
      as (st' & Hnext & _);
    destruct (organize_loop d all_items st0) as [lines r] end.
  simpl in Hnext; subst r. simpl in *. lia.
Qed.

(** X15. One click on "Organize Files". With an empty entry or a path that
    is no directory only the error dialog is shown. Otherwise, when the
    run and its callbacks are through: the organize button is back to
    normal with its first label, the log area holds the lines of this run
    and nothing older, with the line of the unexpected error among them
    exactly when the listing of the directory failed, and the undo button
    is enabled exactly when the run was real and moved at least one file;
    after a dry run it is disabled although the action log is the one from
    before. *)
Theorem organize_click (target_path : string) (target : node)
    (listing : option (list string)) (is_dry_run : bool) (g : app) :
  let o := organize_directory (app_actions g) target listing is_dry_run in
  let g' := (start_organization_thread target_path target listing is_dry_run g).1 in
  let w' := (start_organization_thread target_path target listing is_dry_run g).2 in
  if bool_decide (target_path ≠ "") && os_path_isdir [] target then
    organize_button g' = (normal, "Organize Files")
    ∧ log_area g' = (λ e : log_entry, Line e.2) <$> log o
    ∧ (Line UnexpectedError ∈ log_area g' ↔ listing = None)
    ∧ (undo_button g' = normal ↔
         is_dry_run = false ∧ (0 < files_processed_count (result o))%Z)
    ∧ (is_dry_run = true → app_actions g' = app_actions g)
    ∧ dialogs g' = dialogs g
    ∧ w' = fs (result o)
  else
    dialogs g' = dialogs g ++ [SelectValidDirectory]
    ∧ app_actions g' = app_actions g ∧ organize_button g' = organize_button g
    ∧ undo_button g' = undo_button g ∧ log_area g' = log_area g
    ∧ w' = target.
Proof.
  cbv zeta. unfold start_organization_thread.
  destruct (bool_decide (target_path = "")) eqn:Hempty.
  { apply bool_decide_eq_true in Hempty.
    rewrite (bool_decide_eq_false_2 (target_path ≠ "")) by tauto. done. }
  apply bool_decide_eq_false in Hempty.
  rewrite (bool_decide_eq_true_2 (target_path ≠ "")) by done.
  destruct (os_path_isdir [] target) eqn:Hdir; [|done].
  destruct target as [|m|]; try done. cbn [orb andb negb fst snd].
  split_and!; try done.
  - cbn [log_area finalize_organization]. destruct listing as [all_items|].
    + split; [|done]. intros Hin.
      apply list_elem_of_fmap in Hin as ([lvl msg] & [= <-] & Hin).
      by destruct (organize_directory_no_top_error _ _ _ _ _ Hin).
    + split; [done|]. intros _. cbn. right. left.
  - cbn [undo_button finalize_organization app_actions].
    destruct is_dry_run; cbn [negb andb].
    { split; [done|by intros [[=] _]]. }
    pose proof (organize_directory_real_count (app_actions g) (Dir m) listing) as Hcount.
    cbv zeta in Hcount. rewrite Hcount.
    destruct (last_move_actions _) as [|a rest]; simpl.
    + split; [done|]. intros [_ ?]; lia.
    + split; [|done]. intros _. split; [done|lia].
  - intros ->. cbn [app_actions finalize_organization]. apply organize_directory_dry.
Qed.

(** X16. In a session of clicks on the two buttons, each click served to
    its end before the next: the organize button is always back to normal
    with its first label, and the undo button is enabled only while there
    are recorded moves, so the "No actions to undo" dialog is never
    shown. *)
Theorem session_invariant (clicks : list click) :
  let g := session clicks in
  organize_button g = (normal, "Organize Files")
  ∧ (undo_button g = normal → app_actions g ≠ [])
  ∧ (NoActionsToUndo ∉ dialogs g).
Proof.
  cbv zeta. change (steady_app (session clicks)). unfold session.
  assert (Hinit : steady_app initial_app).
  { repeat split; try done. by intros ?%elem_of_nil. }
  revert Hinit. generalize initial_app.
  induction clicks as [|c rest IH]; intros g Hg; [done|].
  simpl. apply IH. by apply handle_steady.
Qed.
